(** * Neutron L3 agent evacuation ([openstackkit/l3_evacuate.py])

    A shallow embedding of the evacuation tool: the target selectors
    ([Picker], [BalancePicker], [CyclePicker]), the host verifier
    ([L3AgentEvacuator]) and the per-router migration engine
    ([SequenceEvacuator]).

    The two collaborators of the program, the Neutron client and the remote
    runner, are interfaces over an abstract world [W]; every call threads the
    world and is recorded in a chronological trace, so that statements of the
    form "no remote command is issued" are statements about the trace.
    Python exceptions are an explicit outcome.  Logging has no influence on
    control flow and is left out. *)

From Stdlib Require Import List ZArith String Ascii Bool Lia Arith DecimalString
  Permutation.
Import ListNotations.
Local Open Scope string_scope.
Local Open Scope Z_scope.

(* ------------------------------------------------------------------------- *)
(** ** Python strings *)

Module PyStr.

Definition nl : ascii := "010"%char.

(** [s.split('\n')]: one more piece than there are newlines. *)
Fixpoint split_nl (s : string) : list string :=
  match s with
  | EmptyString => [EmptyString]
  | String c s' =>
      if Ascii.eqb c nl then EmptyString :: split_nl s'
      else match split_nl s' with
           | [] => [String c EmptyString]
           | w :: ws => String c w :: ws
           end
  end.

(** [pat in s] on strings: [pat] occurs as a contiguous substring. *)
Fixpoint contains (pat s : string) : bool :=
  String.prefix pat s
  || match s with
     | EmptyString => false
     | String _ s' => contains pat s'
     end.

(** [s[0:n]] *)
Definition slice0 (n : nat) (s : string) : string := String.substring 0 n s.

(** ["%d" % z] *)
Definition fmt_d (z : Z) : string := NilZero.string_of_int (Z.to_int z).

End PyStr.

(* ------------------------------------------------------------------------- *)
(** ** Python dictionaries with string keys

    The pickers iterate over [dict.keys()], so the key order matters: a
    dictionary is an association list without repeated keys.  Assigning to a
    present key keeps its position, assigning to a new key appends it; the
    order in which the interpreter lists the keys of a dictionary that was
    filled in this way is that of [arrange] below. *)

Module PyDict.
Section Dict.
Context {V : Type}.

Definition dict := list (string * V).

Definition keys (d : dict) : list string := map fst d.

Fixpoint get (k : string) (d : dict) : option V :=
  match d with
  | [] => None
  | (k', v) :: d' => if String.eqb k k' then Some v else get k d'
  end.

(** [d[k] = v] *)
Fixpoint set (k : string) (v : V) (d : dict) : dict :=
  match d with
  | [] => [(k, v)]
  | (k', v') :: d' =>
      if String.eqb k k' then (k', v) :: d' else (k', v') :: set k v d'
  end.

(** In-place change of the value stored under [k] (no effect when absent;
    the callers look the key up first). *)
Fixpoint update (k : string) (f : V -> V) (d : dict) : dict :=
  match d with
  | [] => []
  | (k', v') :: d' =>
      if String.eqb k k' then (k', f v') :: d' else (k', v') :: update k f d'
  end.

End Dict.
Arguments dict V : clear implicits.
End PyDict.

(** *** The order in which a dictionary lists its keys

    The program runs on Python 2 ([cycle.next()], [e.message]), where
    [d.keys()], [d.values()] and iteration follow the hash table, not the
    insertion.  [keys_order l] is the order in which a dictionary lists its
    keys after they were inserted, into the empty dictionary, in the order
    [l]: some arrangement of the same keys.  No dictionary of the program
    ever loses a key, and assigning to a present key moves nothing.

    [arrange d] is the dictionary [d], filled by insertion, with its entries
    in the order in which the interpreter lists them. *)

Class DictOrder : Type := {
  keys_order : list string -> list string;
  keys_order_perm : forall l, Permutation (keys_order l) l
}.

Definition arrange {order : DictOrder} {V : Type} (d : PyDict.dict V) : PyDict.dict V :=
  flat_map (fun k => match PyDict.get k d with
                     | Some v => [(k, v)]
                     | None => []
                     end)
           (keys_order (PyDict.keys d)).

(* ------------------------------------------------------------------------- *)
(** ** Exceptions and outcomes *)

Inductive exn : Type :=
| NeutronClientException (msg : string)
| Exception (msg : string)
| ValueError (msg : string)
| StopIteration
| KeyError (key : string).

Inductive outcome (A : Type) : Type :=
| Ret (a : A)
| Raise (e : exn).
Arguments Ret {A} a.
Arguments Raise {A} e.

(* ------------------------------------------------------------------------- *)
(** ** Data model: what the program reads of the Neutron resources *)

Record Agent : Type := mkAgent {
  agent_id : string;
  agent_host : string;
  agent_alive : bool;
  agent_admin_state_up : bool;
  agent_routers : Z          (* agent['configurations']['routers'] *)
}.

Record Port : Type := mkPort {
  port_id : string;
  port_device_owner : string
}.

Record Router : Type := mkRouter {
  router_id : string;
  router_routes : list string
}.

(* ------------------------------------------------------------------------- *)
(** ** The collaborators

    Each operation takes the world and returns the next one.  A Neutron call
    may raise; [remote_exec] returns [(rc, stdout, stderr)]. *)

Class NeutronClient (W : Type) : Type := {
  list_agents : W -> outcome (list Agent) * W;
  list_routers_on_l3_agent : string -> W -> outcome (list Router) * W;
  list_l3_agent_hosting_routers : string -> W -> outcome (list Agent) * W;
  remove_router_from_l3_agent : string -> string -> W -> outcome unit * W;
  add_router_to_l3_agent : string -> string -> W -> outcome unit * W;
  list_ports : string -> option bool -> W -> outcome (list Port) * W;
  list_floatingips : string -> W -> outcome (list string) * W
}.

Class RemoteExec (W : Type) : Type := {
  remote_exec : string -> list string -> W -> (Z * string * string) * W
}.

Inductive event : Type :=
| EvRun (host : string) (cmd : list string)
| EvListAgents
| EvListRouters (agent : string)
| EvListHosting (router : string)
| EvRemoveRouter (agent router : string)
| EvAddRouter (agent router : string)
| EvListPorts (router : string) (admin_state_up : option bool)
| EvListFloatingips (router : string).

Definition is_remote (e : event) : bool :=
  match e with EvRun _ _ => true | _ => false end.

Definition is_attach (e : event) : bool :=
  match e with EvAddRouter _ _ => true | _ => false end.

(* ------------------------------------------------------------------------- *)
(** ** The monad: world and trace passing, with exceptions *)

Section Monad.
Context {W : Type}.

Record St : Type := mkSt { world : W; trace : list event }.

Definition M (A : Type) : Type := St -> outcome A * St.

Definition ret {A} (a : A) : M A := fun s => (Ret a, s).

Definition raise {A} (e : exn) : M A := fun s => (Raise e, s).

Definition bind {A B} (m : M A) (f : A -> M B) : M B :=
  fun s => match m s with
           | (Ret a, s') => f a s'
           | (Raise e, s') => (Raise e, s')
           end.

(** [try: m  except Exception as e: h e] *)
Definition try_except {A} (m : M A) (h : exn -> M A) : M A :=
  fun s => match m s with
           | (Ret a, s') => (Ret a, s')
           | (Raise e, s') => h e s'
           end.

(** A call of the collaborator, recorded in the trace. *)
Definition call {A} (ev : event) (f : W -> A * W) : St -> A * St :=
  fun s => let (a, w') := f (world s) in
           (a, {| world := w'; trace := trace s ++ [ev] |}).

End Monad.
Arguments St W : clear implicits.
Arguments M W A : clear implicits.

Declare Scope py_scope.
Delimit Scope py_scope with py.
Notation "x <- m ;; k" := (bind m (fun x => k))
  (at level 61, m at next level, right associativity) : py_scope.
Notation "' p <- m ;; k" := (bind m (fun x => match x with p => k end))
  (at level 61, p pattern, m at next level, right associativity) : py_scope.
Notation "m ;;; k" := (bind m (fun _ => k))
  (at level 61, right associativity) : py_scope.
Local Open Scope py_scope.


(* ------------------------------------------------------------------------- *)
(** ** Configuration of an evacuator ([L3AgentEvacuator.__init__])

    Times are whole seconds.  The polling interval is positive: with an
    interval of zero the source loop would poll without advancing its clock. *)

Record Config : Type := mkConfig {
  cfg_retry : Z;                 (* self._retry *)
  cfg_wait_interval : positive;  (* self._wait_interval *)
  cfg_wait_timeout : Z;          (* self._wait_timeout *)
  cfg_least_wait_time : Z        (* self._least_wait_time *)
}.

(** [if 'retry' in kwargs and kwargs['retry'] >= 0: ... else: self._retry = 1],
    and the other defaults of the constructor. *)
Definition config_of_kwargs (retry : option Z) : Config :=
  {| cfg_retry := match retry with
                  | Some r => if r >=? 0 then r else 1
                  | None => 1
                  end;
     cfg_wait_interval := 1%positive;
     cfg_wait_timeout := 30;
     cfg_least_wait_time := 3 |}.

(* ------------------------------------------------------------------------- *)
(** ** The host verifier and the migration engine *)

Section Evacuator.
Context {W : Type} {neutron : NeutronClient W} {runner : RemoteExec W}.
Variable cfg : Config.
Variable self_src_agent : Agent.      (* self._src_agent *)

(** [RemoteRunner.run] *)
Definition run (host : string) (cmd : list string) : M W (bool * string) :=
  fun s =>
    let '((rc, stdout, stderr), s') := call (EvRun host cmd) (remote_exec host cmd) s in
    if negb (rc =? 0) then (Ret (false, stderr), s') else (Ret (true, stdout), s').

(** Neutron client calls, as the program issues them. *)
Definition neutron_list_agents : M W (list Agent) :=
  call EvListAgents list_agents.
Definition neutron_list_routers_on_l3_agent (a : string) : M W (list Router) :=
  call (EvListRouters a) (list_routers_on_l3_agent a).
Definition neutron_list_l3_agent_hosting_routers (r : string) : M W (list Agent) :=
  call (EvListHosting r) (list_l3_agent_hosting_routers r).
Definition neutron_remove_router_from_l3_agent (a r : string) : M W unit :=
  call (EvRemoveRouter a r) (remove_router_from_l3_agent a r).
Definition neutron_add_router_to_l3_agent (a r : string) : M W unit :=
  call (EvAddRouter a r) (add_router_to_l3_agent a r).
Definition neutron_list_ports (r : string) (up : option bool) : M W (list Port) :=
  call (EvListPorts r up) (list_ports r up).
Definition neutron_list_floatingips (r : string) : M W (list string) :=
  call (EvListFloatingips r) (list_floatingips r).

(** *** [_wait_until]

    The [while] loop; [fuel] bounds the number of evaluations of the loop
    condition.  The result is the value of [wait_time] when the loop is left
    ([None] when the fuel is used up, which [wait_fuel] excludes, see
    [wait_loop_fuel]). *)
Fixpoint wait_loop (fuel : nat) (func : M W bool)
    (wait_timeout : Z) (wait_interval : positive) (least_wait_time : Z)
    (wait_time : Z) : M W (option Z) :=
  match fuel with
  | O => ret None
  | S fuel' =>
      if (wait_time <? least_wait_time) || (wait_time <=? wait_timeout) then
        ok <- func ;;
        if negb ok then
          wait_loop fuel' func wait_timeout wait_interval least_wait_time
                    (wait_time + Z.pos wait_interval)
        else ret (Some wait_time)
      else ret (Some wait_time)
  end.

Definition wait_fuel (wait_timeout least_wait_time : Z) : nat :=
  S (Z.to_nat (Z.max least_wait_time (wait_timeout + 1))).

Definition _wait_until (func : M W bool)
    (wait_timeout : Z) (wait_interval : positive) (least_wait_time : Z) : M W bool :=
  r <- wait_loop (wait_fuel wait_timeout least_wait_time) func
                 wait_timeout wait_interval least_wait_time 0 ;;
  match r with
  | Some wait_time => if wait_time >? wait_timeout then ret false else ret true
  | None => ret false
  end.

(** [self._wait_until(func, ...)] without keyword overrides. *)
Definition _wait_until_default (func : M W bool) : M W bool :=
  _wait_until func (cfg_wait_timeout cfg) (cfg_wait_interval cfg)
              (cfg_least_wait_time cfg).

(** *** Control-plane checks *)

Definition _check_api_removed (agent : Agent) (router : Router) : M W bool :=
  agents <- neutron_list_l3_agent_hosting_routers (router_id router) ;;
  ret (Nat.eqb (List.length agents) 0).

Definition _check_api_added (agent : Agent) (router : Router) : M W bool :=
  agents <- neutron_list_l3_agent_hosting_routers (router_id router) ;;
  ret (existsb (String.eqb (agent_id agent)) (map agent_id agents)).

(** *** Commands *)

Definition namespace_of (router : Router) : string := "qrouter-" ++ router_id router.

Definition _cmd_grep_snat_rule_in_netns (netns rule_name : string) : list string :=
  ["ip"; "netns"; "exec"; netns; "iptables"; "-t"; "nat"; "-L"; "|"; "grep";
   "^" ++ rule_name].

Definition _cmd_show_ipforward_in_netns (netns : string) : list string :=
  ["ip"; "netns"; "exec"; netns; "cat"; "/proc/sys/net/ipv4/ip_forward"].

Definition _cmd_list_nic_in_netns (netns : string) : list string :=
  ["ip"; "netns"; "exec"; netns; "ls"; "-1"; "/sys/class/net/"].

Definition _cmd_delete_ovs_port (port_name br_name : string) (timeout : Z) : list string :=
  ["ovs-vsctl"; "--timeout=" ++ PyStr.fmt_d timeout; "--"; "--if-exists";
   "del-port"; br_name; port_name].

Definition _cmd_delete_netns (netns : string) : list string :=
  ["ip"; "netns"; "delete"; netns].

(** *** The host verifier *)

Definition _list_nics_in_netns_on_remote (host netns : string) : M W (list string) :=
  '(rc, output) <- run host (_cmd_list_nic_in_netns netns) ;;
  if rc then
    ret (filter (fun one_nic => negb (String.eqb one_nic "lo"))
                (PyStr.split_nl output))
  else if PyStr.contains "Cannot open network namespace" output then ret []
  else raise (Exception ("Failed list nics in namespace " ++ netns
                         ++ " on host [" ++ host ++ "]")).

Fixpoint _clean_nics_on_host (host : string) (nics : list string) : M W unit :=
  match nics with
  | [] => ret tt
  | one_nic :: nics' =>
      (if PyStr.contains "qg-" one_nic then
         run host (_cmd_delete_ovs_port one_nic "br-router" 10)
       else if PyStr.contains "qr-" one_nic then
         run host (_cmd_delete_ovs_port one_nic "br-int" 10)
       else
         run host (_cmd_delete_ovs_port one_nic "" 10)) ;;;
      _clean_nics_on_host host nics'
  end.

Definition _clean_netns_on_host (host namespace : string) : M W unit :=
  run host (_cmd_delete_netns namespace) ;;; ret tt.

Definition _ensure_clean_router_on_host (agent : Agent) (router : Router) : M W bool :=
  let host := agent_host agent in
  let namespace := namespace_of router in
  result <- _list_nics_in_netns_on_remote host namespace ;;
  if Nat.eqb (List.length result) 0 then ret true
  else
    _clean_nics_on_host host result ;;;
    _clean_netns_on_host host namespace ;;;
    ret true.

Definition _verify_router_snat_rule (agent : Agent) (router : Router) : M W bool :=
  '(rc, output) <- run (agent_host agent)
      (_cmd_grep_snat_rule_in_netns (namespace_of router) "neutron-l3-agent-snat") ;;
  if rc then ret true else ret false.

Definition _verify_ipforward_on_host (agent : Agent) (router : Router) : M W bool :=
  '(rc, output) <- run (agent_host agent)
      (_cmd_show_ipforward_in_netns (namespace_of router)) ;;
  if rc then ret (String.eqb output "1") else ret false.

(** The [for one_port in ports] loop of [_verify_ports_on_host]. *)
Fixpoint verify_ports_loop (result : list string) (ports : list Port) (state : bool) : bool :=
  match ports with
  | [] => state
  | one_port :: ports' =>
      if String.eqb (port_device_owner one_port) "network:router_interface" then
        let nic := "qr-" ++ PyStr.slice0 11 (port_id one_port) in
        verify_ports_loop result ports'
          (state && existsb (String.eqb nic) result)
      else if String.eqb (port_device_owner one_port) "network:router_gateway" then
        let nic := "qg-" ++ PyStr.slice0 11 (port_id one_port) in
        verify_ports_loop result ports'
          (state && existsb (String.eqb nic) result)
      else verify_ports_loop result ports' state
  end.

Definition _verify_ports_on_host (agent : Agent) (router : Router) : M W bool :=
  ports <- neutron_list_ports (router_id router) (Some true) ;;
  if Nat.eqb (List.length ports) 0 then ret true
  else
    result <- _list_nics_in_netns_on_remote (agent_host agent) (namespace_of router) ;;
    ret (verify_ports_loop result ports true).

Definition _verify_router_on_host (agent : Agent) (router : Router) : M W bool :=
  verify_ports <- _verify_ports_on_host agent router ;;
  if negb verify_ports then ret false
  else _verify_ipforward_on_host agent router.

(** *** [SequenceEvacuator]: detach and attach with a retry budget

    [_remove_router] and [_add_router] end in a [finally] clause that always
    returns.  [_remove_router_try] is the [try]/[except] part and yields the
    value of [need_retry] with which the [finally] clause is entered: an
    exception other than [NeutronClientException] leaves [need_retry] false
    and is then discarded by the [return] of the [finally] clause. *)

Definition _remove_router_try (agent : Agent) (router : Router) : M W bool :=
  try_except
    (neutron_remove_router_from_l3_agent (agent_id agent) (router_id router) ;;;
     ok <- _wait_until_default (_check_api_removed agent router) ;;
     if negb ok then ret true else ret false)
    (fun e => match e with
              | NeutronClientException _ => ret true
              | _ => ret false
              end).

(** The recursion is on the number of retries that are left. *)
Fixpoint _remove_router_n (n : nat) (agent : Agent) (router : Router) : M W bool :=
  need_retry <- _remove_router_try agent router ;;
  if negb need_retry then ret true
  else match n with
       | S n' => _remove_router_n n' agent router
       | O => ret false
       end.

Definition _remove_router (agent : Agent) (router : Router) (retry : Z) : M W bool :=
  _remove_router_n (Z.to_nat retry) agent router.

Definition _add_router_try (agent : Agent) (router : Router) : M W bool :=
  try_except
    (neutron_add_router_to_l3_agent (agent_id agent) (router_id router) ;;;
     ok <- _wait_until_default (_check_api_added agent router) ;;
     if negb ok then ret true else ret false)
    (fun e => match e with
              | NeutronClientException _ => ret true
              | _ => ret false
              end).

Fixpoint _add_router_n (n : nat) (agent : Agent) (router : Router) : M W bool :=
  need_retry <- _add_router_try agent router ;;
  if negb need_retry then ret true
  else match n with
       | S n' => _add_router_n n' agent router
       | O => ret false
       end.

Definition _add_router (agent : Agent) (router : Router) (retry : Z) : M W bool :=
  _add_router_n (Z.to_nat retry) agent router.

Definition _ensure_router_cleaned (agent : Agent) (router : Router) : M W bool :=
  try_except
    (_ensure_clean_router_on_host agent router ;;; ret true)
    (fun e => ret false).

Definition _extra_timeout_for_router (router : Router) : M W Z :=
  ports <- neutron_list_ports (router_id router) None ;;
  floating_ips <- neutron_list_floatingips (router_id router) ;;
  ret (Z.of_nat (List.length ports + List.length floating_ips
                 + List.length (router_routes router))).

(** The [try] block of [_ensure_router_added]. *)
Definition _ensure_router_added_try (agent : Agent) (router : Router) : M W bool :=
  _wait_until (_verify_router_snat_rule agent router) 15 1%positive 1 ;;;
  verified <- _verify_router_on_host agent router ;;
  if negb verified then
    extra_timeout <- _extra_timeout_for_router router ;;
    added <- _wait_until (_verify_router_on_host agent router)
                         extra_timeout 1%positive 1 ;;
    if negb added then ret false else ret true
  else ret true.

Definition _ensure_router_added (agent : Agent) (router : Router) : M W bool :=
  try_except (_ensure_router_added_try agent router) (fun e => ret true).

(** [_retry_failed_router] returns [True] on one path and falls off its end
    ([None]) on the others.  [n] counts the calls that pass the guard
    [retry < 0]: [n = retry + 1]. *)
Fixpoint _retry_failed_router_n (n : nat) (router : Router) (src_agent : Agent)
  : M W (option bool) :=
  match n with
  | O => ret None
  | S n' =>
      agents <- neutron_list_l3_agent_hosting_routers (router_id router) ;;
      match agents with
      | agent :: _ =>
          ensured <- _ensure_router_added agent router ;;
          if ensured then
            (if negb (String.eqb (agent_id agent) (agent_id src_agent)) then
               _ensure_router_cleaned src_agent router ;;; ret tt
             else ret tt) ;;;
            ret (Some true)
          else ret None
      | [] =>
          _add_router src_agent router (cfg_retry cfg) ;;;
          _retry_failed_router_n n' router src_agent ;;;
          ret None
      end
  end.

Definition _retry_failed_router (router : Router) (src_agent : Agent) (retry : Z)
  : M W (option bool) :=
  _retry_failed_router_n (Z.to_nat (retry + 1)) router src_agent.

Definition migrate_router (target_agent : Agent) (router : Router)
    (src_agent : option Agent) : M W unit :=
  let src_agent := match src_agent with
                   | Some a => a
                   | None => self_src_agent
                   end in
  removed <- _remove_router src_agent router (cfg_retry cfg) ;;
  if removed then
    added <- _add_router target_agent router (cfg_retry cfg) ;;
    ports <- neutron_list_ports (router_id router) (Some true) ;;
    if added && Nat.ltb 0 (List.length ports) then
      ensure_added <- _ensure_router_added target_agent router ;;
      if ensure_added then
        _ensure_router_cleaned src_agent router ;;; ret tt
      else
        _retry_failed_router router src_agent (cfg_retry cfg) ;;; ret tt
    else if Nat.eqb (List.length ports) 0 then ret tt
    else _retry_failed_router router src_agent (cfg_retry cfg) ;;; ret tt
  else ret tt.

End Evacuator.

(* ------------------------------------------------------------------------- *)
(** ** The target selectors *)

(** [self.dest[agent_id]]: the agent and the routers queued for it. *)
Record DestEntry : Type := mkDestEntry {
  de_agent : Agent;
  de_routers : list Router
}.

(** [dest] holds its entries in the order in which [self.dest.keys()] lists
    them.  [_dest_cycle] is [itertools.cycle(self.dest.keys())]: the keys as
    they were when the picker was built, and the position of the next one. *)
Record Picker : Type := mkPicker {
  picker_src_agent : Agent;
  dest : PyDict.dict DestEntry;
  dest_cycle_keys : list string;
  dest_cycle_pos : nat;
  src_router_count : option nat
}.

Definition set_dest (d : PyDict.dict DestEntry) (p : Picker) : Picker :=
  {| picker_src_agent := picker_src_agent p; dest := d;
     dest_cycle_keys := dest_cycle_keys p; dest_cycle_pos := dest_cycle_pos p;
     src_router_count := src_router_count p |}.

Definition set_cycle_pos (n : nat) (p : Picker) : Picker :=
  {| picker_src_agent := picker_src_agent p; dest := dest p;
     dest_cycle_keys := dest_cycle_keys p; dest_cycle_pos := n;
     src_router_count := src_router_count p |}.

Definition set_src_router_count (n : nat) (p : Picker) : Picker :=
  {| picker_src_agent := picker_src_agent p; dest := dest p;
     dest_cycle_keys := dest_cycle_keys p; dest_cycle_pos := dest_cycle_pos p;
     src_router_count := Some n |}.

(** [routers.append(router)] on an entry. *)
Definition append_router (router : Router) (e : DestEntry) : DestEntry :=
  {| de_agent := de_agent e; de_routers := de_routers e ++ [router] |}.

(** Sequencing of pure code that may raise. *)
Definition obind {A B} (o : outcome A) (f : A -> outcome B) : outcome B :=
  match o with
  | Ret a => f a
  | Raise e => Raise e
  end.

(** [d[k]] as an expression: [KeyError] when the key is absent. *)
Definition getitem {V} (k : string) (d : PyDict.dict V) : outcome V :=
  match PyDict.get k d with
  | Some v => Ret v
  | None => Raise (KeyError k)
  end.

(** The [for agent in agents] loop of [Picker.__init__]. *)
Definition picker_dest_loop (src_agent : Agent) (agents : list Agent)
  : PyDict.dict DestEntry :=
  fold_left
    (fun d agent =>
       if agent_alive agent && agent_admin_state_up agent
          && negb (String.eqb (agent_id agent) (agent_id src_agent))
       then PyDict.set (agent_id agent)
                       {| de_agent := agent; de_routers := [] |} d
       else d)
    agents [].

(** [self._dest_cycle.next()] *)
Definition dest_cycle_next (p : Picker) : outcome (string * Picker) :=
  match nth_error (dest_cycle_keys p) (dest_cycle_pos p) with
  | Some k =>
      Ret (k, set_cycle_pos
                (Nat.modulo (S (dest_cycle_pos p)) (List.length (dest_cycle_keys p))) p)
  | None => Raise StopIteration
  end.

(** [min(keys, key=...)]: the first of the least elements; [ValueError] on
    an empty sequence. *)
Fixpoint min_from {A} (key : A -> Z) (best : A) (xs : list A) : A :=
  match xs with
  | [] => best
  | x :: xs' => if key x <? key best then min_from key x xs' else min_from key best xs'
  end.

Definition py_min {A} (key : A -> Z) (xs : list A) : outcome A :=
  match xs with
  | [] => Raise (ValueError "min() arg is an empty sequence")
  | x :: xs' => Ret (min_from key x xs')
  end.

(** [totals[agent_id]] inside the [key] function of [min]; the keys it is
    applied to are those of [totals]. *)
Definition total_of (totals : PyDict.dict Z) (agent_id : string) : Z :=
  match PyDict.get agent_id totals with
  | Some t => t
  | None => 0
  end.

(** [for agent_id in self.dest.keys(): totals[agent_id] = ...] *)
Fixpoint balance_totals (d : PyDict.dict DestEntry) (ks : list string)
    (totals : PyDict.dict Z) : outcome (PyDict.dict Z) :=
  match ks with
  | [] => Ret totals
  | agent_id :: ks' =>
      obind (getitem agent_id d) (fun e =>
      balance_totals d ks' (PyDict.set agent_id (agent_routers (de_agent e)) totals))
  end.

(** [for router in routers] of [BalancePicker.init]. *)
Fixpoint balance_loop (routers : list Router) (totals : PyDict.dict Z)
    (d : PyDict.dict DestEntry) : outcome (PyDict.dict Z * PyDict.dict DestEntry) :=
  match routers with
  | [] => Ret (totals, d)
  | router :: routers' =>
      obind (py_min (total_of totals) (PyDict.keys totals)) (fun agent_id =>
      obind (getitem agent_id d) (fun _ =>
      let d' := PyDict.update agent_id (append_router router) d in
      obind (getitem agent_id totals) (fun t =>
      balance_loop routers' (PyDict.set agent_id (t + 1) totals) d')))
  end.

(** [for router in routers] of [CyclePicker.init]. *)
Fixpoint cycle_loop (routers : list Router) (p : Picker) : outcome Picker :=
  match routers with
  | [] => Ret p
  | router :: routers' =>
      obind (dest_cycle_next p) (fun '(agent_id, p1) =>
      obind (getitem agent_id (dest p1)) (fun _ =>
      cycle_loop routers'
        (set_dest (PyDict.update agent_id (append_router router) (dest p1)) p1)))
  end.

Section Pickers.
Context {W : Type} {neutron : NeutronClient W} {order : DictOrder}.

Definition lift {A} (o : outcome A) : M W A := fun s => (o, s).

(** [Picker.__init__(neutron, src_agent)] *)
Definition Picker_init (src_agent : Agent) : M W Picker :=
  agents <- neutron_list_agents ;;
  let d := arrange (picker_dest_loop src_agent agents) in
  ret {| picker_src_agent := src_agent; dest := d;
         dest_cycle_keys := PyDict.keys d; dest_cycle_pos := 0%nat;
         src_router_count := None |}.

(** [BalancePicker.init]: the count returned and the picker as it is left.
    [totals] is filled in the order of [self.dest.keys()] and lists its keys
    in an order of its own, in which [min] looks through them. *)
Definition BalancePicker_init (p : Picker) : M W (nat * Picker) :=
  routers <- neutron_list_routers_on_l3_agent (agent_id (picker_src_agent p)) ;;
  let p := set_src_router_count (List.length routers) p in
  totals <- lift (balance_totals (dest p) (PyDict.keys (dest p)) []) ;;
  '(_, d) <- lift (balance_loop routers (arrange totals) (dest p)) ;;
  ret (List.length routers, set_dest d p).

(** [CyclePicker.init] *)
Definition CyclePicker_init (p : Picker) : M W (nat * Picker) :=
  routers <- neutron_list_routers_on_l3_agent (agent_id (picker_src_agent p)) ;;
  let p := set_src_router_count (List.length routers) p in
  p' <- lift (cycle_loop routers p) ;;
  ret (List.length routers, p').

End Pickers.





(** The routers queued for the agent [k]. *)
Definition queue_of (p : Picker) (k : string) : list Router :=
  match PyDict.get k (dest p) with
  | Some e => de_routers e
  | None => []
  end.

(* ------------------------------------------------------------------------- *)
(** ** A test double for the collaborators

    One router under migration: the control plane keeps the list of agents
    hosting it, fails the first [mock_remove_failures] detach requests with a
    [NeutronClientException], and every remote command is answered by
    [mock_exec]. *)

Record MockWorld : Type := mkMock {
  mock_agents : list Agent;
  mock_routers : list Router;
  mock_hosting : list Agent;
  mock_remove_failures : nat;
  mock_ports : list Port;
  mock_exec : string -> list string -> Z * string * string
}.

Definition mock_set_hosting (h : list Agent) (w : MockWorld) : MockWorld :=
  {| mock_agents := mock_agents w; mock_routers := mock_routers w;
     mock_hosting := h; mock_remove_failures := mock_remove_failures w;
     mock_ports := mock_ports w; mock_exec := mock_exec w |}.

Definition mock_set_failures (n : nat) (w : MockWorld) : MockWorld :=
  {| mock_agents := mock_agents w; mock_routers := mock_routers w;
     mock_hosting := mock_hosting w; mock_remove_failures := n;
     mock_ports := mock_ports w; mock_exec := mock_exec w |}.

#[export] Instance MockNeutron : NeutronClient MockWorld := {
  list_agents w := (Ret (mock_agents w), w);
  list_routers_on_l3_agent _ w := (Ret (mock_routers w), w);
  list_l3_agent_hosting_routers _ w := (Ret (mock_hosting w), w);
  remove_router_from_l3_agent _ _ w :=
    match mock_remove_failures w with
    | S n => (Raise (NeutronClientException "Request timed out"), mock_set_failures n w)
    | O => (Ret tt, mock_set_hosting [] w)
    end;
  add_router_to_l3_agent a _ w :=
    (Ret tt, mock_set_hosting [mkAgent a "" true true 0] w);
  list_ports _ _ w := (Ret (mock_ports w), w);
  list_floatingips _ w := (Ret [], w)
}.

#[export] Instance MockRunner : RemoteExec MockWorld := {
  remote_exec host cmd w := (mock_exec w host cmd, w)
}.

Definition mock_start (w : MockWorld) : St MockWorld := {| world := w; trace := [] |}.

(** Two dictionary orders for the runs: one lists the keys as they were
    inserted, the other in the reverse of that. *)
Definition insertion_order : DictOrder :=
  {| keys_order := fun l => l;
     keys_order_perm := @Permutation_refl string |}.

Definition reverse_order : DictOrder :=
  {| keys_order := @rev string;
     keys_order_perm := fun l => Permutation_sym (Permutation_rev l) |}.

(** A control plane whose detach request is cut short by an exception that
    is no [NeutronClientException] (the connection is reset, the operator
    interrupts the run); it takes no effect.  An attach adds the agent to
    those that host the router.  Everything else is as in the test double. *)
Record CrashWorld : Type := mkCrash { crash_inner : MockWorld }.

Definition crash_lift {A} (f : MockWorld -> A * MockWorld) (w : CrashWorld)
  : A * CrashWorld :=
  let (r, w') := f (crash_inner w) in (r, mkCrash w').

#[export] Instance CrashNeutron : NeutronClient CrashWorld := {
  list_agents := crash_lift list_agents;
  list_routers_on_l3_agent a := crash_lift (list_routers_on_l3_agent a);
  list_l3_agent_hosting_routers r := crash_lift (list_l3_agent_hosting_routers r);
  remove_router_from_l3_agent _ _ w :=
    (Raise (Exception "Connection reset by peer"), w);
  add_router_to_l3_agent a _ w :=
    (Ret tt,
     mkCrash (mock_set_hosting
                (mock_hosting (crash_inner w) ++ [mkAgent a "" true true 0])%list
                (crash_inner w)));
  list_ports r up := crash_lift (list_ports r up);
  list_floatingips r := crash_lift (list_floatingips r)
}.

#[export] Instance CrashRunner : RemoteExec CrashWorld := {
  remote_exec host cmd := crash_lift (remote_exec host cmd)
}.

Definition crash_start (w : MockWorld) : St CrashWorld :=
  {| world := mkCrash w; trace := [] |}.

(* ------------------------------------------------------------------------- *)
(** ** Vocabulary of the statements *)

(** How a detach attempt ends: the request is accepted and the poll sees
    the router gone; or the attempt asks for a retry (the request or the poll
    raises a [NeutronClientException], or the poll times out); or it is cut
    short by another exception. *)
Inductive attempt_result : Type :=
| AttemptSucceeded
| AttemptFailed
| AttemptAborted (e : exn).

Definition classify_attempt (r : outcome bool) : attempt_result :=
  match r with
  | Ret true => AttemptSucceeded
  | Ret false => AttemptFailed
  | Raise (NeutronClientException _) => AttemptFailed
  | Raise e => AttemptAborted e
  end.

Section Vocabulary.
Context {W : Type} {neutron : NeutronClient W} {runner : RemoteExec W}.
Variable cfg : Config.

(** [spec m Q P]: from every state, a value returned by [m] satisfies [Q],
    and [m] extends the trace by events that all satisfy [P]. *)
Definition spec {A} (m : M W A) (Q : A -> Prop) (P : event -> Prop) : Prop :=
  forall s,
    match fst (m s) with Ret a => Q a | Raise _ => True end
    /\ exists evs, trace (snd (m s)) = (trace s ++ evs)%list /\ Forall P evs.

(** What a namespace listing yields from the output of a successful [ls]. *)
Definition nics_of_output (output : string) : list string :=
  filter (fun one_nic => negb (String.eqb one_nic "lo")) (PyStr.split_nl output).

(** The state after a remote command. *)
Definition after_run (host : string) (cmd : list string) (s : St W) : St W :=
  {| world := snd (remote_exec host cmd (world s));
     trace := trace s ++ [EvRun host cmd] |}.

(** A command that deletes a port, a command that deletes a namespace. *)
Definition deletes_port (port_name : string) (e : event) : Prop :=
  exists host br_name timeout, e = EvRun host (_cmd_delete_ovs_port port_name br_name timeout).

Definition is_destructive (e : event) : Prop :=
  (exists port_name, deletes_port port_name e)
  \/ (exists host netns, e = EvRun host (_cmd_delete_netns netns)).

(** Events that neither attach nor detach a router. *)
Definition passive (e : event) : bool :=
  match e with
  | EvAddRouter _ _ | EvRemoveRouter _ _ => false
  | _ => true
  end.

(** The events a computation adds to the trace from a given state. *)
Definition emitted {A} (m : M W A) (s : St W) : list event :=
  skipn (List.length (trace s)) (trace (snd (m s))).

(** The state in which the [k]-th detach attempt starts (counting from 0),
    when every earlier attempt is followed by a retry. *)
Fixpoint remove_attempt_state (k : nat) (agent : Agent) (router : Router)
    (s : St W) : St W :=
  match k with
  | O => s
  | S k' => remove_attempt_state k' agent router
              (snd (_remove_router_try cfg agent router s))
  end.

(** The [k]-th detach attempt asks for a retry. *)
Definition remove_attempt_fails (k : nat) (agent : Agent) (router : Router)
    (s : St W) : bool :=
  match fst (_remove_router_try cfg agent router (remove_attempt_state k agent router s)) with
  | Ret need_retry => need_retry
  | Raise _ => false
  end.

(** The detach request followed by the poll, as in the [try] block. *)
Definition remove_request (agent : Agent) (router : Router) : M W bool :=
  neutron_remove_router_from_l3_agent (agent_id agent) (router_id router) ;;;
  _wait_until_default cfg (_check_api_removed agent router).

(** How the [k]-th detach attempt ends. *)
Definition remove_attempt_result (k : nat) (agent : Agent) (router : Router)
    (s : St W) : attempt_result :=
  classify_attempt
    (fst (remove_request agent router (remove_attempt_state k agent router s))).

(** The number of attach requests among some events. *)
Definition attach_requests (evs : list event) : nat :=
  List.length (filter is_attach evs).

(** A computation only ever appends to the trace. *)
Definition extends {A} (m : M W A) : Prop :=
  spec m (fun _ => True) (fun _ => True).




(** The routers that a round robin over [D] destinations, started at
    position [c], hands to destination [j]. *)
Fixpoint picks (D c j : nat) (routers : list Router) : list Router :=
  match routers with
  | [] => []
  | router :: routers' =>
      ((if Nat.eqb (Nat.modulo c D) j then [router] else [])
       ++ picks D (S c) j routers')%list
  end.

(** The routers whose position [k] in the listing has [k mod D = j], in the
    order of the listing. *)
Definition assigned_to (D j : nat) (routers : list Router) : list Router :=
  map snd (filter (fun kr => Nat.eqb (Nat.modulo (fst kr) D) j)
                  (combine (seq 0 (List.length routers)) routers)).

(** The same when the cycle has already advanced [c] steps: the routers
    whose position [k] in the listing has [(c + k) mod D = j]. *)
Definition assigned_from (D c j : nat) (routers : list Router) : list Router :=
  map snd (filter (fun kr => Nat.eqb (Nat.modulo (c + fst kr) D) j)
                  (combine (seq 0 (List.length routers)) routers)).

End Vocabulary.

(* ------------------------------------------------------------------------- *)
(** ** Concrete runs on the test double *)

Module Runs.

Definition a_src : Agent := mkAgent "src" "host-src" true true 3.
Definition a1 : Agent := mkAgent "a1" "host-1" true true 0.
Definition a2 : Agent := mkAgent "a2" "host-2" true true 10.
Definition r1 : Router := mkRouter "r1" [].
Definition r2 : Router := mkRouter "r2" [].
Definition r3 : Router := mkRouter "r3" [].
Definition port1 : Port := mkPort "0123456789abcdef" "network:router_interface".

Definition cfg1 : Config := config_of_kwargs (Some 1).
Definition cfg2 : Config := config_of_kwargs (Some 2).

(** Every remote command fails: the host cannot be reached. *)
Definition exec_unreachable (host : string) (cmd : list string) : Z * string * string :=
  (1, "", "ssh: connect to host failed").

(** The namespace does not exist. *)
Definition exec_no_netns (host : string) (cmd : list string) : Z * string * string :=
  (1, "", "Cannot open network namespace: No such file or directory").

(** The namespace holds the loopback interface only. *)
Definition exec_only_lo (host : string) (cmd : list string) : Z * string * string :=
  (0, "lo", "").

(** The router is attached to [a1], has one enabled port, and the host of
    [a1] cannot be reached. *)
Definition world_unreachable : MockWorld :=
  {| mock_agents := [a_src; a1]; mock_routers := [r1]; mock_hosting := [a1];
     mock_remove_failures := 0; mock_ports := [port1]; mock_exec := exec_unreachable |}.

(** No L3 agent besides the source, which hosts one router. *)
Definition world_no_dest : MockWorld :=
  {| mock_agents := [a_src]; mock_routers := [r1]; mock_hosting := [a_src];
     mock_remove_failures := 0; mock_ports := []; mock_exec := exec_no_netns |}.

(** Two destinations that report 0 and 10 routers. *)
Definition world_two_dest (routers : list Router) : MockWorld :=
  {| mock_agents := [a_src; a1; a2]; mock_routers := routers; mock_hosting := [a_src];
     mock_remove_failures := 0; mock_ports := []; mock_exec := exec_no_netns |}.

(** The first two detach requests raise, the third is accepted; the router
    has no enabled port. *)
Definition world_flaky : MockWorld :=
  {| mock_agents := [a_src; a1]; mock_routers := [r1]; mock_hosting := [a_src];
     mock_remove_failures := 2; mock_ports := []; mock_exec := exec_no_netns |}.

(** The control plane lists no agent for the router. *)
Definition world_unowned : MockWorld :=
  {| mock_agents := [a_src; a1]; mock_routers := [r1]; mock_hosting := [];
     mock_remove_failures := 0; mock_ports := [port1]; mock_exec := exec_no_netns |}.

Definition world_only_lo : MockWorld :=
  {| mock_agents := [a_src; a1]; mock_routers := [r1]; mock_hosting := [a1];
     mock_remove_failures := 0; mock_ports := [port1]; mock_exec := exec_only_lo |}.

End Runs.

(* ------------------------------------------------------------------------- *)
(** ** The target selectors: handing out the assignments *)

(** [routers.pop()]: the last element and the list without it. *)
Definition pop_last {A} (l : list A) : option (A * list A) :=
  match rev l with
  | [] => None
  | x :: r => Some (x, rev r)
  end.

Definition set_routers (routers : list Router) (e : DestEntry) : DestEntry :=
  {| de_agent := de_agent e; de_routers := routers |}.

(** [Picker.has_next_for_agent] *)
Definition has_next_for_agent (p : Picker) (agent : Agent) : outcome bool :=
  obind (getitem (agent_id agent) (dest p)) (fun e =>
  Ret (Nat.ltb 0 (List.length (de_routers e)))).

(** [Picker.get_next_for_agent]: [(None, None)] is [None]. *)
Definition get_next_for_agent (p : Picker) (agent : Agent)
  : outcome (option (Agent * Router) * Picker) :=
  obind (has_next_for_agent p agent) (fun has =>
  if has then
    obind (getitem (agent_id agent) (dest p)) (fun e =>
    match pop_last (de_routers e) with
    | Some (router, rest) =>
        Ret (Some (de_agent e, router),
             set_dest (PyDict.update (agent_id agent) (set_routers rest) (dest p)) p)
    | None => Raise (Exception "IndexError: pop from empty list")
    end)
  else Ret (None, p)).

(** The [while candidate > 0] loop of [Picker.get_next]. *)
Fixpoint get_next_loop (candidate : nat) (p : Picker)
  : outcome (option (Agent * Router) * Picker) :=
  match candidate with
  | O => Ret (None, p)
  | S candidate' =>
      obind (dest_cycle_next p) (fun '(agent_id, p1) =>
      obind (getitem agent_id (dest p1)) (fun e =>
      match pop_last (de_routers e) with
      | Some (router, rest) =>
          Ret (Some (de_agent e, router),
               set_dest (PyDict.update agent_id (set_routers rest) (dest p1)) p1)
      | None => get_next_loop candidate' p1
      end))
  end.

(** [Picker.get_next] *)
Definition get_next (p : Picker) : outcome (option (Agent * Router) * Picker) :=
  get_next_loop (List.length (dest p)) p.

(** [Picker.has_next] *)
Definition has_next (p : Picker) : bool :=
  existsb (fun ke => Nat.ltb 0 (List.length (de_routers (snd ke)))) (dest p).

(** All the routers that are queued, destination after destination. *)
Definition all_queued (p : Picker) : list Router :=
  flat_map (fun ke => de_routers (snd ke)) (dest p).

(** What [Picker.__init__] sets up and every operation keeps: the cycle runs
    over the keys of [dest], which are distinct, and every entry is stored
    under the id of its agent. *)
Definition picker_wf (p : Picker) : Prop :=
  dest_cycle_keys p = PyDict.keys (dest p)
  /\ NoDup (PyDict.keys (dest p))
  /\ (dest p = [] \/ (dest_cycle_pos p < List.length (PyDict.keys (dest p)))%nat)
  /\ forall k e, PyDict.get k (dest p) = Some e -> agent_id (de_agent e) = k.

(** An agent that [Picker.__init__] takes as a destination. *)
Definition eligible (src_agent agent : Agent) : bool :=
  agent_alive agent && agent_admin_state_up agent
  && negb (String.eqb (agent_id agent) (agent_id src_agent)).

(** Every destination is an agent that is alive, enabled and not the source. *)
Definition dest_eligible (src_agent : Agent) (d : PyDict.dict DestEntry) : Prop :=
  forall k e, PyDict.get k d = Some e ->
    agent_alive (de_agent e) = true
    /\ agent_admin_state_up (de_agent e) = true
    /\ agent_id (de_agent e) <> agent_id src_agent.

(** The agents stored in two dictionaries are the same. *)
Definition same_agents (d d' : PyDict.dict DestEntry) : Prop :=
  forall k, option_map de_agent (PyDict.get k d') = option_map de_agent (PyDict.get k d).

(** The assignments that repeated [get_next] hands out while [has_next]
    holds, and the picker that is left. *)
Fixpoint drain_loop (fuel : nat) (p : Picker)
  : outcome (list (Agent * Router) * Picker) :=
  match fuel with
  | O => Ret ([], p)
  | S fuel' =>
      if has_next p then
        obind (get_next p) (fun '(next, p1) =>
        match next with
        | Some assignment =>
            obind (drain_loop fuel' p1) (fun '(l, p2) => Ret (assignment :: l, p2))
        | None => Ret ([], p1)
        end)
      else Ret ([], p)
  end.

Definition drain (p : Picker) : outcome (list (Agent * Router) * Picker) :=
  drain_loop (S (List.length (all_queued p))) p.

Section Evacuation.
Context {W : Type} {neutron : NeutronClient W} {runner : RemoteExec W}.
Variable cfg : Config.
Variable self_src_agent : Agent.

(** The [while self.picker.has_next()] loop of [SequenceEvacuator.evacuate].
    Every turn takes a router out of a queue, so the number of queued
    routers bounds the turns; [(None, None)] from [get_next] makes
    [migrate_router] fail on [router['id']] with a [TypeError], which no
    handler of the program tells apart from [Exception]. *)
Fixpoint evacuate_loop (fuel : nat) (p : Picker) : M W Picker :=
  match fuel with
  | O => ret p
  | S fuel' =>
      if has_next p then
        '(next, p1) <- lift (get_next p) ;;
        match next with
        | Some (agent, router) =>
            migrate_router cfg self_src_agent agent router None ;;;
            evacuate_loop fuel' p1
        | None =>
            raise (Exception "TypeError: 'NoneType' object has no attribute '__getitem__'")
        end
      else ret p
  end.

Definition evacuate (p : Picker) : M W Picker :=
  evacuate_loop (S (List.length (all_queued p))) p.


End Evacuation.

(* ------------------------------------------------------------------------- *)
(** ** Vocabulary for polling and for counting requests *)

Section PollingVocabulary.
Context {W : Type}.

(** The poll number [n] (from 0) is the first that returns true; the
    earlier ones return false. *)
Fixpoint first_success (func : M W bool) (n : nat) (s : St W) : Prop :=
  match n with
  | O => fst (func s) = Ret true
  | S n' => fst (func s) = Ret false /\ first_success func n' (snd (func s))
  end.

(** The state after [n] polls. *)
Fixpoint after_polls (func : M W bool) (n : nat) (s : St W) : St W :=
  match n with
  | O => s
  | S n' => after_polls func n' (snd (func s))
  end.

(** The number of events of a kind among some events. *)
Definition count_events (kind : event -> bool) (evs : list event) : nat :=
  List.length (filter kind evs).

End PollingVocabulary.

Definition is_detach (e : event) : bool :=
  match e with EvRemoveRouter _ _ => true | _ => false end.

(* ------------------------------------------------------------------------- *)
(** ** Vocabulary for the host verifier *)

(** The bridge through which [_clean_nics_on_host] deletes an interface. *)
Definition bridge_of (one_nic : string) : string :=
  if PyStr.contains "qg-" one_nic then "br-router"
  else if PyStr.contains "qr-" one_nic then "br-int"
  else "".

(** The interface that [_verify_ports_on_host] expects for a port: none for
    a port that is neither a router interface nor a router gateway. *)
Definition expected_nic (one_port : Port) : option string :=
  if String.eqb (port_device_owner one_port) "network:router_interface" then
    Some ("qr-" ++ PyStr.slice0 11 (port_id one_port))
  else if String.eqb (port_device_owner one_port) "network:router_gateway" then
    Some ("qg-" ++ PyStr.slice0 11 (port_id one_port))
  else None.

Definition port_present (result : list string) (one_port : Port) : bool :=
  match expected_nic one_port with
  | Some nic => existsb (String.eqb nic) result
  | None => true
  end.

(** The commands of a forced cleanup of [nics]. *)
Definition delete_commands (host : string) (nics : list string) : list event :=
  map (fun one_nic => EvRun host (_cmd_delete_ovs_port one_nic (bridge_of one_nic) 10)) nics.

(** The commands that only read from the namespace of a router. *)
Definition is_read_command (netns : string) (cmd : list string) : Prop :=
  cmd = _cmd_grep_snat_rule_in_netns netns "neutron-l3-agent-snat"
  \/ cmd = _cmd_list_nic_in_netns netns
  \/ cmd = _cmd_show_ipforward_in_netns netns.

(** What the verification of [router] on the host of [agent] may do: read
    from the namespace on that host, and query the ports and floating IPs of
    the router. *)
Definition verification_event (agent : Agent) (router : Router) (e : event) : Prop :=
  match e with
  | EvRun host cmd =>
      host = agent_host agent /\ is_read_command (namespace_of router) cmd
  | EvListPorts r _ => r = router_id router
  | EvListFloatingips r => r = router_id router
  | _ => False
  end.

(** The remote commands of a migration of [router] off [src]: reads from the
    namespace of the router on any host, and on the host of [src] the
    deletion of ports and of the namespace. *)
Definition migration_command (src : Agent) (router : Router) (e : event) : Prop :=
  match e with
  | EvRun host cmd =>
      is_read_command (namespace_of router) cmd
      \/ (host = agent_host src
          /\ (cmd = _cmd_delete_netns (namespace_of router)
              \/ exists one_nic br_name, cmd = _cmd_delete_ovs_port one_nic br_name 10))
  | _ => True
  end.

(* ------------------------------------------------------------------------- *)
(** ** Vocabulary for the attach attempts *)

Section AttachVocabulary.
Context {W : Type} {neutron : NeutronClient W}.
Variable cfg : Config.

(** The state in which the [k]-th attach attempt starts (counting from 0),
    when every earlier attempt is followed by a retry. *)
Fixpoint add_attempt_state (k : nat) (agent : Agent) (router : Router)
    (s : St W) : St W :=
  match k with
  | O => s
  | S k' => add_attempt_state k' agent router
              (snd (_add_router_try cfg agent router s))
  end.

(** The [k]-th attach attempt asks for a retry. *)
Definition add_attempt_fails (k : nat) (agent : Agent) (router : Router)
    (s : St W) : bool :=
  match fst (_add_router_try cfg agent router (add_attempt_state k agent router s)) with
  | Ret need_retry => need_retry
  | Raise _ => false
  end.

(** The attach request followed by the poll, as in the [try] block. *)
Definition add_request (agent : Agent) (router : Router) : M W bool :=
  neutron_add_router_to_l3_agent (agent_id agent) (router_id router) ;;;
  _wait_until_default cfg (_check_api_added agent router).

End AttachVocabulary.

(** The requests that [migrate_router] may send for [router]: it is removed
    from [src] only, and added to [target] or back to [src] only. *)
Definition migration_request (src target : Agent) (router : Router) (e : event) : Prop :=
  match e with
  | EvRemoveRouter a r => a = agent_id src /\ r = router_id router
  | EvAddRouter a r =>
      (a = agent_id target \/ a = agent_id src) /\ r = router_id router
  | _ => True
  end.

(* ------------------------------------------------------------------------- *)
(** ** Setting up the evacuator: which agent is the source

    [_get_agent_id] lists the L3 agents without the filters of the picker;
    the call is a collaborator operation of its own. *)

Class AgentDirectory (W : Type) : Type := {
  list_l3_agents : W -> outcome (list Agent) * W
}.

(** Truth value of a keyword argument or of an id: [None] and the empty
    string are false. *)
Definition truthy (o : option string) : bool :=
  match o with
  | Some v => negb (String.eqb v "")
  | None => false
  end.

(** The [for one_agent in agents] loop of [_get_agent_id]. *)
Fixpoint find_agent_id (agents : list Agent) (hostname_or_id : string) : option string :=
  match agents with
  | [] => None
  | one_agent :: agents' =>
      if String.eqb (agent_id one_agent) hostname_or_id
         || String.eqb (agent_host one_agent) hostname_or_id
      then Some (agent_id one_agent)
      else find_agent_id agents' hostname_or_id
  end.

(** An agent that the loop of [_get_agent_id] stops at. *)
Definition names_agent (hostname_or_id : string) (one_agent : Agent) : Prop :=
  agent_id one_agent = hostname_or_id \/ agent_host one_agent = hostname_or_id.

Section SourceAgent.
Context {W : Type} {directory : AgentDirectory W}.

Definition neutron_list_l3_agents : M W (list Agent) :=
  call EvListAgents list_l3_agents.

Definition _get_agent_id (hostname_or_id : string) : M W (option string) :=
  agents <- neutron_list_l3_agents ;;
  ret (find_agent_id agents hostname_or_id).

(** The part of [L3AgentEvacuator.__init__] that settles the id of the
    source agent from the keyword arguments [agent] and [target]; the outer
    [option] tells whether the keyword is given at all. *)
Definition resolve_agent_id (kw_agent kw_target : option (option string)) : M W string :=
  match kw_agent, kw_target with
  | None, None => raise (Exception "Missing target hostname or agent id")
  | _, _ =>
      target_agent_id_1 <-
        match kw_agent with
        | Some (Some agent) =>
            if truthy (Some agent) then _get_agent_id agent else ret None
        | _ => ret None
        end ;;
      target_agent_id_2 <-
        match kw_target with
        | Some (Some target) =>
            if truthy (Some target) then _get_agent_id target else ret None
        | _ => ret None
        end ;;
      if truthy target_agent_id_1 && truthy target_agent_id_2 then
        match target_agent_id_1, target_agent_id_2 with
        | Some id1, Some id2 =>
            if String.eqb id1 id2 then ret id1
            else raise (Exception "target hostname not match agent id")
        | _, _ => raise (Exception "Invalid target hostname or agent id")
        end
      else if truthy target_agent_id_1 then
        match target_agent_id_1 with
        | Some id1 => ret id1
        | None => raise (Exception "Invalid target hostname or agent id")
        end
      else if truthy target_agent_id_2 then
        match target_agent_id_2 with
        | Some id2 => ret id2
        | None => raise (Exception "Invalid target hostname or agent id")
        end
      else raise (Exception "Invalid target hostname or agent id")
  end.

End SourceAgent.

(* ------------------------------------------------------------------------- *)
(** ** Stopping the agent and the run as a whole

    [AnsibleRemoteRunner.service_exec] asks Ansible for a service state; the
    answer of Ansible sorts the hosts into those it contacted and those it
    could not reach.  A service action is no shell command and is threaded
    through the world without an entry in the trace. *)

(** The answer of the service module for one host; a failed module reports
    neither ['state'] nor ['changed']. *)
Record ServiceResult : Type := mkServiceResult {
  sv_state : option string;
  sv_changed : option bool
}.

Record ServiceResults : Type := mkServiceResults {
  contacted : PyDict.dict ServiceResult;
  dark : PyDict.dict string
}.

Class AnsibleService (W : Type) : Type := {
  ansible_service : string -> string -> string -> W -> outcome ServiceResults * W
}.

(** What [service_exec] returns: the pair of its first [return], or the
    triple of its second. *)
Inductive service_reply : Type :=
| ReplyPair (state : string) (changed : bool)
| ReplyTriple (rc : Z) (stdout : option string) (failure : string).

(** What is printed of a run: the count and the agent (the elapsed time is
    left out). *)
Record Summary : Type := mkSummary {
  sum_evacuated : nat;
  sum_agent_id : string;
  sum_host : string
}.

Section StopAndRun.
Context {W : Type} {neutron : NeutronClient W} {runner : RemoteExec W}
        {ansible : AnsibleService W}.

Definition untraced {A} (f : W -> A * W) : St W -> A * St W :=
  fun s => let (a, w') := f (world s) in
           (a, {| world := w'; trace := trace s |}).

(** [AnsibleRemoteRunner.service_exec] *)
Definition AnsibleRemoteRunner_service_exec (host service action : string)
  : M W service_reply :=
  results <- untraced (ansible_service host service action) ;;
  match PyDict.get host (contacted results) with
  | Some r =>
      match sv_state r with
      | None => raise (KeyError "state")
      | Some state =>
          match sv_changed r with
          | None => raise (KeyError "changed")
          | Some changed => ret (ReplyPair state changed)
          end
      end
  | None =>
      match PyDict.get host (dark results) with
      | Some failure => ret (ReplyTriple 1 None failure)
      | None => raise (KeyError host)
      end
  end.

(** [getattr(self.remote_runner, "service_exec", None)]: the runner may
    lack the operation. *)
Variable service_exec : option (string -> string -> string -> M W service_reply).

(** [_stop_agent]: [state, _ = ...] takes a pair; the outcome of the stop is
    logged only. *)
Definition _stop_agent (host : string) : M W unit :=
  match service_exec with
  | Some service_exec =>
      reply <- service_exec host "neutron-l3-agent" "stopped" ;;
      match reply with
      | ReplyPair state _ => ret tt
      | ReplyTriple _ _ _ => raise (ValueError "too many values to unpack")
      end
  | None =>
      run host ["service"; "neutron-l3-agent"; "stop"] ;;; ret tt
  end.

Variable cfg : Config.
Variable self_src_agent : Agent.
Variable stop_agent_after_evacuate : bool.
(** [self.picker.init], of the class of the picker. *)
Variable picker_init : Picker -> M W (nat * Picker).

(** [L3AgentEvacuator.run]; [fuel] bounds the passes, and [None] tells that
    they are used up.  The summary of an inner pass is dropped by the
    source. *)
Fixpoint run_passes (fuel : nat) (p : Picker) : M W (option (Summary * Picker)) :=
  match fuel with
  | O => ret None
  | S fuel' =>
      '(count, p1) <- picker_init p ;;
      p2 <- evacuate cfg self_src_agent p1 ;;
      after <-
        (if stop_agent_after_evacuate then
           left_routers <- neutron_list_routers_on_l3_agent (agent_id self_src_agent) ;;
           if Nat.eqb (List.length left_routers) 0 then
             _stop_agent (agent_host self_src_agent) ;;; ret (Some p2)
           else
             inner <- run_passes fuel' p2 ;;
             ret (option_map snd inner)
         else
           left_routers <- neutron_list_routers_on_l3_agent (agent_id self_src_agent) ;;
           ret (Some p2)) ;;
      match after with
      | None => ret None
      | Some p3 =>
          match src_router_count p3 with
          | Some evacuated =>
              ret (Some ({| sum_evacuated := evacuated;
                            sum_agent_id := agent_id self_src_agent;
                            sum_host := agent_host self_src_agent |}, p3))
          | None => raise (Exception "TypeError: %d format: a number is required")
          end
      end
  end.

End StopAndRun.

(** The total of the destination at position [j] after [n] routers, when
    every destination started with [c]. *)
Definition even_total (c : Z) (D n j : nat) : Z :=
  c + Z.of_nat (Nat.div n D) + (if Nat.ltb j (Nat.modulo n D) then 1 else 0).

(* ------------------------------------------------------------------------- *)
(** ** The test double, for the operations above *)

#[export] Instance MockDirectory : AgentDirectory MockWorld := {
  list_l3_agents w := (Ret (mock_agents w), w)
}.

(** Ansible reaches a host exactly when the remote command of the test
    double succeeds there. *)
#[export] Instance MockAnsible : AnsibleService MockWorld := {
  ansible_service host service action w :=
    let '(rc, _, failure) := mock_exec w host ["service"; service; action] in
    if rc =? 0 then
      (Ret {| contacted := [(host, {| sv_state := Some action; sv_changed := Some true |})];
              dark := [] |}, w)
    else
      (Ret {| contacted := []; dark := [(host, failure)] |}, w)
}.

Module MoreRuns.

(** The detach of the router is refused again and again. *)
Definition world_stuck : MockWorld :=
  {| mock_agents := [Runs.a_src; Runs.a1]; mock_routers := [Runs.r1];
     mock_hosting := [Runs.a_src]; mock_remove_failures := 10;
     mock_ports := []; mock_exec := Runs.exec_no_netns |}.

(** A second agent on the host whose name is the id of the first. *)
Definition a_twin : Agent := mkAgent "a9" "a1" true true 0.

Definition world_ambiguous : MockWorld :=
  {| mock_agents := [Runs.a_src; Runs.a1; a_twin]; mock_routers := [];
     mock_hosting := []; mock_remove_failures := 0;
     mock_ports := []; mock_exec := Runs.exec_no_netns |}.

(** The namespace holds a router interface, a gateway interface and the
    loopback interface; every command succeeds with that output. *)
Definition exec_two_nics (host : string) (cmd : list string) : Z * string * string :=
  (0, String.concat (String PyStr.nl EmptyString) ["qr-0123456789a"; "qg-fedcba98765"; "lo"], "").

Definition world_two_nics : MockWorld :=
  {| mock_agents := [Runs.a_src; Runs.a1]; mock_routers := [Runs.r1];
     mock_hosting := [Runs.a1]; mock_remove_failures := 0;
     mock_ports := [Runs.port1]; mock_exec := exec_two_nics |}.

(** Two destinations that report the same number of routers. *)
Definition a3 : Agent := mkAgent "a3" "host-3" true true 0.



Definition world_even (routers : list Router) : MockWorld :=
  {| mock_agents := [Runs.a_src; Runs.a1; a3]; mock_routers := routers;
     mock_hosting := [Runs.a_src]; mock_remove_failures := 0;
     mock_ports := []; mock_exec := Runs.exec_no_netns |}.

(** The namespace is set up: the listing shows the interfaces and
    [ip_forward] reads 1. *)
Definition exec_router_up (host : string) (cmd : list string) : Z * string * string :=
  if existsb (String.eqb "cat") cmd then (0, "1", "") else exec_two_nics host cmd.

Definition world_router_up : MockWorld :=
  {| mock_agents := [Runs.a_src; Runs.a1]; mock_routers := [Runs.r1];
     mock_hosting := [Runs.a1]; mock_remove_failures := 0;
     mock_ports := [Runs.port1]; mock_exec := exec_router_up |}.

(** The picker that [Picker.__init__] builds for the source [a_src] when
    [dest] lists the destinations in the order [agents]. *)
Definition fresh_picker (agents : list Agent) : Picker :=
  {| picker_src_agent := Runs.a_src;
     dest := map (fun a => (agent_id a, {| de_agent := a; de_routers := [] |})) agents;
     dest_cycle_keys := map agent_id agents;
     dest_cycle_pos := 0%nat;
     src_router_count := None |}.

(** A picker after [CyclePicker.init] with three routers and two
    destinations. *)
Definition p_queued : Picker :=
  {| picker_src_agent := Runs.a_src;
     dest := [("a1", {| de_agent := Runs.a1; de_routers := [Runs.r1; Runs.r3] |});
              ("a2", {| de_agent := Runs.a2; de_routers := [Runs.r2] |})];
     dest_cycle_keys := ["a1"; "a2"];
     dest_cycle_pos := 1%nat;
     src_router_count := Some 3%nat |}.

End MoreRuns.

(* ------------------------------------------------------------------------- *)
(** ** Reasoning about computations: result and emitted events *)

Section Specs.
Context {W : Type}.

Lemma spec_ret {A} (a : A) (Q : A -> Prop) P : Q a -> spec (W := W) (ret a) Q P.
Proof.
  intros HQ s; simpl; split; [exact HQ|].
  exists []; rewrite app_nil_r; auto.
Qed.

Lemma spec_raise {A} e (Q : A -> Prop) P : spec (W := W) (raise e) Q P.
Proof.
  intros s; simpl; split; [exact I|].
  exists []; rewrite app_nil_r; auto.
Qed.

Lemma spec_bind {A B} (m : M W A) (f : A -> M W B) Q R P :
  spec m Q P -> (forall a, Q a -> spec (f a) R P) -> spec (bind m f) R P.
Proof.
  intros Hm Hf s. unfold bind.
  destruct (Hm s) as [Hq (evs & Ht & Hall)].
  destruct (m s) as [[a|e] s1]; simpl in *.
  - destruct (Hf a Hq s1) as [Hr (evs' & Ht' & Hall')].
    split; [exact Hr|].
    exists (evs ++ evs')%list. rewrite Ht', Ht, app_assoc.
    split; [reflexivity | apply Forall_app; auto].
  - split; [exact I|]. exists evs; auto.
Qed.

Lemma spec_try_except {A} (m : M W A) (h : exn -> M W A) Q P :
  spec m Q P -> (forall e, spec (h e) Q P) -> spec (try_except m h) Q P.
Proof.
  intros Hm Hh s. unfold try_except.
  destruct (Hm s) as [Hq (evs & Ht & Hall)].
  destruct (m s) as [[a|e] s1]; simpl in *.
  - split; [exact Hq|]. exists evs; auto.
  - destruct (Hh e s1) as [Hr (evs' & Ht' & Hall')].
    split; [exact Hr|].
    exists (evs ++ evs')%list. rewrite Ht', Ht, app_assoc.
    split; [reflexivity | apply Forall_app; auto].
Qed.

Lemma spec_weaken {A} (m : M W A) (Q Q' : A -> Prop) (P P' : event -> Prop) :
  spec m Q P -> (forall a, Q a -> Q' a) -> (forall e, P e -> P' e) -> spec m Q' P'.
Proof.
  intros Hm HQ HP s. destruct (Hm s) as [Hq (evs & Ht & Hall)].
  split.
  - destruct (fst (m s)); auto.
  - exists evs; split; [exact Ht|]. eapply Forall_impl; eauto.
Qed.

Lemma spec_call {A} ev (f : W -> outcome A * W) P :
  P ev -> spec (call ev f) (fun _ => True) P.
Proof.
  intros Hev s. unfold call. destruct (f (world s)) as [r w']; simpl.
  split; [destruct r; exact I|].
  exists [ev]; auto.
Qed.

End Specs.

Create HintDb spec.
#[local] Hint Resolve spec_ret spec_raise : spec.

(* ------------------------------------------------------------------------- *)
(** ** Python strings: what [contains] and [split_nl] compute *)

Lemma prefix_app (pat s : string) :
  String.prefix pat s = true <-> exists b, s = pat ++ b.
Proof.
  revert s; induction pat as [|c pat IH]; intros s.
  - split; [intros _; exists s; reflexivity | intros _; destruct s; reflexivity].
  - destruct s as [|c' s]; simpl.
    + split; [discriminate | intros [b Hb]; discriminate].
    + destruct (Ascii.ascii_dec c c') as [->|Hne].
      * rewrite IH. split; intros [b Hb]; exists b; congruence.
      * split; [discriminate | intros [b Hb]; congruence].
Qed.

Lemma contains_occurs (pat s : string) :
  PyStr.contains pat s = true <-> exists a b, s = a ++ pat ++ b.
Proof.
  induction s as [|c s IH].
  - change (PyStr.contains pat "") with (String.prefix pat "" || false).
    rewrite orb_false_r, prefix_app. split.
    + intros [b Hb]. exists "", b. exact Hb.
    + intros (a & b & Hab). destruct a; simpl in Hab.
      * exists b; exact Hab.
      * discriminate.
  - change (PyStr.contains pat (String c s))
      with (String.prefix pat (String c s) || PyStr.contains pat s).
    rewrite orb_true_iff, prefix_app, IH. split.
    + intros [[b Hb] | (a & b & Hab)].
      * exists "", b. exact Hb.
      * exists (String c a), b. simpl. congruence.
    + intros (a & b & Hab). destruct a as [|c' a]; simpl in Hab.
      * left. exists b; exact Hab.
      * right. exists a, b. congruence.
Qed.

Lemma split_nl_nonempty (s : string) : PyStr.split_nl s <> [].
Proof.
  induction s as [|c s IH]; simpl; [discriminate|].
  destruct (Ascii.eqb c PyStr.nl); [discriminate|].
  destruct (PyStr.split_nl s); discriminate.
Qed.

(* ------------------------------------------------------------------------- *)
(** ** The host verifier *)

Section HostVerifier.
Context {W : Type} {neutron : NeutronClient W} {runner : RemoteExec W}.

Lemma run_eq (host : string) (cmd : list string) (s : St W) :
  run host cmd s =
    (let '(rc, stdout, stderr) := fst (remote_exec host cmd (world s)) in
     if rc =? 0 then Ret (true, stdout) else Ret (false, stderr),
     after_run host cmd s).
Proof.
  unfold run, call, after_run.
  destruct (remote_exec host cmd (world s)) as [[[rc out] err] w']; simpl.
  destruct (rc =? 0); reflexivity.
Qed.

Lemma spec_run (host : string) (cmd : list string) (P : event -> Prop) :
  P (EvRun host cmd) -> spec (run host cmd) (fun _ => True) P.
Proof.
  intros HP s. rewrite run_eq; simpl. split.
  - destruct (fst (remote_exec host cmd (world s))) as [[rc out] err].
    destruct (rc =? 0); exact I.
  - exists [EvRun host cmd]; auto.
Qed.

Lemma list_nics_eq (host netns : string) (s : St W) :
  _list_nics_in_netns_on_remote host netns s =
    (let '(rc, stdout, stderr) :=
       fst (remote_exec host (_cmd_list_nic_in_netns netns) (world s)) in
     if rc =? 0 then Ret (nics_of_output stdout)
     else if PyStr.contains "Cannot open network namespace" stderr then Ret []
     else Raise (Exception ("Failed list nics in namespace " ++ netns
                            ++ " on host [" ++ host ++ "]")),
     after_run host (_cmd_list_nic_in_netns netns) s).
Proof.
  unfold _list_nics_in_netns_on_remote, bind. rewrite run_eq.
  destruct (fst (remote_exec host (_cmd_list_nic_in_netns netns) (world s)))
    as [[rc out] err].
  destruct (rc =? 0); [reflexivity|].
  destruct (PyStr.contains "Cannot open network namespace" err); reflexivity.
Qed.

Lemma nics_of_output_no_lo (output : string) : ~ In "lo" (nics_of_output output).
Proof.
  unfold nics_of_output. rewrite filter_In. intros [_ H].
  rewrite String.eqb_refl in H. discriminate.
Qed.

Lemma list_cmd_not_destructive (host netns : string) :
  ~ is_destructive (EvRun host (_cmd_list_nic_in_netns netns)).
Proof.
  intros [(p & h & br & t & H) | (h & ns & H)]; discriminate.
Qed.

Lemma spec_list_nics (host netns : string) (P : event -> Prop) :
  P (EvRun host (_cmd_list_nic_in_netns netns)) ->
  spec (_list_nics_in_netns_on_remote host netns) (fun nics => ~ In "lo" nics) P.
Proof.
  intros HP s. rewrite list_nics_eq; simpl. split.
  - destruct (fst (remote_exec host (_cmd_list_nic_in_netns netns) (world s)))
      as [[rc out] err].
    destruct (rc =? 0); [apply nics_of_output_no_lo|].
    destruct (PyStr.contains _ err); simpl; auto.
  - exists [EvRun host (_cmd_list_nic_in_netns netns)]; auto.
Qed.

Lemma spec_clean_nics (host : string) (nics : list string) (P : event -> Prop) :
  (forall nic br, In nic nics -> P (EvRun host (_cmd_delete_ovs_port nic br 10))) ->
  spec (_clean_nics_on_host host nics) (fun _ => True) P.
Proof.
  induction nics as [|nic nics IH]; intros HP; simpl.
  - apply spec_ret; exact I.
  - eapply spec_bind with (Q := fun _ => True).
    + destruct (PyStr.contains "qg-" nic); [|destruct (PyStr.contains "qr-" nic)];
        apply spec_run; apply HP; left; reflexivity.
    + intros _ _. apply IH. intros n br Hin. apply HP. right; exact Hin.
Qed.

Lemma run_returns (host : string) (cmd : list string) (s : St W) :
  exists v, run host cmd s = (Ret v, after_run host cmd s).
Proof.
  rewrite run_eq.
  destruct (fst (remote_exec host cmd (world s))) as [[rc out] err].
  destruct (rc =? 0); eauto.
Qed.

Lemma clean_nics_returns (host : string) (nics : list string) (s : St W) :
  exists s', _clean_nics_on_host host nics s = (Ret tt, s').
Proof.
  revert s; induction nics as [|nic nics IH]; intros s; simpl.
  - eexists; reflexivity.
  - unfold bind.
    destruct (PyStr.contains "qg-" nic); [|destruct (PyStr.contains "qr-" nic)];
      match goal with |- context [run host ?c s] =>
        destruct (run_returns host c s) as [v ->] end; apply IH.
Qed.

End HostVerifier.

Section HostVerifierResults.
Context {W : Type} {neutron : NeutronClient W} {runner : RemoteExec W}.

(** C8. The interface listing returns the interfaces on remote success; on
    remote failure it returns the empty list exactly when the error output
    contains "Cannot open network namespace", and raises otherwise. *)
Theorem list_nics_outcomes (host netns : string) (s : St W)
    (rc : Z) (stdout stderr : string) :
  fst (remote_exec host (_cmd_list_nic_in_netns netns) (world s)) = (rc, stdout, stderr) ->
  let r := fst (_list_nics_in_netns_on_remote host netns s) in
  (rc = 0 -> r = Ret (nics_of_output stdout))
  /\ (rc <> 0 ->
      (r = Ret [] <-> PyStr.contains "Cannot open network namespace" stderr = true))
  /\ (rc <> 0 -> PyStr.contains "Cannot open network namespace" stderr = false ->
      exists msg, r = Raise (Exception msg)).
Proof.
  intros Hexec r. subst r. rewrite list_nics_eq, Hexec. simpl.
  repeat split.
  - intros ->. reflexivity.
  - intros Hr. apply Z.eqb_neq in H. rewrite H in Hr.
    destruct (PyStr.contains _ stderr); [reflexivity | discriminate].
  - intros Hc. apply Z.eqb_neq in H. rewrite H, Hc. reflexivity.
  - intros Hne Hc. apply Z.eqb_neq in Hne. rewrite Hne, Hc. eauto.
Qed.

(** C9. The source cleanup returns true whenever the namespace listing
    succeeds; on an empty interface list it issues the listing command only,
    so two calls in succession on an empty namespace return true twice and
    issue no delete-port and no delete-namespace command. *)
Theorem ensure_clean_idempotent (agent : Agent) (router : Router) (s : St W) :
  let host := agent_host agent in
  let netns := namespace_of router in
  let listing := EvRun host (_cmd_list_nic_in_netns netns) in
  (forall nics s1,
      _list_nics_in_netns_on_remote host netns s = (Ret nics, s1) ->
      fst (_ensure_clean_router_on_host agent router s) = Ret true)
  /\ (forall s1,
      _list_nics_in_netns_on_remote host netns s = (Ret [], s1) ->
      _ensure_clean_router_on_host agent router s = (Ret true, s1)
      /\ trace s1 = (trace s ++ [listing])%list)
  /\ (forall s1 s2,
      _list_nics_in_netns_on_remote host netns s = (Ret [], s1) ->
      _list_nics_in_netns_on_remote host netns s1 = (Ret [], s2) ->
      (first <- _ensure_clean_router_on_host agent router ;;
       second <- _ensure_clean_router_on_host agent router ;;
       ret (first, second)) s = (Ret (true, true), s2)
      /\ trace s2 = (trace s ++ [listing; listing])%list
      /\ Forall (fun e => ~ is_destructive e) [listing; listing]).
Proof.
  intros host netns listing.
  assert (Hempty : forall s0 s1,
             _list_nics_in_netns_on_remote host netns s0 = (Ret [], s1) ->
             _ensure_clean_router_on_host agent router s0 = (Ret true, s1)
             /\ trace s1 = (trace s0 ++ [listing])%list).
  { intros s0 s1 H. split.
    - unfold _ensure_clean_router_on_host, bind. fold host netns. rewrite H. reflexivity.
    - rewrite list_nics_eq in H. injection H as _ <-. reflexivity. }
  split; [|split].
  - intros nics s1 H.
    unfold _ensure_clean_router_on_host, bind. fold host netns. rewrite H.
    destruct (Nat.eqb (List.length nics) 0); [reflexivity|].
    destruct (clean_nics_returns host nics s1) as [s2 ->].
    unfold _clean_netns_on_host, bind.
    destruct (run_returns host (_cmd_delete_netns netns) s2) as [v ->].
    reflexivity.
  - intros s1 Hl. apply Hempty; assumption.
  - intros s1 s2 Hl1 Hl2.
    destruct (Hempty _ _ Hl1) as [E1 H1]. destruct (Hempty _ _ Hl2) as [E2 H2].
    split; [|split].
    + unfold bind. rewrite E1, E2. reflexivity.
    + rewrite H2, H1, <- app_assoc. reflexivity.
    + repeat constructor; apply list_cmd_not_destructive.
Qed.

(** C10. The listing never returns "lo"; a namespace that holds only the
    loopback interface counts as clean; and the cleanup never issues a
    delete-port command for "lo". *)
Theorem loopback_never_cleaned (agent : Agent) (router : Router) (s : St W) :
  let host := agent_host agent in
  let netns := namespace_of router in
  (forall h ns s0 nics s1,
      _list_nics_in_netns_on_remote h ns s0 = (Ret nics, s1) -> ~ In "lo" nics)
  /\ (forall stderr,
      fst (remote_exec host (_cmd_list_nic_in_netns netns) (world s)) = (0, "lo", stderr) ->
      _ensure_clean_router_on_host agent router s
      = (Ret true, after_run host (_cmd_list_nic_in_netns netns) s))
  /\ (exists evs,
      trace (snd (_ensure_clean_router_on_host agent router s)) = (trace s ++ evs)%list
      /\ Forall (fun e => ~ deletes_port "lo" e) evs).
Proof.
  intros host netns. repeat split.
  - intros h ns s0 nics s1 H. rewrite list_nics_eq in H.
    destruct (fst (remote_exec _ _ _)) as [[rc out] err].
    injection H as H _.
    destruct (rc =? 0).
    + injection H as <-. apply nics_of_output_no_lo.
    + destruct (PyStr.contains _ err); [injection H as <-; auto | discriminate].
  - intros stderr H.
    unfold _ensure_clean_router_on_host, bind. fold host netns.
    rewrite list_nics_eq, H. reflexivity.
  - assert (Hs : spec (_ensure_clean_router_on_host agent router)
                      (fun _ => True) (fun e => ~ deletes_port "lo" e)).
    { unfold _ensure_clean_router_on_host. fold host netns.
      eapply spec_bind.
      - apply spec_list_nics. intros (h & br & t & H). discriminate.
      - intros nics Hlo. simpl in Hlo.
        destruct (Nat.eqb (List.length nics) 0); [apply spec_ret; exact I|].
        eapply spec_bind with (Q := fun _ => True).
        + apply spec_clean_nics. intros nic br Hin (h & br' & t & H).
          injection H as _ _ _ ->. contradiction.
        + intros _ _. eapply spec_bind with (Q := fun _ => True).
          * unfold _clean_netns_on_host.
            eapply spec_bind with (Q := fun _ => True).
            -- apply spec_run. intros (h & br & t & H). discriminate.
            -- intros _ _. apply spec_ret; exact I.
          * intros _ _. apply spec_ret; exact I. }
    exact (proj2 (Hs s)).
Qed.

End HostVerifierResults.

(* ------------------------------------------------------------------------- *)
(** ** The migration engine: which events each operation can emit *)

Ltac spec_seq := eapply spec_bind with (Q := fun _ => True); [| intros ? _].

Ltac spec_done := solve [apply spec_ret; exact I | apply spec_raise].

Section EngineEvents.
Context {W : Type} {neutron : NeutronClient W} {runner : RemoteExec W}.
Variable cfg : Config.
Variable P : event -> Prop.

Lemma spec_wait_loop (func : M W bool) fuel timeout interval least wt :
  spec func (fun _ => True) P ->
  spec (wait_loop fuel func timeout interval least wt) (fun _ => True) P.
Proof.
  intros Hf. revert wt. induction fuel as [|fuel IH]; intros wt; simpl.
  - spec_done.
  - destruct ((wt <? least) || (wt <=? timeout)); [|spec_done].
    spec_seq; [exact Hf|].
    destruct (negb a); [apply IH | spec_done].
Qed.

Lemma spec_wait_until (func : M W bool) timeout interval least :
  spec func (fun _ => True) P ->
  spec (_wait_until func timeout interval least) (fun _ => True) P.
Proof.
  intros Hf. unfold _wait_until.
  spec_seq; [apply spec_wait_loop; exact Hf|].
  destruct a as [wt|]; [destruct (wt >? timeout)|]; spec_done.
Qed.

Lemma spec_check_api_removed (agent : Agent) (router : Router) :
  P (EvListHosting (router_id router)) ->
  spec (_check_api_removed agent router) (fun _ => True) P.
Proof.
  intros H. unfold _check_api_removed.
  spec_seq; [apply spec_call; exact H | spec_done].
Qed.

Lemma spec_check_api_added (agent : Agent) (router : Router) :
  P (EvListHosting (router_id router)) ->
  spec (_check_api_added agent router) (fun _ => True) P.
Proof.
  intros H. unfold _check_api_added.
  spec_seq; [apply spec_call; exact H | spec_done].
Qed.

Lemma spec_remove_router_try (agent : Agent) (router : Router) :
  P (EvRemoveRouter (agent_id agent) (router_id router)) ->
  P (EvListHosting (router_id router)) ->
  spec (_remove_router_try cfg agent router) (fun _ => True) P.
Proof.
  intros Hr Hl. unfold _remove_router_try.
  apply spec_try_except.
  - spec_seq; [apply spec_call; exact Hr|].
    spec_seq; [apply spec_wait_until, spec_check_api_removed; exact Hl|].
    destruct (negb a0); spec_done.
  - intros []; spec_done.
Qed.

Lemma spec_remove_router (agent : Agent) (router : Router) (retry : Z) :
  P (EvRemoveRouter (agent_id agent) (router_id router)) ->
  P (EvListHosting (router_id router)) ->
  spec (_remove_router cfg agent router retry) (fun _ => True) P.
Proof.
  intros Hr Hl. unfold _remove_router.
  induction (Z.to_nat retry) as [|n IH]; simpl;
    (spec_seq; [apply spec_remove_router_try; assumption|]);
    destruct (negb a); try spec_done; exact IH.
Qed.

Lemma spec_add_router_try (agent : Agent) (router : Router) :
  P (EvAddRouter (agent_id agent) (router_id router)) ->
  P (EvListHosting (router_id router)) ->
  spec (_add_router_try cfg agent router) (fun _ => True) P.
Proof.
  intros Hr Hl. unfold _add_router_try.
  apply spec_try_except.
  - spec_seq; [apply spec_call; exact Hr|].
    spec_seq; [apply spec_wait_until, spec_check_api_added; exact Hl|].
    destruct (negb a0); spec_done.
  - intros []; spec_done.
Qed.

Lemma spec_add_router (agent : Agent) (router : Router) (retry : Z) :
  P (EvAddRouter (agent_id agent) (router_id router)) ->
  P (EvListHosting (router_id router)) ->
  spec (_add_router cfg agent router retry) (fun _ => True) P.
Proof.
  intros Hr Hl. unfold _add_router.
  induction (Z.to_nat retry) as [|n IH]; simpl;
    (spec_seq; [apply spec_add_router_try; assumption|]);
    destruct (negb a); try spec_done; exact IH.
Qed.

Hypothesis P_passive : forall e, passive e = true -> P e.

Lemma spec_list_nics_passive (host netns : string) :
  spec (_list_nics_in_netns_on_remote host netns) (fun _ => True) P.
Proof.
  eapply spec_weaken; [apply spec_list_nics with (P := P) | auto | auto].
  apply P_passive; reflexivity.
Qed.

Lemma spec_ensure_clean_router_on_host (agent : Agent) (router : Router) :
  spec (_ensure_clean_router_on_host agent router) (fun _ => True) P.
Proof.
  unfold _ensure_clean_router_on_host.
  spec_seq; [apply spec_list_nics_passive|].
  destruct (Nat.eqb (List.length a) 0); [spec_done|].
  spec_seq.
  - apply spec_clean_nics. intros; apply P_passive; reflexivity.
  - spec_seq; [|spec_done].
    unfold _clean_netns_on_host.
    spec_seq; [apply spec_run, P_passive; reflexivity | spec_done].
Qed.

Lemma spec_ensure_router_cleaned (agent : Agent) (router : Router) :
  spec (_ensure_router_cleaned agent router) (fun _ => True) P.
Proof.
  unfold _ensure_router_cleaned. apply spec_try_except.
  - spec_seq; [apply spec_ensure_clean_router_on_host | spec_done].
  - intros e; spec_done.
Qed.

Lemma spec_verify_router_on_host (agent : Agent) (router : Router) :
  spec (_verify_router_on_host agent router) (fun _ => True) P.
Proof.
  unfold _verify_router_on_host.
  spec_seq.
  - unfold _verify_ports_on_host.
    spec_seq; [apply spec_call, P_passive; reflexivity|].
    destruct (Nat.eqb (List.length a) 0); [spec_done|].
    spec_seq; [apply spec_list_nics_passive | spec_done].
  - destruct (negb a); [spec_done|].
    unfold _verify_ipforward_on_host.
    spec_seq; [apply spec_run, P_passive; reflexivity|].
    destruct a0 as [[] out]; spec_done.
Qed.

Lemma spec_ensure_router_added (agent : Agent) (router : Router) :
  spec (_ensure_router_added agent router) (fun _ => True) P.
Proof.
  unfold _ensure_router_added. apply spec_try_except; [|intros e; spec_done].
  unfold _ensure_router_added_try.
  spec_seq.
  - apply spec_wait_until. unfold _verify_router_snat_rule.
    spec_seq; [apply spec_run, P_passive; reflexivity|].
    destruct a as [[] out]; spec_done.
  - spec_seq; [apply spec_verify_router_on_host|].
    destruct (negb a0); [|spec_done].
    spec_seq.
    + unfold _extra_timeout_for_router.
      spec_seq; [apply spec_call, P_passive; reflexivity|].
      spec_seq; [apply spec_call, P_passive; reflexivity | spec_done].
    + spec_seq; [apply spec_wait_until, spec_verify_router_on_host|].
      destruct (negb a2); spec_done.
Qed.

Lemma spec_retry_failed_router (router : Router) (src_agent : Agent) (retry : Z) :
  P (EvAddRouter (agent_id src_agent) (router_id router)) ->
  spec (_retry_failed_router cfg router src_agent retry) (fun _ => True) P.
Proof.
  intros Hsrc. unfold _retry_failed_router.
  induction (Z.to_nat (retry + 1)) as [|n IH]; simpl; [spec_done|].
  spec_seq; [apply spec_call, P_passive; reflexivity|].
  destruct a as [|agent agents].
  - spec_seq; [apply spec_add_router; [exact Hsrc | apply P_passive; reflexivity]|].
    spec_seq; [exact IH | spec_done].
  - spec_seq; [apply spec_ensure_router_added|].
    destruct a; [|spec_done].
    spec_seq; [|spec_done].
    destruct (negb _); [|spec_done].
    spec_seq; [apply spec_ensure_router_cleaned | spec_done].
Qed.

Lemma spec_migrate_router (self_src target : Agent) (router : Router)
    (src_agent : option Agent) :
  (forall a, P (EvAddRouter a (router_id router))) ->
  (forall a, P (EvRemoveRouter a (router_id router))) ->
  spec (migrate_router cfg self_src target router src_agent) (fun _ => True) P.
Proof.
  intros Ha Hr. unfold migrate_router.
  spec_seq; [apply spec_remove_router; [apply Hr | apply P_passive; reflexivity]|].
  destruct a; [|spec_done].
  spec_seq; [apply spec_add_router; [apply Ha | apply P_passive; reflexivity]|].
  spec_seq; [apply spec_call, P_passive; reflexivity|].
  destruct (a && Nat.ltb 0 (List.length a0)).
  - spec_seq; [apply spec_ensure_router_added|].
    destruct a1.
    + spec_seq; [apply spec_ensure_router_cleaned | spec_done].
    + spec_seq; [apply spec_retry_failed_router, Ha | spec_done].
  - destruct (Nat.eqb (List.length a0) 0); [spec_done|].
    spec_seq; [apply spec_retry_failed_router, Ha | spec_done].
Qed.

End EngineEvents.

(* ------------------------------------------------------------------------- *)
(** ** The migration engine: polling, detach, attach *)

Section Engine.
Context {W : Type} {neutron : NeutronClient W} {runner : RemoteExec W}.
Variable cfg : Config.

Lemma emitted_spec {A} (m : M W A) Q P (s : St W) :
  spec m Q P ->
  trace (snd (m s)) = (trace s ++ emitted m s)%list /\ Forall P (emitted m s).
Proof.
  intros Hm. destruct (Hm s) as [_ (evs & Ht & Hall)].
  unfold emitted. rewrite Ht, skipn_app, skipn_all, Nat.sub_diag. simpl.
  split; [reflexivity | exact Hall].
Qed.

(** The fuel of [_wait_until] is never used up: the model of the loop
    leaves it as the source does, by its condition or by [break]. *)
Lemma wait_loop_fuel (func : M W bool) timeout interval least fuel wt s :
  (Z.to_nat (Z.max least (timeout + 1) - wt) < fuel)%nat ->
  fst (wait_loop fuel func timeout interval least wt s) <> Ret None.
Proof.
  revert wt s. induction fuel as [|fuel IH]; intros wt s Hf; [lia|].
  simpl. destruct ((wt <? least) || (wt <=? timeout)) eqn:Hc; [|discriminate].
  unfold bind. destruct (func s) as [[[]|e] s1]; simpl; try discriminate.
  apply IH.
  apply orb_true_iff in Hc. rewrite Z.ltb_lt, Z.leb_le in Hc. lia.
Qed.

Lemma wait_until_fuel (func : M W bool) timeout interval least s :
  fst (wait_loop (wait_fuel timeout least) func timeout interval least 0 s) <> Ret None.
Proof. apply wait_loop_fuel. unfold wait_fuel. lia. Qed.

(** [_remove_router] in the shape of the source: one attempt, then the
    [finally] clause. *)
Lemma remove_router_unfold (agent : Agent) (router : Router) (retry : Z) :
  _remove_router cfg agent router retry =
    (need_retry <- _remove_router_try cfg agent router ;;
     if negb need_retry then ret true
     else if retry >? 0 then _remove_router cfg agent router (retry - 1)
     else ret false).
Proof.
  unfold _remove_router.
  destruct (Z.to_nat retry) as [|n] eqn:Hn.
  - simpl. replace (retry >? 0) with false by lia. reflexivity.
  - simpl. replace (retry >? 0) with true by lia.
    replace (Z.to_nat (retry - 1)) with n by lia. reflexivity.
Qed.

Lemma add_router_unfold (agent : Agent) (router : Router) (retry : Z) :
  _add_router cfg agent router retry =
    (need_retry <- _add_router_try cfg agent router ;;
     if negb need_retry then ret true
     else if retry >? 0 then _add_router cfg agent router (retry - 1)
     else ret false).
Proof.
  unfold _add_router.
  destruct (Z.to_nat retry) as [|n] eqn:Hn.
  - simpl. replace (retry >? 0) with false by lia. reflexivity.
  - simpl. replace (retry >? 0) with true by lia.
    replace (Z.to_nat (retry - 1)) with n by lia. reflexivity.
Qed.

(** An attempt never raises: the [finally] clause returns. *)
Lemma remove_router_try_returns (agent : Agent) (router : Router) (s : St W) :
  exists need_retry, fst (_remove_router_try cfg agent router s) = Ret need_retry.
Proof.
  unfold _remove_router_try, try_except.
  match goal with |- context [match ?m s with _ => _ end] =>
    destruct (m s) as [[b|[]] s1] end; simpl; eauto.
Qed.

Lemma add_router_try_returns (agent : Agent) (router : Router) (s : St W) :
  exists need_retry, fst (_add_router_try cfg agent router s) = Ret need_retry.
Proof.
  unfold _add_router_try, try_except.
  match goal with |- context [match ?m s with _ => _ end] =>
    destruct (m s) as [[b|[]] s1] end; simpl; eauto.
Qed.

Lemma remove_router_returns (agent : Agent) (router : Router) (retry : Z) (s : St W) :
  exists b, fst (_remove_router cfg agent router retry s) = Ret b.
Proof.
  unfold _remove_router. revert s.
  induction (Z.to_nat retry) as [|n IH]; intros s; simpl; unfold bind;
    destruct (remove_router_try_returns agent router s) as [b Hb];
    destruct (_remove_router_try cfg agent router s) as [r s1]; simpl in Hb; subst r;
    destruct b; simpl; eauto.
Qed.

Lemma add_router_returns (agent : Agent) (router : Router) (retry : Z) (s : St W) :
  exists b, fst (_add_router cfg agent router retry s) = Ret b.
Proof.
  unfold _add_router. revert s.
  induction (Z.to_nat retry) as [|n IH]; intros s; simpl; unfold bind;
    destruct (add_router_try_returns agent router s) as [b Hb];
    destruct (_add_router_try cfg agent router s) as [r s1]; simpl in Hb; subst r;
    destruct b; simpl; eauto.
Qed.

(** An attempt asks for a retry exactly when the request or the poll raises
    a [NeutronClientException], or the poll times out. *)
Lemma remove_attempt_fails_iff (agent : Agent) (router : Router) (s : St W) :
  remove_attempt_fails cfg 0 agent router s = true <->
  (exists msg, fst (remove_request cfg agent router s) = Raise (NeutronClientException msg))
  \/ fst (remove_request cfg agent router s) = Ret false.
Proof.
  unfold remove_attempt_fails, remove_request, _remove_router_try, try_except, bind.
  simpl remove_attempt_state.
  destruct (neutron_remove_router_from_l3_agent _ _ s) as [[[]|e] s1]; simpl.
  - destruct (_wait_until_default cfg _ s1) as [[[]|e] s2]; simpl.
    + split; [discriminate | intros [[m H]|H]; discriminate].
    + split; auto.
    + destruct e; simpl; split; intros H; try discriminate; eauto;
        destruct H as [[m H]|H]; discriminate.
  - destruct e; simpl; split; intros H; try discriminate; eauto;
      destruct H as [[m H]|H]; discriminate.
Qed.

(** [_remove_router] returns true exactly when one of the attempts
    [0 .. n] does not ask for a retry, and false otherwise. *)
Lemma remove_router_n_iff (n : nat) (agent : Agent) (router : Router) (s : St W) :
  (fst (_remove_router_n cfg n agent router s) = Ret true <->
   exists k, (k <= n)%nat /\ remove_attempt_fails cfg k agent router s = false)
  /\ (fst (_remove_router_n cfg n agent router s) = Ret true
      \/ fst (_remove_router_n cfg n agent router s) = Ret false).
Proof.
  revert s. induction n as [|n IH]; intros s.
  - simpl. unfold bind, remove_attempt_fails.
    destruct (remove_router_try_returns agent router s) as [b Hb].
    split.
    + split.
      * intros H. exists 0%nat. split; [lia|]. simpl. rewrite Hb.
        destruct (_remove_router_try cfg agent router s) as [r s1]; simpl in *; subst r.
        destruct b; [discriminate | reflexivity].
      * intros (k & Hk & Hf). assert (k = 0%nat) by lia; subst k.
        simpl in Hf. rewrite Hb in Hf. subst b.
        destruct (_remove_router_try cfg agent router s) as [r s1]; simpl in *; subst r.
        reflexivity.
    + destruct (_remove_router_try cfg agent router s) as [r s1]; simpl in *; subst r.
      destruct b; simpl; auto.
  - simpl. unfold bind.
    destruct (remove_router_try_returns agent router s) as [b Hb].
    pose proof (IH (snd (_remove_router_try cfg agent router s))) as [IH1 IH2].
    destruct (_remove_router_try cfg agent router s) as [r s1] eqn:Htry;
      simpl in *; subst r.
    destruct b; simpl.
    + split; [|exact IH2]. rewrite IH1. split.
      * intros (k & Hk & Hf). exists (S k). split; [lia|].
        unfold remove_attempt_fails in *. simpl. rewrite Htry. exact Hf.
      * intros (k & Hk & Hf). destruct k as [|k].
        -- unfold remove_attempt_fails in Hf. simpl in Hf. rewrite Htry in Hf.
           discriminate.
        -- exists k. split; [lia|].
           unfold remove_attempt_fails in *. simpl in Hf. rewrite Htry in Hf. exact Hf.
    + split; [|auto]. split; [|reflexivity].
      intros _. exists 0%nat. split; [lia|].
      unfold remove_attempt_fails. simpl. rewrite Htry. reflexivity.
Qed.

(** When attempts [0 .. n] all ask for a retry, [_remove_router] with [n]
    retries ends in the state that follows attempt [n]. *)
Lemma remove_router_n_all_fail (n : nat) (agent : Agent) (router : Router) (s : St W) :
  (forall k, (k <= n)%nat -> remove_attempt_fails cfg k agent router s = true) ->
  _remove_router_n cfg n agent router s
  = (Ret false, remove_attempt_state cfg (S n) agent router s).
Proof.
  revert s. induction n as [|n IH]; intros s Hall.
  - pose proof (Hall 0%nat (Nat.le_refl _)) as H0.
    unfold remove_attempt_fails in H0. simpl in *. unfold bind.
    destruct (_remove_router_try cfg agent router s) as [[b|e] s1]; simpl in *;
      [subst b; reflexivity | discriminate].
  - pose proof (Hall 0%nat (Nat.le_0_l _)) as H0.
    unfold remove_attempt_fails in H0. simpl in H0.
    change (_remove_router_n cfg (S n) agent router s)
      with (bind (_remove_router_try cfg agent router)
              (fun need_retry => if negb need_retry then ret true
                                 else _remove_router_n cfg n agent router) s).
    unfold bind.
    destruct (_remove_router_try cfg agent router s) as [[b|e] s1] eqn:Htry;
      simpl in H0; [subst b | discriminate].
    simpl negb. cbv iota. rewrite IH.
    + simpl. rewrite Htry. reflexivity.
    + intros k Hk. specialize (Hall (S k) ltac:(lia)).
      unfold remove_attempt_fails in *. simpl in Hall. rewrite Htry in Hall. exact Hall.
Qed.

End Engine.

Section EmittedEvents.
Context {W : Type}.

Lemma extends_trace {A} (m : M W A) (s : St W) :
  extends m -> trace (snd (m s)) = (trace s ++ emitted m s)%list.
Proof. intros H. apply (emitted_spec m _ _ s H). Qed.

Lemma emitted_bind {A B} (m : M W A) (f : A -> M W B) (s : St W) :
  extends m -> (forall a, extends (f a)) ->
  emitted (bind m f) s =
    (emitted m s ++ match m s with
                    | (Ret a, s1) => emitted (f a) s1
                    | (Raise _, _) => []
                    end)%list.
Proof.
  intros Hm Hf.
  pose proof (extends_trace m s Hm) as Em.
  unfold emitted at 1. unfold bind.
  destruct (m s) as [[a|e] s1] eqn:Hms; simpl in Em.
  - rewrite (extends_trace (f a) s1 (Hf a)), Em, <- app_assoc.
    rewrite skipn_app, skipn_all, Nat.sub_diag. reflexivity.
  - simpl. rewrite Em, skipn_app, skipn_all, Nat.sub_diag, app_nil_r. reflexivity.
Qed.

Lemma emitted_try_except {A} (m : M W A) (h : exn -> M W A) (s : St W) :
  extends m -> (forall e, extends (h e)) ->
  emitted (try_except m h) s =
    (emitted m s ++ match m s with
                    | (Ret _, _) => []
                    | (Raise e, s1) => emitted (h e) s1
                    end)%list.
Proof.
  intros Hm Hh.
  pose proof (extends_trace m s Hm) as Em.
  unfold emitted at 1. unfold try_except.
  destruct (m s) as [[a|e] s1] eqn:Hms; simpl in Em.
  - simpl. rewrite Em, skipn_app, skipn_all, Nat.sub_diag, app_nil_r. reflexivity.
  - rewrite (extends_trace (h e) s1 (Hh e)), Em, <- app_assoc.
    rewrite skipn_app, skipn_all, Nat.sub_diag. reflexivity.
Qed.

Lemma emitted_call {A} ev (f : W -> outcome A * W) (s : St W) :
  emitted (call ev f) s = [ev].
Proof.
  unfold emitted, call. destruct (f (world s)) as [r w']; simpl.
  rewrite skipn_app, skipn_all, Nat.sub_diag. reflexivity.
Qed.

Lemma emitted_eq {A B} (m : M W A) (m' : M W B) (s : St W) :
  snd (m s) = snd (m' s) -> emitted m s = emitted m' s.
Proof. unfold emitted. intros ->. reflexivity. Qed.

End EmittedEvents.

(* ------------------------------------------------------------------------- *)
(** ** The migration engine: detach, verification and reconciliation *)

Section EngineResults.
Context {W : Type} {neutron : NeutronClient W} {runner : RemoteExec W}.
Variable cfg : Config.

Lemma extends_any {A} (m : M W A) Q P : spec m Q P -> extends m.
Proof. intros H. eapply spec_weaken; eauto. Qed.

Lemma extends_remove_router agent router retry :
  extends (_remove_router cfg agent router retry).
Proof. apply spec_remove_router; exact I. Qed.

Lemma extends_add_router agent router retry :
  extends (_add_router cfg agent router retry).
Proof. apply spec_add_router; exact I. Qed.

Lemma extends_retry_failed_router router src retry :
  extends (_retry_failed_router cfg router src retry).
Proof. apply spec_retry_failed_router; auto. Qed.

Lemma extends_migrate_router self_src target router src :
  extends (migrate_router cfg self_src target router src).
Proof. apply spec_migrate_router; auto. Qed.

(** The first thing [_add_router] does is the attach request. *)
Lemma add_router_requests_attach (agent : Agent) (router : Router) (retry : Z)
    (s : St W) :
  In (EvAddRouter (agent_id agent) (router_id router))
     (emitted (_add_router cfg agent router retry) s).
Proof.
  assert (Htry : In (EvAddRouter (agent_id agent) (router_id router))
                    (emitted (_add_router_try cfg agent router) s)).
  { unfold _add_router_try.
    rewrite emitted_try_except.
    - apply in_or_app; left.
      match goal with |- In _ (emitted (bind ?m ?f) s) =>
        rewrite (emitted_bind m f) end.
      + apply in_or_app; left.
        unfold neutron_add_router_to_l3_agent. rewrite emitted_call. left; reflexivity.
      + apply spec_call; exact I.
      + intros _. spec_seq.
        * apply spec_wait_until, spec_check_api_added; exact I.
        * destruct (negb a); spec_done.
    - spec_seq; [apply spec_call; exact I|].
      spec_seq; [apply spec_wait_until, spec_check_api_added; exact I|].
      destruct (negb a0); spec_done.
    - intros []; spec_done. }
  unfold _add_router.
  destruct (Z.to_nat retry) as [|n]; simpl;
    (rewrite emitted_bind;
     [ apply in_or_app; left; exact Htry
     | apply spec_add_router_try; exact I
     | intros b; destruct (negb b); try spec_done ]).
  pose proof (extends_add_router agent router (Z.of_nat n)) as Hn.
  unfold _add_router in Hn. rewrite Nat2Z.id in Hn. exact Hn.
Qed.

(** An attempt, whatever way it ends, leaves the state in which the request
    and the poll left it, and asks for a retry exactly when it failed. *)
Lemma remove_router_try_eq (agent : Agent) (router : Router) (s : St W) :
  _remove_router_try cfg agent router s
  = (Ret (match classify_attempt (fst (remove_request cfg agent router s)) with
          | AttemptFailed => true
          | _ => false
          end),
     snd (remove_request cfg agent router s)).
Proof.
  unfold _remove_router_try, remove_request, try_except, bind.
  destruct (neutron_remove_router_from_l3_agent _ _ s) as [[[]|e] s1]; simpl.
  - destruct (_wait_until_default cfg _ s1) as [[[]|e] s2]; simpl; try reflexivity.
    destruct e; reflexivity.
  - destruct e; reflexivity.
Qed.

Lemma remove_attempt_fails_result (k : nat) (agent : Agent) (router : Router) (s : St W) :
  remove_attempt_fails cfg k agent router s
  = match remove_attempt_result cfg k agent router s with
    | AttemptFailed => true
    | _ => false
    end.
Proof.
  unfold remove_attempt_fails, remove_attempt_result.
  rewrite remove_router_try_eq. reflexivity.
Qed.

(** Once the detach has returned true, the attach to the target is requested. *)
Lemma migrate_requests_attach (self_src target : Agent) (router : Router) (s : St W) :
  fst (_remove_router cfg self_src router (cfg_retry cfg) s) = Ret true ->
  In (EvAddRouter (agent_id target) (router_id router))
     (emitted (migrate_router cfg self_src target router None) s).
Proof.
  intros Hrem. unfold migrate_router.
  rewrite emitted_bind.
  - apply in_or_app; right.
    destruct (_remove_router cfg self_src router (cfg_retry cfg) s) as [r s1];
      simpl in Hrem; subst r.
    rewrite emitted_bind.
    + apply in_or_app; left. apply add_router_requests_attach.
    + apply extends_add_router.
    + intros added. spec_seq; [apply spec_call; exact I|].
      destruct (added && Nat.ltb 0 (List.length a)).
      * spec_seq; [apply spec_ensure_router_added; auto|].
        destruct a0.
        -- spec_seq; [apply spec_ensure_router_cleaned; auto | spec_done].
        -- spec_seq; [apply extends_retry_failed_router | spec_done].
      * destruct (Nat.eqb (List.length a) 0); [spec_done|].
        spec_seq; [apply extends_retry_failed_router | spec_done].
  - apply extends_remove_router.
  - intros removed. destruct removed; [|spec_done].
    spec_seq; [apply extends_add_router|].
    spec_seq; [apply spec_call; exact I|].
    destruct (a && Nat.ltb 0 (List.length a0)).
    + spec_seq; [apply spec_ensure_router_added; auto|].
      destruct a1.
      * spec_seq; [apply spec_ensure_router_cleaned; auto | spec_done].
      * spec_seq; [apply extends_retry_failed_router | spec_done].
    + destruct (Nat.eqb (List.length a0) 0); [spec_done|].
      spec_seq; [apply extends_retry_failed_router | spec_done].
Qed.

(** C5 (as the code behaves).  A detach attempt asks for a retry exactly
    when it fails: the request or the poll raises a
    [NeutronClientException], or the poll times out.  [_remove_router]
    returns true exactly when one of the first [retry + 1] attempts does not
    ask for a retry, and false otherwise.  When the first two attempts fail
    and the third succeeds: with a retry budget of 2 the detach succeeds and
    the engine requests the attach to the destination; with a budget of 1 the
    detach fails and the engine stops there, without any attach request.

    An attempt that does not ask for a retry need not have succeeded: when
    the request or the poll raises any other exception, the [return] of the
    [finally] clause discards it and [_remove_router] returns true at once,
    for every retry budget and without a retry, and the engine goes on to
    request the attach.  So [_remove_router] returns true exactly when one
    of the first [retry + 1] attempts succeeds or is cut short in this
    way. *)
Theorem remove_router_retry_budget (self_src target : Agent) (router : Router)
    (s : St W) :
  (forall k,
     let sk := remove_attempt_state cfg k self_src router s in
     (remove_attempt_fails cfg k self_src router s = true <->
      (exists msg, fst (remove_request cfg self_src router sk)
                   = Raise (NeutronClientException msg))
      \/ fst (remove_request cfg self_src router sk) = Ret false)
     /\ (remove_attempt_fails cfg k self_src router s = false <->
         remove_attempt_result cfg k self_src router s = AttemptSucceeded
         \/ exists e, remove_attempt_result cfg k self_src router s = AttemptAborted e))
  /\ (forall retry, 0 <= retry ->
     (fst (_remove_router cfg self_src router retry s) = Ret true <->
      exists k, Z.of_nat k <= retry /\ remove_attempt_fails cfg k self_src router s = false)
     /\ (fst (_remove_router cfg self_src router retry s) = Ret true <->
         exists k, Z.of_nat k <= retry
                   /\ (remove_attempt_result cfg k self_src router s = AttemptSucceeded
                       \/ exists e, remove_attempt_result cfg k self_src router s
                                    = AttemptAborted e))
     /\ (fst (_remove_router cfg self_src router retry s) = Ret true
         \/ fst (_remove_router cfg self_src router retry s) = Ret false))
  /\ (remove_attempt_fails cfg 0 self_src router s = true ->
      remove_attempt_fails cfg 1 self_src router s = true ->
      remove_attempt_fails cfg 2 self_src router s = false ->
      (cfg_retry cfg = 2 ->
         fst (_remove_router cfg self_src router 2 s) = Ret true
         /\ In (EvAddRouter (agent_id target) (router_id router))
               (emitted (migrate_router cfg self_src target router None) s))
      /\ (cfg_retry cfg = 1 ->
         fst (_remove_router cfg self_src router 1 s) = Ret false
         /\ migrate_router cfg self_src target router None s
            = (Ret tt, remove_attempt_state cfg 2 self_src router s)
         /\ Forall (fun e => is_attach e = false)
                   (emitted (migrate_router cfg self_src target router None) s)))
  /\ (forall e,
        remove_attempt_result cfg 0 self_src router s = AttemptAborted e ->
        (forall retry,
           _remove_router cfg self_src router retry s
           = (Ret true, snd (remove_request cfg self_src router s)))
        /\ In (EvAddRouter (agent_id target) (router_id router))
              (emitted (migrate_router cfg self_src target router None) s)).
Proof.
  assert (Hclass : forall k,
            remove_attempt_fails cfg k self_src router s = false <->
            remove_attempt_result cfg k self_src router s = AttemptSucceeded
            \/ exists e, remove_attempt_result cfg k self_src router s = AttemptAborted e).
  { intros k. rewrite remove_attempt_fails_result.
    destruct (remove_attempt_result cfg k self_src router s) as [| |e]; split;
      try discriminate; try reflexivity; eauto.
    intros [H|[e H]]; discriminate. }
  assert (Hbudget : forall retry, 0 <= retry ->
            fst (_remove_router cfg self_src router retry s) = Ret true <->
            exists k, Z.of_nat k <= retry
                      /\ remove_attempt_fails cfg k self_src router s = false).
  { intros retry Hretry. unfold _remove_router.
    destruct (remove_router_n_iff cfg (Z.to_nat retry) self_src router s) as [Hiff _].
    rewrite Hiff. split; intros (k & Hk & Hf); exists k; split; auto; lia. }
  split; [|split; [|split]].
  - intros k sk. split; [|apply Hclass].
    exact (remove_attempt_fails_iff cfg self_src router sk).
  - intros retry Hretry. split; [exact (Hbudget retry Hretry)|]. split.
    + rewrite (Hbudget retry Hretry).
      split; intros (k & Hk & Hf); exists k; (split; [exact Hk|]); apply Hclass, Hf.
    + unfold _remove_router.
      exact (proj2 (remove_router_n_iff cfg (Z.to_nat retry) self_src router s)).
  - intros F0 F1 F2. split.
    + intros Hcfg.
      assert (Hrem : fst (_remove_router cfg self_src router 2 s) = Ret true).
      { apply (Hbudget 2); [lia|]. exists 2%nat. split; [simpl; lia | exact F2]. }
      split; [exact Hrem|].
      apply migrate_requests_attach. rewrite Hcfg. exact Hrem.
    + intros Hcfg.
      assert (Hrem : _remove_router cfg self_src router 1 s
                     = (Ret false, remove_attempt_state cfg 2 self_src router s)).
      { unfold _remove_router. change (Z.to_nat 1) with 1%nat.
        apply remove_router_n_all_fail.
        intros k Hk. destruct k as [|[|k]]; [exact F0 | exact F1 | lia]. }
      assert (Hmig : migrate_router cfg self_src target router None s
                     = (Ret tt, remove_attempt_state cfg 2 self_src router s)).
      { unfold migrate_router, bind. rewrite Hcfg, Hrem. reflexivity. }
      split; [rewrite Hrem; reflexivity|].
      split; [exact Hmig|].
      rewrite (emitted_eq _ (_remove_router cfg self_src router 1) s)
        by (rewrite Hmig, Hrem; reflexivity).
      eapply emitted_spec.
      apply spec_remove_router; reflexivity.
  - intros e Habort.
    assert (Hall : forall retry,
              _remove_router cfg self_src router retry s
              = (Ret true, snd (remove_request cfg self_src router s))).
    { intros retry. unfold _remove_router.
      unfold remove_attempt_result in Habort. simpl in Habort.
      destruct (Z.to_nat retry) as [|n]; simpl; unfold bind;
        rewrite remove_router_try_eq, Habort; reflexivity. }
    split; [exact Hall|].
    apply migrate_requests_attach. rewrite Hall. reflexivity.
Qed.

(** C4. When the port query of [migrate_router] finds no admin-state-enabled
    port, [migrate_router] consists of the detach, the attach and that query:
    no verification, no cleanup and no reconciliation follows, it returns
    normally, and it issues no remote command. *)
Theorem migrate_router_no_enabled_ports (self_src target : Agent) (router : Router)
    (src_agent : option Agent) (s : St W) :
  let src := match src_agent with Some a => a | None => self_src end in
  (forall added s1 s2,
      _remove_router cfg src router (cfg_retry cfg) s = (Ret true, s1) ->
      _add_router cfg target router (cfg_retry cfg) s1 = (added, s2) ->
      fst (list_ports (router_id router) (Some true) (world s2)) = Ret []) ->
  migrate_router cfg self_src target router src_agent s
  = (removed <- _remove_router cfg src router (cfg_retry cfg) ;;
     if removed then
       _add_router cfg target router (cfg_retry cfg) ;;;
       neutron_list_ports (router_id router) (Some true) ;;;
       ret tt
     else ret tt) s
  /\ fst (migrate_router cfg self_src target router src_agent s) = Ret tt
  /\ Forall (fun e => is_remote e = false)
            (emitted (migrate_router cfg self_src target router src_agent) s).
Proof.
  intros src Hports.
  assert (Hlist : forall s0,
             fst (list_ports (router_id router) (Some true) (world s0)) = Ret [] ->
             exists s1, neutron_list_ports (router_id router) (Some true) s0 = (Ret [], s1)).
  { intros s0 H0. unfold neutron_list_ports, call.
    destruct (list_ports (router_id router) (Some true) (world s0)) as [r w'].
    simpl in H0. subst r. eauto. }
  assert (Heq : migrate_router cfg self_src target router src_agent s
    = (removed <- _remove_router cfg src router (cfg_retry cfg) ;;
       if removed then
         _add_router cfg target router (cfg_retry cfg) ;;;
         neutron_list_ports (router_id router) (Some true) ;;;
         ret tt
       else ret tt) s
    /\ fst (migrate_router cfg self_src target router src_agent s) = Ret tt).
  { unfold migrate_router, bind. fold src.
    destruct (remove_router_returns cfg src router (cfg_retry cfg) s) as [b Hb].
    destruct (_remove_router cfg src router (cfg_retry cfg) s) as [r s1] eqn:Hrem;
      simpl in Hb; subst r.
    destruct b; [|split; reflexivity].
    destruct (add_router_returns cfg target router (cfg_retry cfg) s1) as [b Hb].
    destruct (_add_router cfg target router (cfg_retry cfg) s1) as [r s2] eqn:Hadd;
      simpl in Hb; subst r.
    destruct (Hlist s2 (Hports _ _ _ eq_refl Hadd)) as [s3 ->]. simpl.
    rewrite andb_false_r. split; reflexivity. }
  destruct Heq as [Heq Hret].
  split; [exact Heq|]. split; [exact Hret|].
  rewrite (emitted_eq _ _ s (f_equal snd Heq)).
  apply (emitted_spec _ (fun _ => True)).
  spec_seq; [apply spec_remove_router; reflexivity|].
  destruct a; [|spec_done].
  spec_seq; [apply spec_add_router; reflexivity|].
  spec_seq; [apply spec_call; reflexivity | spec_done].
Qed.

(** [_retry_failed_router] in the shape of the source. *)
Lemma retry_failed_router_unfold (router : Router) (src_agent : Agent) (retry : Z) :
  _retry_failed_router cfg router src_agent retry =
    if retry <? 0 then ret None
    else
      (agents <- neutron_list_l3_agent_hosting_routers (router_id router) ;;
       match agents with
       | agent :: _ =>
           ensured <- _ensure_router_added agent router ;;
           if ensured then
             (if negb (String.eqb (agent_id agent) (agent_id src_agent)) then
                _ensure_router_cleaned src_agent router ;;; ret tt
              else ret tt) ;;;
             ret (Some true)
           else ret None
       | [] =>
           _add_router cfg src_agent router (cfg_retry cfg) ;;;
           _retry_failed_router cfg router src_agent (retry - 1) ;;;
           ret None
       end).
Proof.
  unfold _retry_failed_router.
  destruct (retry <? 0) eqn:Hneg.
  - apply Z.ltb_lt in Hneg. replace (Z.to_nat (retry + 1)) with 0%nat by lia.
    reflexivity.
  - apply Z.ltb_ge in Hneg.
    replace (Z.to_nat (retry + 1)) with (S (Z.to_nat (retry - 1 + 1))) by lia.
    reflexivity.
Qed.

(** Counting the attach requests of a computation. *)
Lemma attach_requests_app (evs1 evs2 : list event) :
  attach_requests (evs1 ++ evs2) = (attach_requests evs1 + attach_requests evs2)%nat.
Proof. unfold attach_requests. rewrite filter_app, length_app. reflexivity. Qed.

Lemma attach_requests_none {A} (m : M W A) (s : St W) :
  spec m (fun _ => True) (fun e => is_attach e = false) ->
  attach_requests (emitted m s) = 0%nat.
Proof.
  intros Hm. destruct (emitted_spec m _ _ s Hm) as [_ Hall].
  unfold attach_requests. induction Hall as [|e evs He _ IH]; simpl; [reflexivity|].
  rewrite He. exact IH.
Qed.

Lemma attach_requests_bind {A B} (m : M W A) (f : A -> M W B) (s : St W) (n1 n2 : nat) :
  extends m -> (forall a, extends (f a)) ->
  (attach_requests (emitted m s) <= n1)%nat ->
  (forall a s1, attach_requests (emitted (f a) s1) <= n2)%nat ->
  (attach_requests (emitted (bind m f) s) <= n1 + n2)%nat.
Proof.
  intros Em Ef H1 H2. rewrite emitted_bind by assumption.
  rewrite attach_requests_app.
  destruct (m s) as [[a|e] s1].
  - specialize (H2 a s1). lia.
  - change (attach_requests []) with 0%nat. lia.
Qed.

Lemma passive_not_attach (e : event) : passive e = true -> is_attach e = false.
Proof. destruct e; simpl; congruence. Qed.

Lemma add_router_try_attach_requests (agent : Agent) (router : Router) (s : St W) :
  (attach_requests (emitted (_add_router_try cfg agent router) s) <= 1)%nat.
Proof.
  assert (Hrest : spec (ok <- _wait_until_default cfg (_check_api_added agent router) ;;
                        if negb ok then ret true else ret false)
                       (fun _ => True) (fun e => is_attach e = false)).
  { spec_seq; [apply spec_wait_until, spec_check_api_added; reflexivity|].
    destruct (negb a); spec_done. }
  assert (Hbody : forall s0,
    (attach_requests
       (emitted (neutron_add_router_to_l3_agent (agent_id agent) (router_id router) ;;;
                 ok <- _wait_until_default cfg (_check_api_added agent router) ;;
                 if negb ok then ret true else ret false) s0) <= 1 + 0)%nat).
  { intros s0. apply attach_requests_bind.
    - apply spec_call; exact I.
    - intros _. exact (extends_any _ _ _ Hrest).
    - unfold neutron_add_router_to_l3_agent. rewrite emitted_call.
      unfold attach_requests. simpl. lia.
    - intros _ s1. rewrite (attach_requests_none _ s1 Hrest). lia. }
  unfold _add_router_try. rewrite emitted_try_except.
  - rewrite attach_requests_app.
    match goal with |- context [match ?m s with _ => _ end] =>
      destruct (m s) as [[b|e] s1] end.
    + specialize (Hbody s). change (attach_requests []) with 0%nat. lia.
    + specialize (Hbody s).
      assert (He : attach_requests
                     (emitted (match e with
                               | NeutronClientException _ => ret true
                               | _ => ret false
                               end) s1) = 0%nat).
      { apply attach_requests_none. destruct e; spec_done. }
      rewrite He. lia.
  - spec_seq; [apply spec_call; exact I | exact (extends_any _ _ _ Hrest)].
  - intros []; spec_done.
Qed.

Lemma add_router_attach_requests (agent : Agent) (router : Router) (retry : Z)
    (s : St W) :
  (attach_requests (emitted (_add_router cfg agent router retry) s)
   <= Z.to_nat retry + 1)%nat.
Proof.
  unfold _add_router. revert s.
  induction (Z.to_nat retry) as [|n IH]; intros s; simpl.
  - eapply Nat.le_trans; [apply (attach_requests_bind _ _ s 1%nat 0%nat) | lia].
    + apply spec_add_router_try; exact I.
    + intros b. destruct (negb b); spec_done.
    + apply add_router_try_attach_requests.
    + intros b s1. rewrite attach_requests_none; [lia|]. destruct (negb b); spec_done.
  - eapply Nat.le_trans; [apply (attach_requests_bind _ _ s 1%nat (n + 1)%nat) | lia].
    + apply spec_add_router_try; exact I.
    + intros b. destruct (negb b); [spec_done|].
      pose proof (extends_add_router agent router (Z.of_nat n)) as Hn.
      unfold _add_router in Hn. rewrite Nat2Z.id in Hn. exact Hn.
    + apply add_router_try_attach_requests.
    + intros b s1. destruct (negb b); [|apply IH].
      rewrite attach_requests_none; [lia | spec_done].
Qed.

Lemma retry_failed_router_attach_requests (router : Router) (src_agent : Agent)
    (retry : Z) (s : St W) :
  (attach_requests (emitted (_retry_failed_router cfg router src_agent retry) s)
   <= Z.to_nat (retry + 1) * (Z.to_nat (cfg_retry cfg) + 1))%nat.
Proof.
  unfold _retry_failed_router. revert s.
  induction (Z.to_nat (retry + 1)) as [|n IH]; intros s.
  - simpl. rewrite attach_requests_none; [lia | spec_done].
  - assert (Hext : extends (_retry_failed_router_n cfg n router src_agent)).
    { pose proof (extends_retry_failed_router router src_agent (Z.of_nat n - 1)) as Hn.
      unfold _retry_failed_router in Hn.
      replace (Z.to_nat (Z.of_nat n - 1 + 1)) with n in Hn by lia. exact Hn. }
    assert (Hpass : forall e, passive e = true -> True) by auto.
    change (_retry_failed_router_n cfg (S n) router src_agent)
      with (agents <- neutron_list_l3_agent_hosting_routers (router_id router) ;;
            match agents with
            | agent :: _ =>
                ensured <- _ensure_router_added agent router ;;
                if ensured then
                  (if negb (String.eqb (agent_id agent) (agent_id src_agent)) then
                     _ensure_router_cleaned src_agent router ;;; ret tt
                   else ret tt) ;;;
                  ret (Some true)
                else ret None
            | [] =>
                _add_router cfg src_agent router (cfg_retry cfg) ;;;
                _retry_failed_router_n cfg n router src_agent ;;;
                ret None
            end).
    eapply Nat.le_trans;
      [apply (attach_requests_bind _ _ s 0%nat
                ((Z.to_nat (cfg_retry cfg) + 1)
                 + (n * (Z.to_nat (cfg_retry cfg) + 1) + 0))%nat) | lia].
    + apply spec_call; exact I.
    + intros [|agent agents].
      * spec_seq; [apply extends_add_router|].
        spec_seq; [exact Hext | spec_done].
      * spec_seq; [apply spec_ensure_router_added; auto|].
        destruct a; [|spec_done].
        spec_seq; [|spec_done].
        destruct (negb _); [|spec_done].
        spec_seq; [apply spec_ensure_router_cleaned; auto | spec_done].
    + unfold neutron_list_l3_agent_hosting_routers. rewrite emitted_call.
      unfold attach_requests; simpl. lia.
    + intros [|agent agents] s1.
      * apply attach_requests_bind.
        -- apply extends_add_router.
        -- intros _. spec_seq; [exact Hext | spec_done].
        -- apply add_router_attach_requests.
        -- intros _ s2. apply attach_requests_bind.
           ++ exact Hext.
           ++ intros _. spec_done.
           ++ apply IH.
           ++ intros _ s3. rewrite attach_requests_none; [lia | spec_done].
      * rewrite attach_requests_none; [lia|].
        spec_seq; [apply spec_ensure_router_added, passive_not_attach|].
        destruct a; [|spec_done].
        spec_seq; [|spec_done].
        destruct (negb _); [|spec_done].
        spec_seq; [apply spec_ensure_router_cleaned, passive_not_attach | spec_done].
Qed.

(** C6. [_retry_failed_router] with an exhausted budget returns at once,
    without any call; within the budget, when no agent hosts the router, it
    requests the attach to the source agent and then reconciles again with
    the budget lowered by one; every attach request it ever issues is for
    this router on the source agent; and it issues at most
    [(retry + 1) * (self._retry + 1)] attach requests. *)
Theorem retry_failed_router_unowned (router : Router) (src_agent : Agent)
    (retry : Z) (s : St W) :
  (retry < 0 -> _retry_failed_router cfg router src_agent retry s = (Ret None, s))
  /\ (0 <= retry ->
      forall s1,
        neutron_list_l3_agent_hosting_routers (router_id router) s = (Ret [], s1) ->
        _retry_failed_router cfg router src_agent retry s
        = (_add_router cfg src_agent router (cfg_retry cfg) ;;;
           _retry_failed_router cfg router src_agent (retry - 1) ;;;
           ret None) s1
        /\ In (EvAddRouter (agent_id src_agent) (router_id router))
              (emitted (_retry_failed_router cfg router src_agent retry) s))
  /\ Forall (fun e => forall a r, e = EvAddRouter a r ->
                                  a = agent_id src_agent /\ r = router_id router)
            (emitted (_retry_failed_router cfg router src_agent retry) s)
  /\ (attach_requests (emitted (_retry_failed_router cfg router src_agent retry) s)
      <= Z.to_nat (retry + 1) * (Z.to_nat (cfg_retry cfg) + 1))%nat.
Proof.
  split; [|split; [|split]].
  - intros Hneg. rewrite retry_failed_router_unfold.
    replace (retry <? 0) with true by lia. reflexivity.
  - intros Hpos s1 Hlist.
    assert (Heq : _retry_failed_router cfg router src_agent retry s
                  = (_add_router cfg src_agent router (cfg_retry cfg) ;;;
                     _retry_failed_router cfg router src_agent (retry - 1) ;;;
                     ret None) s1).
    { rewrite retry_failed_router_unfold.
      replace (retry <? 0) with false by lia.
      unfold bind at 1. rewrite Hlist. reflexivity. }
    split; [exact Heq|].
    pose proof (extends_trace _ s (extends_retry_failed_router router src_agent retry)) as Et.
    rewrite Heq in Et.
    pose proof (add_router_requests_attach src_agent router (cfg_retry cfg) s1) as Hin.
    assert (Hin' : In (EvAddRouter (agent_id src_agent) (router_id router))
                      (emitted (_add_router cfg src_agent router (cfg_retry cfg) ;;;
                                _retry_failed_router cfg router src_agent (retry - 1) ;;;
                                ret (@None bool)) s1)).
    { rewrite emitted_bind.
      - apply in_or_app; left; exact Hin.
      - apply extends_add_router.
      - intros _. spec_seq; [apply extends_retry_failed_router | spec_done]. }
    assert (Ext : extends (_add_router cfg src_agent router (cfg_retry cfg) ;;;
                           _retry_failed_router cfg router src_agent (retry - 1) ;;;
                           ret (@None bool))).
    { spec_seq; [apply extends_add_router|].
      spec_seq; [apply extends_retry_failed_router | spec_done]. }
    rewrite (extends_trace _ s1 Ext) in Et.
    assert (Es1 : trace s1 = (trace s ++ [EvListHosting (router_id router)])%list).
    { unfold neutron_list_l3_agent_hosting_routers, call in Hlist.
      destruct (list_l3_agent_hosting_routers (router_id router) (world s)) as [r w'].
      injection Hlist as _ <-. reflexivity. }
    rewrite Es1, <- app_assoc in Et. apply app_inv_head in Et.
    rewrite <- Et. apply in_or_app; right. exact Hin'.
  - eapply emitted_spec.
    apply spec_retry_failed_router.
    + intros e He a r ->. discriminate.
    + intros a r Heq. injection Heq as <- <-. auto.
  - apply retry_failed_router_attach_requests.
Qed.

(** C1 (as the code behaves). Whenever the verification inside
    [_ensure_router_added] raises, the router is reported as verified. *)
Lemma ensure_router_added_masks_errors (agent : Agent) (router : Router)
    (s s1 : St W) (e : exn) :
  _ensure_router_added_try agent router s = (Raise e, s1) ->
  _ensure_router_added agent router s = (Ret true, s1).
Proof.
  intros H. unfold _ensure_router_added, try_except. rewrite H. reflexivity.
Qed.

End EngineResults.

(* ------------------------------------------------------------------------- *)
(** ** Dictionaries *)

Section DictFacts.
Context {V : Type}.
Implicit Types (d : PyDict.dict V) (k : string).

Lemma get_set k k' (v : V) d :
  PyDict.get k (PyDict.set k' v d) = if String.eqb k k' then Some v else PyDict.get k d.
Proof.
  induction d as [|[k0 v0] d IH]; simpl.
  - destruct (String.eqb_spec k k'); reflexivity.
  - destruct (String.eqb_spec k' k0) as [->|Hne]; simpl.
    + destruct (String.eqb_spec k k0); reflexivity.
    + rewrite IH. destruct (String.eqb_spec k k0) as [->|Hne'].
      * destruct (String.eqb_spec k0 k'); [congruence | reflexivity].
      * reflexivity.
Qed.

Lemma get_update k k' (f : V -> V) d :
  PyDict.get k (PyDict.update k' f d)
  = if String.eqb k k' then option_map f (PyDict.get k d) else PyDict.get k d.
Proof.
  induction d as [|[k0 v0] d IH]; simpl.
  - destruct (String.eqb k k'); reflexivity.
  - destruct (String.eqb_spec k' k0) as [->|Hne]; simpl.
    + destruct (String.eqb_spec k k0); reflexivity.
    + rewrite IH. destruct (String.eqb_spec k k0) as [->|Hne'].
      * destruct (String.eqb_spec k0 k'); [congruence | reflexivity].
      * reflexivity.
Qed.

Lemma keys_update k (f : V -> V) d : PyDict.keys (PyDict.update k f d) = PyDict.keys d.
Proof.
  induction d as [|[k0 v0] d IH]; simpl; [reflexivity|].
  destruct (String.eqb k k0); simpl; [reflexivity|].
  f_equal. exact IH.
Qed.

Lemma get_in_keys k d : In k (PyDict.keys d) <-> PyDict.get k d <> None.
Proof.
  induction d as [|[k0 v0] d IH]; simpl.
  - split; [contradiction | congruence].
  - destruct (String.eqb_spec k k0) as [->|Hne].
    + split; [discriminate | auto].
    + rewrite <- IH. split; [intros [H|H]; [congruence | exact H] | auto].
Qed.

Lemma get_some_in k (v : V) d : PyDict.get k d = Some v -> In (k, v) d.
Proof.
  induction d as [|[k0 v0] d IH]; simpl; [discriminate|].
  destruct (String.eqb_spec k k0) as [->|Hne].
  - intros H; injection H as ->. left; reflexivity.
  - intros H. right. apply IH, H.
Qed.

Lemma in_get_nodup k (v : V) d :
  NoDup (PyDict.keys d) -> In (k, v) d -> PyDict.get k d = Some v.
Proof.
  induction d as [|[k0 v0] d IH]; simpl; [contradiction|].
  intros Hnd [Heq|Hin].
  - injection Heq as -> ->. rewrite String.eqb_refl. reflexivity.
  - inversion Hnd as [|? ? Hnotin Hnd']; subst.
    destruct (String.eqb_spec k k0) as [->|Hne].
    + exfalso. apply Hnotin. change (In k0 (PyDict.keys d)).
      apply (in_map fst) in Hin. exact Hin.
    + apply IH; assumption.
Qed.

Lemma keys_set k (v : V) d :
  PyDict.keys (PyDict.set k v d)
  = if existsb (String.eqb k) (PyDict.keys d) then PyDict.keys d
    else (PyDict.keys d ++ [k])%list.
Proof.
  induction d as [|[k0 v0] d IH]; simpl; [reflexivity|].
  destruct (String.eqb_spec k k0) as [->|Hne]; simpl; [reflexivity|].
  change (map fst (PyDict.set k v d)) with (PyDict.keys (PyDict.set k v d)).
  rewrite IH.
  destruct (existsb (String.eqb k) (PyDict.keys d)); reflexivity.
Qed.

Lemma nodup_set k (v : V) d :
  NoDup (PyDict.keys d) -> NoDup (PyDict.keys (PyDict.set k v d)).
Proof.
  intros Hnd. rewrite keys_set.
  destruct (existsb (String.eqb k) (PyDict.keys d)) eqn:He; [exact Hnd|].
  apply NoDup_app; [exact Hnd | repeat constructor; simpl; tauto |].
  intros x Hx [Hk|[]]. subst x.
  assert (existsb (String.eqb k) (PyDict.keys d) = true).
  { apply existsb_exists. exists k. split; [exact Hx | apply String.eqb_refl]. }
  congruence.
Qed.

End DictFacts.

(** *** The listing order of a dictionary: [arrange] keeps the entries *)

Section ArrangeFacts.
Context {order : DictOrder} {V : Type}.

Lemma entries_keys (d : PyDict.dict V) (l : list string) :
  (forall k, In k l -> PyDict.get k d <> None) ->
  PyDict.keys (flat_map (fun k => match PyDict.get k d with
                                  | Some v => [(k, v)]
                                  | None => []
                                  end) l) = l.
Proof.
  induction l as [|a l IH]; intros Hl; simpl; [reflexivity|].
  unfold PyDict.keys in *. rewrite map_app, IH by (intros k Hk; apply Hl; right; exact Hk).
  specialize (Hl a (or_introl eq_refl)).
  destruct (PyDict.get a d); [reflexivity | congruence].
Qed.

Lemma entries_get (d : PyDict.dict V) (l : list string) (k : string) :
  PyDict.get k (flat_map (fun k => match PyDict.get k d with
                                   | Some v => [(k, v)]
                                   | None => []
                                   end) l)
  = if existsb (String.eqb k) l then PyDict.get k d else None.
Proof.
  induction l as [|a l IH]; simpl; [reflexivity|].
  destruct (String.eqb_spec k a) as [->|Hne]; simpl.
  - destruct (PyDict.get a d) as [v|] eqn:Ha; simpl.
    + rewrite String.eqb_refl. reflexivity.
    + rewrite IH. destruct (existsb (String.eqb a) l); reflexivity.
  - destruct (PyDict.get a d) as [v|]; simpl; [|exact IH].
    destruct (String.eqb_spec k a); [congruence | exact IH].
Qed.

Lemma keys_order_in (l : list string) (k : string) : In k (keys_order l) <-> In k l.
Proof.
  split; apply Permutation_in;
    [apply keys_order_perm | apply Permutation_sym, keys_order_perm].
Qed.

Lemma keys_arrange (d : PyDict.dict V) :
  PyDict.keys (arrange d) = keys_order (PyDict.keys d).
Proof.
  apply entries_keys. intros k Hk. apply get_in_keys, keys_order_in, Hk.
Qed.

Lemma get_arrange (k : string) (d : PyDict.dict V) :
  PyDict.get k (arrange d) = PyDict.get k d.
Proof.
  unfold arrange. rewrite entries_get.
  destruct (existsb (String.eqb k) (keys_order (PyDict.keys d))) eqn:He; [reflexivity|].
  destruct (PyDict.get k d) eqn:Hk; [|reflexivity].
  assert (Hin : In k (keys_order (PyDict.keys d))).
  { apply keys_order_in, get_in_keys. congruence. }
  assert (Ht : existsb (String.eqb k) (keys_order (PyDict.keys d)) = true).
  { apply existsb_exists. exists k. split; [exact Hin | apply String.eqb_refl]. }
  congruence.
Qed.

Lemma nodup_arrange (d : PyDict.dict V) :
  NoDup (PyDict.keys d) -> NoDup (PyDict.keys (arrange d)).
Proof.
  intros Hnd. rewrite keys_arrange.
  apply (Permutation_NoDup (Permutation_sym (keys_order_perm _)) Hnd).
Qed.

Lemma in_arrange (k : string) (v : V) (d : PyDict.dict V) :
  In (k, v) (arrange d) -> In (k, v) d.
Proof.
  unfold arrange. rewrite in_flat_map. intros (k' & _ & Hin).
  destruct (PyDict.get k' d) as [v'|] eqn:Hk'; [|contradiction].
  destruct Hin as [Heq|[]]. injection Heq as -> ->.
  apply get_some_in, Hk'.
Qed.

Lemma forall_arrange (Q : string * V -> Prop) (d : PyDict.dict V) :
  Forall Q d -> Forall Q (arrange d).
Proof.
  rewrite !Forall_forall. intros H [k v] Hin. apply H, in_arrange, Hin.
Qed.

Lemma arrange_nil (d : PyDict.dict V) : arrange d = [] <-> d = [].
Proof.
  split.
  - intros H. destruct d as [|[k v] d]; [reflexivity|].
    pose proof (get_arrange k ((k, v) :: d)) as Hg. rewrite H in Hg. simpl in Hg.
    rewrite String.eqb_refl in Hg. discriminate.
  - intros ->. unfold arrange. simpl.
    pose proof (keys_order_perm (@nil string)) as Hp.
    apply Permutation_sym, Permutation_nil in Hp. rewrite Hp. reflexivity.
Qed.

End ArrangeFacts.

(* ------------------------------------------------------------------------- *)
(** ** Greatest and least of a list of loads *)







(* ------------------------------------------------------------------------- *)
(** ** The target selectors: facts *)

Lemma set_forall_values {V} (Q : V -> Prop) k v (d : PyDict.dict V) :
  Forall (fun ke => Q (snd ke)) d -> Q v ->
  Forall (fun ke => Q (snd ke)) (PyDict.set k v d).
Proof.
  intros Hd Hv. induction d as [|[k0 v0] d IH]; simpl.
  - constructor; auto.
  - inversion Hd; subst. destruct (String.eqb k k0); constructor; auto.
Qed.

(** The dictionary built by [Picker.__init__]: distinct keys, empty queues. *)
Lemma picker_dest_loop_fresh (src_agent : Agent) (agents : list Agent) :
  let d := picker_dest_loop src_agent agents in
  NoDup (PyDict.keys d) /\ Forall (fun ke => de_routers (snd ke) = []) d.
Proof.
  unfold picker_dest_loop.
  assert (H : forall acc : PyDict.dict DestEntry,
             NoDup (PyDict.keys acc) /\ Forall (fun ke => de_routers (snd ke) = []) acc ->
             let d := fold_left
                        (fun d agent =>
                           if agent_alive agent && agent_admin_state_up agent
                              && negb (String.eqb (agent_id agent) (agent_id src_agent))
                           then PyDict.set (agent_id agent)
                                  {| de_agent := agent; de_routers := [] |} d
                           else d) agents acc in
             NoDup (PyDict.keys d) /\ Forall (fun ke => de_routers (snd ke) = []) d).
  { induction agents as [|a agents IH]; intros acc Hacc; simpl; [exact Hacc|].
    apply IH. destruct Hacc as [Hnd Hq].
    destruct (agent_alive a && agent_admin_state_up a
              && negb (String.eqb (agent_id a) (agent_id src_agent))); [|auto].
    split; [apply nodup_set, Hnd|].
    apply (set_forall_values (fun e => de_routers e = [])); auto. }
  apply H. split; constructor.
Qed.

(** The totals with which [BalancePicker.init] starts: the reported number
    of routers of every destination. *)
Lemma balance_totals_spec (d : PyDict.dict DestEntry) (ks : list string)
    (acc : PyDict.dict Z) :
  (forall k, In k ks -> PyDict.get k d <> None) ->
  exists totals,
    balance_totals d ks acc = Ret totals
    /\ forall k, PyDict.get k totals
                 = if existsb (String.eqb k) ks
                   then option_map (fun e => agent_routers (de_agent e)) (PyDict.get k d)
                   else PyDict.get k acc.
Proof.
  revert acc. induction ks as [|a ks IH]; intros acc Hks; simpl.
  - eexists; split; [reflexivity | reflexivity].
  - unfold getitem.
    destruct (PyDict.get a d) as [e|] eqn:Ha;
      [|exfalso; apply (Hks a); [left; reflexivity | exact Ha]].
    simpl.
    destruct (IH (PyDict.set a (agent_routers (de_agent e)) acc)) as (totals & Ht & Hget).
    { intros k Hk. apply Hks. right; exact Hk. }
    exists totals. split; [exact Ht|].
    intros k. rewrite Hget, get_set.
    destruct (String.eqb_spec k a) as [->|Hne]; simpl.
    + rewrite Ha. destruct (existsb (String.eqb a) ks); reflexivity.
    + reflexivity.
Qed.



Lemma picks_positions (D j : nat) (routers : list Router) (c : nat) :
  picks D c j routers
  = map snd (filter (fun kr => Nat.eqb (Nat.modulo (fst kr) D) j)
                    (combine (seq c (List.length routers)) routers)).
Proof.
  revert c. induction routers as [|r rs IH]; intros c; simpl; [reflexivity|].
  rewrite IH. destruct (Nat.eqb (Nat.modulo c D) j); reflexivity.
Qed.

Lemma nth_error_combine_seq {A} (l : list A) (c i : nat) (x : A) :
  nth_error l i = Some x -> In ((c + i)%nat, x) (combine (seq c (List.length l)) l).
Proof.
  revert c i. induction l as [|y l IH]; intros c i H.
  - destruct i; discriminate.
  - destruct i as [|i]; simpl in *.
    + injection H as ->. left. f_equal. lia.
    + right. replace (c + S i)%nat with (S c + i)%nat by lia. apply IH, H.
Qed.

Lemma cycle_loop_spec (routers : list Router) :
  forall (p : Picker) (c : nat),
    let ks := dest_cycle_keys p in
    let D := List.length ks in
    D <> 0%nat -> NoDup ks ->
    (forall k, In k ks -> PyDict.get k (dest p) <> None) ->
    dest_cycle_pos p = Nat.modulo c D ->
    exists p',
      cycle_loop routers p = Ret p'
      /\ PyDict.keys (dest p') = PyDict.keys (dest p)
      /\ forall j k, nth_error ks j = Some k ->
                     queue_of p' k = (queue_of p k ++ picks D c j routers)%list.
Proof.
  induction routers as [|router routers IH]; intros p c ks D HD Hnd Hks Hpos.
  - simpl. exists p. split; [reflexivity|]. split; [reflexivity|].
    intros j k _. rewrite app_nil_r. reflexivity.
  - simpl. unfold dest_cycle_next. fold ks. rewrite Hpos.
    assert (Hlt : (Nat.modulo c D < D)%nat) by (apply Nat.mod_upper_bound; exact HD).
    destruct (nth_error ks (Nat.modulo c D)) as [k0|] eqn:Hk0;
      [|apply nth_error_None in Hk0; fold D in Hk0; lia].
    simpl. unfold getitem.
    assert (Hin0 : PyDict.get k0 (dest p) <> None)
      by (apply Hks; eapply nth_error_In; eauto).
    destruct (PyDict.get k0 (dest p)) as [e0|] eqn:He0; [clear Hin0 | congruence].
    simpl.
    set (p1 := set_cycle_pos (Nat.modulo (S (Nat.modulo c D)) (List.length ks)) p).
    set (p2 := set_dest (PyDict.update k0 (append_router router) (dest p1)) p1).
    destruct (IH p2 (S c)) as (p' & Hloop & Hkeys & Hq).
    + exact HD.
    + exact Hnd.
    + intros k Hk. simpl. rewrite get_update.
      specialize (Hks k Hk).
      destruct (String.eqb k k0); [|exact Hks].
      destruct (PyDict.get k (dest p)); [discriminate | congruence].
    + simpl. fold ks D.
      replace (S (Nat.modulo c D)) with (Nat.modulo c D + 1)%nat by lia.
      rewrite Nat.Div0.add_mod_idemp_l. f_equal. lia.
    + exists p'. split; [exact Hloop|]. split.
      * rewrite Hkeys. simpl. apply keys_update.
      * intros j k Hj. simpl in Hq. fold ks D in Hq. rewrite (Hq j k Hj).
        assert (Hq2 : queue_of p2 k
                      = if String.eqb k k0 then (queue_of p k ++ [router])%list
                        else queue_of p k).
        { unfold p2. change (dest p1) with (dest p).
          unfold queue_of; simpl. rewrite get_update.
          destruct (String.eqb_spec k k0) as [->|Hne]; [|reflexivity].
          rewrite He0. reflexivity. }
        rewrite Hq2.
        destruct (String.eqb_spec k k0) as [->|Hne].
        -- assert (j = Nat.modulo c D).
           { eapply (proj1 (NoDup_nth_error ks) Hnd); [|congruence].
             apply nth_error_Some. congruence. }
           subst j. rewrite Nat.eqb_refl. rewrite <- app_assoc. reflexivity.
        -- destruct (Nat.eqb_spec (Nat.modulo c D) j) as [<-|Hj']; [congruence|].
           reflexivity.
Qed.

(* ------------------------------------------------------------------------- *)
(** ** The target selectors: what [init] assigns *)

Section PickerResults.
Context {W : Type} {neutron : NeutronClient W} {order : DictOrder}.

(** What [Picker.__init__] builds. *)
Lemma Picker_init_fresh (src_agent : Agent) (s0 s1 : St W) (p : Picker) :
  Picker_init src_agent s0 = (Ret p, s1) ->
  picker_src_agent p = src_agent
  /\ dest_cycle_keys p = PyDict.keys (dest p)
  /\ dest_cycle_pos p = 0%nat
  /\ NoDup (PyDict.keys (dest p))
  /\ Forall (fun ke => de_routers (snd ke) = []) (dest p).
Proof.
  unfold Picker_init, bind, neutron_list_agents, call.
  destruct (list_agents (world s0)) as [[agents|e] w']; simpl; [|discriminate].
  intros H. injection H as <- _. simpl.
  destruct (picker_dest_loop_fresh src_agent agents) as [Hnd Hq].
  repeat split; [apply nodup_arrange, Hnd | apply forall_arrange, Hq].
Qed.

Lemma list_routers_call (a : string) (s : St W) r w' :
  list_routers_on_l3_agent a (world s) = (r, w') ->
  neutron_list_routers_on_l3_agent a s
  = (r, {| world := w'; trace := trace s ++ [EvListRouters a] |}).
Proof.
  intros H. unfold neutron_list_routers_on_l3_agent, call. rewrite H. reflexivity.
Qed.

(** C2 (as the code behaves). With no eligible destination and at least one
    router on the source agent, [BalancePicker.init] raises [ValueError] and
    [CyclePicker.init] raises [StopIteration]; they return, with the count 0,
    only when the source agent hosts no router. *)
Theorem init_without_destinations (src_agent : Agent) (s0 s1 s : St W)
    (p : Picker) (routers : list Router) (w' : W) :
  Picker_init src_agent s0 = (Ret p, s1) ->
  dest p = [] ->
  list_routers_on_l3_agent (agent_id src_agent) (world s) = (Ret routers, w') ->
  (routers <> [] ->
   (exists msg, fst (BalancePicker_init p s) = Raise (ValueError msg))
   /\ fst (CyclePicker_init p s) = Raise StopIteration)
  /\ (routers = [] ->
      (exists p', fst (BalancePicker_init p s) = Ret (0%nat, p'))
      /\ (exists p', fst (CyclePicker_init p s) = Ret (0%nat, p'))).
Proof.
  intros Hinit Hdest Hlist.
  destruct (Picker_init_fresh _ _ _ _ Hinit) as (Hsrc & Hkeys & Hpos & _ & _).
  rewrite Hdest in Hkeys. simpl in Hkeys.
  assert (Hnil : arrange (@nil (string * Z)) = []) by (apply arrange_nil; reflexivity).
  unfold BalancePicker_init, CyclePicker_init, bind.
  rewrite Hsrc, (list_routers_call _ _ _ _ Hlist). simpl. rewrite Hdest. simpl.
  rewrite Hnil.
  split.
  - intros Hne. destruct routers as [|r rs]; [congruence|]. simpl.
    split; [eauto|].
    unfold dest_cycle_next. simpl. rewrite Hkeys, Hpos. reflexivity.
  - intros ->. simpl. eauto.
Qed.

End PickerResults.


(* ------------------------------------------------------------------------- *)
(** ** The statements on concrete runs *)

Section ConcreteRuns.
Import Runs.
#[local] Existing Instance insertion_order.

(** The listing of a namespace that does not exist is empty. *)
Lemma list_nics_outcomes_witness :
  fst (remote_exec "host-1" (_cmd_list_nic_in_netns "qrouter-r1") world_unowned)
  = (1, "", "Cannot open network namespace: No such file or directory")
  /\ fst (_list_nics_in_netns_on_remote "host-1" "qrouter-r1" (mock_start world_unowned))
     = Ret [].
Proof.
  assert (Hexec : fst (remote_exec "host-1" (_cmd_list_nic_in_netns "qrouter-r1")
                         (world (mock_start world_unowned)))
                  = (1, "", "Cannot open network namespace: No such file or directory"))
    by reflexivity.
  split; [exact Hexec|].
  destruct (list_nics_outcomes "host-1" "qrouter-r1" (mock_start world_unowned)
              1 "" "Cannot open network namespace: No such file or directory" Hexec)
    as (_ & Hiff & _).
  apply Hiff; [discriminate | vm_compute; reflexivity].
Defined.

(** Two cleanups in a row of a namespace that does not exist. *)
Lemma ensure_clean_idempotent_witness :
  let s := mock_start world_unowned in
  let listing := EvRun "host-1" (_cmd_list_nic_in_netns "qrouter-r1") in
  exists s2,
    (first <- _ensure_clean_router_on_host a1 r1 ;;
     second <- _ensure_clean_router_on_host a1 r1 ;;
     ret (first, second)) s = (Ret (true, true), s2)
    /\ trace s2 = [listing; listing].
Proof.
  intros s listing.
  destruct (ensure_clean_idempotent a1 r1 s) as (_ & _ & Htwice).
  assert (H1 : _list_nics_in_netns_on_remote "host-1" "qrouter-r1" s
               = (Ret [], after_run "host-1" (_cmd_list_nic_in_netns "qrouter-r1") s))
    by reflexivity.
  assert (H2 : _list_nics_in_netns_on_remote "host-1" "qrouter-r1"
                 (after_run "host-1" (_cmd_list_nic_in_netns "qrouter-r1") s)
               = (Ret [], after_run "host-1" (_cmd_list_nic_in_netns "qrouter-r1")
                            (after_run "host-1" (_cmd_list_nic_in_netns "qrouter-r1") s)))
    by reflexivity.
  eexists.
  destruct (Htwice _ _ H1 H2) as (Hrun & Htrace & _).
  split; [exact Hrun | exact Htrace].
Defined.

(** A namespace that holds only "lo" is clean. *)
Lemma loopback_never_cleaned_witness :
  let s := mock_start world_only_lo in
  _ensure_clean_router_on_host a1 r1 s
  = (Ret true, after_run "host-1" (_cmd_list_nic_in_netns "qrouter-r1") s).
Proof.
  intros s.
  destruct (loopback_never_cleaned a1 r1 s) as (_ & Hlo & _).
  apply (Hlo ""). reflexivity.
Defined.

(** C1, on a run: the host of the destination cannot be reached, the
    interface listing raises, and the router is reported as verified. *)
Lemma ensure_router_added_masks_errors_witness :
  let s := mock_start world_unreachable in
  (exists s1, _ensure_router_added_try a1 r1 s
              = (Raise (Exception "Failed list nics in namespace qrouter-r1 on host [host-1]"), s1))
  /\ fst (_ensure_router_added a1 r1 s) = Ret true.
Proof.
  intros s.
  destruct (_ensure_router_added_try a1 r1 s) as [r s1] eqn:Htry.
  assert (Hr : r = Raise (Exception "Failed list nics in namespace qrouter-r1 on host [host-1]")).
  { change r with (fst (r, s1)). rewrite <- Htry. vm_compute. reflexivity. }
  subst r. split; [exists s1; reflexivity|].
  pose proof (ensure_router_added_masks_errors a1 r1 s s1 _ Htry) as Hmask.
  rewrite Hmask. reflexivity.
Defined.

(** C2, on a run: the source agent is the only L3 agent and hosts a router. *)
Lemma init_without_destinations_witness :
  let s0 := mock_start world_no_dest in
  exists p s1,
    Picker_init a_src s0 = (Ret p, s1) /\ dest p = []
    /\ (exists msg, fst (BalancePicker_init p s1) = Raise (ValueError msg))
    /\ fst (CyclePicker_init p s1) = Raise StopIteration.
Proof.
  intros s0.
  destruct (Picker_init a_src s0) as [r s1] eqn:Hinit.
  assert (Hr : exists p, r = Ret p /\ dest p = []).
  { change r with (fst (r, s1)). rewrite <- Hinit. vm_compute.
    eexists; split; reflexivity. }
  destruct Hr as (p & -> & Hdest).
  assert (Hlist : list_routers_on_l3_agent (agent_id a_src) (world s1)
                  = (Ret [r1], world s1)).
  { change s1 with (snd (Ret p, s1)). rewrite <- Hinit. reflexivity. }
  destruct (init_without_destinations a_src s0 s1 s1 p [r1] (world s1)
              Hinit Hdest Hlist) as [Hraise _].
  exists p, s1. split; [reflexivity|]. split; [exact Hdest|].
  apply Hraise. discriminate.
Defined.

(** The detach succeeds at the third request; the router has no enabled
    port, and the migration touches no host. *)
Lemma migrate_router_no_enabled_ports_witness :
  let s := mock_start world_flaky in
  fst (migrate_router cfg2 a_src a1 r1 None s) = Ret tt
  /\ Forall (fun e => is_remote e = false) (emitted (migrate_router cfg2 a_src a1 r1 None) s).
Proof.
  intros s.
  assert (Hports : forall added s1 s2,
             _remove_router cfg2 a_src r1 (cfg_retry cfg2) s = (Ret true, s1) ->
             _add_router cfg2 a1 r1 (cfg_retry cfg2) s1 = (added, s2) ->
             fst (list_ports (router_id r1) (Some true) (world s2)) = Ret []).
  { intros added s1 s2 Hrem Hadd.
    vm_compute in Hrem. injection Hrem as <-.
    vm_compute in Hadd. injection Hadd as _ <-. reflexivity. }
  destruct (migrate_router_no_enabled_ports cfg2 a_src a1 r1 None s Hports)
    as (_ & Hret & Hremote).
  split; [exact Hret | exact Hremote].
Defined.

(** Two failed detach requests, then a success: with two retries the attach
    is requested, with one retry the migration ends without it.  And a
    detach request that is cut short by another exception: the detach is
    reported as done at the first attempt, the attach is requested, and the
    router ends hosted by the source agent and by the target. *)
Lemma remove_router_retry_budget_witness :
  let s := mock_start world_flaky in
  let sc := crash_start world_flaky in
  (remove_attempt_fails cfg2 0 a_src r1 s = true
   /\ remove_attempt_fails cfg2 1 a_src r1 s = true
   /\ remove_attempt_fails cfg2 2 a_src r1 s = false)
  /\ (fst (_remove_router cfg2 a_src r1 2 s) = Ret true
      /\ In (EvAddRouter "a1" "r1") (emitted (migrate_router cfg2 a_src a1 r1 None) s))
  /\ (fst (_remove_router cfg1 a_src r1 1 s) = Ret false
      /\ Forall (fun e => is_attach e = false)
                (emitted (migrate_router cfg1 a_src a1 r1 None) s))
  /\ (remove_attempt_result cfg1 0 a_src r1 sc
      = AttemptAborted (Exception "Connection reset by peer")
      /\ _remove_router cfg1 a_src r1 1 sc
         = (Ret true, {| world := mkCrash world_flaky;
                         trace := [EvRemoveRouter "src" "r1"] |})
      /\ In (EvAddRouter "a1" "r1") (emitted (migrate_router cfg1 a_src a1 r1 None) sc)
      /\ map agent_id
           (mock_hosting
              (crash_inner (world (snd (migrate_router cfg1 a_src a1 r1 None sc)))))
         = ["src"; "a1"]).
Proof.
  intros s sc.
  assert (F0 : remove_attempt_fails cfg2 0 a_src r1 s = true) by (vm_compute; reflexivity).
  assert (F1 : remove_attempt_fails cfg2 1 a_src r1 s = true) by (vm_compute; reflexivity).
  assert (F2 : remove_attempt_fails cfg2 2 a_src r1 s = false) by (vm_compute; reflexivity).
  assert (G0 : remove_attempt_fails cfg1 0 a_src r1 s = true) by (vm_compute; reflexivity).
  assert (G1 : remove_attempt_fails cfg1 1 a_src r1 s = true) by (vm_compute; reflexivity).
  assert (G2 : remove_attempt_fails cfg1 2 a_src r1 s = false) by (vm_compute; reflexivity).
  assert (A0 : remove_attempt_result cfg1 0 a_src r1 sc
               = AttemptAborted (Exception "Connection reset by peer"))
    by (vm_compute; reflexivity).
  destruct (remove_router_retry_budget cfg2 a_src a1 r1 s) as (_ & _ & Hscenario2 & _).
  destruct (remove_router_retry_budget cfg1 a_src a1 r1 s) as (_ & _ & Hscenario1 & _).
  destruct (remove_router_retry_budget cfg1 a_src a1 r1 sc) as (_ & _ & _ & Habort).
  destruct (Hscenario2 F0 F1 F2) as [Htwo _].
  destruct (Hscenario1 G0 G1 G2) as [_ Hone].
  destruct (Htwo eq_refl) as [Hrem2 Hattach].
  destruct (Hone eq_refl) as (Hrem1 & _ & Hnone).
  destruct (Habort _ A0) as [Hdone Hattachc].
  split; [repeat split; assumption|].
  split; [split; assumption|].
  split; [split; assumption|].
  split; [exact A0|]. split; [rewrite Hdone; vm_compute; reflexivity|].
  split; [exact Hattachc|]. vm_compute. reflexivity.
Defined.

(** No agent hosts the router: the attach to the source agent is requested. *)
Lemma retry_failed_router_unowned_witness :
  let s := mock_start world_unowned in
  In (EvAddRouter "src" "r1") (emitted (_retry_failed_router cfg1 r1 a_src 1) s).
Proof.
  intros s.
  destruct (retry_failed_router_unowned cfg1 r1 a_src 1 s) as (_ & Hunowned & _).
  assert (Hlist : neutron_list_l3_agent_hosting_routers (router_id r1) s
                  = (Ret [], {| world := world_unowned;
                                trace := [EvListHosting "r1"] |})) by reflexivity.
  assert (Hpos : 0 <= 1) by lia.
  exact (proj2 (Hunowned Hpos _ Hlist)).
Defined.

End ConcreteRuns.

(* ------------------------------------------------------------------------- *)
(** ** The target selectors: building the destinations *)

Lemma pop_last_some {A} (l l' : list A) (x : A) :
  pop_last l = Some (x, l') <-> l = (l' ++ [x])%list.
Proof.
  unfold pop_last. split.
  - destruct (rev l) as [|y r] eqn:Hr; [discriminate|].
    intros H. injection H as -> <-.
    rewrite <- (rev_involutive l), Hr. reflexivity.
  - intros ->. rewrite rev_app_distr. simpl. rewrite rev_involutive. reflexivity.
Qed.

Lemma pop_last_none {A} (l : list A) : pop_last l = None <-> l = [].
Proof.
  unfold pop_last. split.
  - destruct (rev l) as [|y r] eqn:Hr; [|discriminate].
    intros _. rewrite <- (rev_involutive l), Hr. reflexivity.
  - intros ->. reflexivity.
Qed.

Lemma picker_dest_loop_entries (src_agent : Agent) (agents : list Agent) :
  let d := picker_dest_loop src_agent agents in
  (forall k e, PyDict.get k d = Some e ->
     In (de_agent e) agents /\ agent_id (de_agent e) = k
     /\ eligible src_agent (de_agent e) = true)
  /\ (forall a, In a agents -> eligible src_agent a = true ->
       PyDict.get (agent_id a) d <> None).
Proof.
  unfold picker_dest_loop.
  set (step := fun (d : PyDict.dict DestEntry) agent =>
                 if agent_alive agent && agent_admin_state_up agent
                    && negb (String.eqb (agent_id agent) (agent_id src_agent))
                 then PyDict.set (agent_id agent)
                        {| de_agent := agent; de_routers := [] |} d
                 else d).
  assert (H : forall (done : list Agent) (acc : PyDict.dict DestEntry),
             (forall k e, PyDict.get k acc = Some e ->
                In (de_agent e) done /\ agent_id (de_agent e) = k
                /\ eligible src_agent (de_agent e) = true) ->
             (forall a, In a done -> eligible src_agent a = true ->
                PyDict.get (agent_id a) acc <> None) ->
             let d := fold_left step agents acc in
             (forall k e, PyDict.get k d = Some e ->
                In (de_agent e) (done ++ agents) /\ agent_id (de_agent e) = k
                /\ eligible src_agent (de_agent e) = true)
             /\ (forall a, In a (done ++ agents) -> eligible src_agent a = true ->
                  PyDict.get (agent_id a) d <> None)).
  { induction agents as [|a agents IH]; intros done acc H1 H2; simpl.
    - rewrite app_nil_r. split; assumption.
    - replace (done ++ a :: agents)%list with ((done ++ [a]) ++ agents)%list
        by (rewrite <- app_assoc; reflexivity).
      apply IH.
      + intros k e. unfold step. fold (eligible src_agent a).
        destruct (eligible src_agent a) eqn:Ha.
        * rewrite get_set. destruct (String.eqb_spec k (agent_id a)) as [->|Hne].
          -- intros H. injection H as <-. simpl.
             split; [apply in_or_app; right; left; reflexivity | auto].
          -- intros H. destruct (H1 k e H) as (Hin & Hid & He).
             split; [apply in_or_app; left; exact Hin | auto].
        * intros H. destruct (H1 k e H) as (Hin & Hid & He).
          split; [apply in_or_app; left; exact Hin | auto].
      + intros b Hb Hel. unfold step. fold (eligible src_agent a).
        apply in_app_or in Hb.
        destruct (eligible src_agent a) eqn:Ha.
        * rewrite get_set.
          destruct (String.eqb_spec (agent_id b) (agent_id a)) as [_|Hne]; [discriminate|].
          destruct Hb as [Hb|[<-|[]]]; [apply H2; assumption | congruence].
        * destruct Hb as [Hb|[<-|[]]]; [apply H2; assumption | congruence]. }
  apply (H [] []).
  - intros k e Hk. discriminate.
  - intros a [].
Qed.

(* ------------------------------------------------------------------------- *)
(** ** The target selectors: [get_next] and [has_next] *)

Lemma picker_wf_update (p : Picker) (k : string) (f : DestEntry -> DestEntry) (n : nat) :
  picker_wf p ->
  (forall e, de_agent (f e) = de_agent e) ->
  (dest p = [] \/ (n < List.length (PyDict.keys (dest p)))%nat) ->
  picker_wf (set_dest (PyDict.update k f (dest p)) (set_cycle_pos n p)).
Proof.
  intros (Hcyc & Hnd & Hpos & Hid) Hf Hn.
  unfold picker_wf; simpl. rewrite keys_update.
  split; [exact Hcyc|]. split; [exact Hnd|]. split.
  - destruct Hn as [E|Hn]; [left; rewrite E; reflexivity | right; exact Hn].
  - intros k0 e. rewrite get_update.
    destruct (String.eqb k0 k); [|apply Hid].
    destruct (PyDict.get k0 (dest p)) as [e0|] eqn:He0; simpl; [|discriminate].
    intros H. injection H as <-. rewrite Hf. apply Hid; exact He0.
Qed.

Lemma has_next_queue (p : Picker) :
  has_next p = true <->
  exists k e, In (k, e) (dest p) /\ de_routers e <> [].
Proof.
  unfold has_next. rewrite existsb_exists. split.
  - intros ([k e] & Hin & Hlen). exists k, e. split; [exact Hin|].
    simpl in Hlen. destruct (de_routers e); [discriminate | discriminate].
  - intros (k & e & Hin & Hne). exists (k, e). split; [exact Hin|].
    simpl. destruct (de_routers e); [congruence | reflexivity].
Qed.

Lemma get_next_loop_spec (candidate : nat) :
  forall p : Picker,
    picker_wf p -> dest p <> [] ->
    let ks := PyDict.keys (dest p) in
    let D := List.length ks in
    exists next p',
      get_next_loop candidate p = Ret (next, p')
      /\ picker_wf p'
      /\ match next with
         | None =>
             dest p' = dest p
             /\ forall j k, (j < candidate)%nat ->
                  nth_error ks (Nat.modulo (dest_cycle_pos p + j) D) = Some k ->
                  queue_of p k = []
         | Some (agent, router) =>
             exists e rest,
               PyDict.get (agent_id agent) (dest p) = Some e
               /\ agent = de_agent e
               /\ de_routers e = (rest ++ [router])%list
               /\ dest p' = PyDict.update (agent_id agent) (set_routers rest) (dest p)
         end.
Proof.
  induction candidate as [|c IH]; intros p Hwf Hne ks D.
  - simpl. exists None, p. split; [reflexivity|]. split; [exact Hwf|].
    split; [reflexivity|]. intros j k Hj. lia.
  - pose proof Hwf as (Hcyc & Hnd & [Hpos|Hpos] & Hid); [congruence|].
    fold ks D in Hpos.
    assert (HD : D <> 0%nat) by lia.
    simpl. unfold dest_cycle_next. rewrite Hcyc. fold ks D.
    destruct (nth_error ks (dest_cycle_pos p)) as [k0|] eqn:Hk0;
      [|apply nth_error_None in Hk0; fold D in Hk0; lia].
    simpl. unfold getitem.
    assert (Hin0 : PyDict.get k0 (dest p) <> None)
      by (apply get_in_keys; eapply nth_error_In; eauto).
    destruct (PyDict.get k0 (dest p)) as [e0|] eqn:He0; [clear Hin0 | congruence].
    simpl.
    set (p1 := set_cycle_pos (Nat.modulo (S (dest_cycle_pos p)) D) p).
    assert (Hwf1 : picker_wf p1).
    { unfold picker_wf, p1; simpl. split; [exact Hcyc|]. split; [exact Hnd|].
      split; [|exact Hid]. right. fold ks D. apply Nat.mod_upper_bound; exact HD. }
    destruct (pop_last (de_routers e0)) as [[router rest]|] eqn:Hpop.
    + apply pop_last_some in Hpop.
      pose proof (Hid k0 e0 He0) as Hk.
      eexists (Some (de_agent e0, router)), _. split; [reflexivity|]. split.
      * apply picker_wf_update; [exact Hwf | reflexivity|].
        right. fold ks D. apply Nat.mod_upper_bound; exact HD.
      * exists e0, rest. rewrite Hk. simpl. auto.
    + apply pop_last_none in Hpop.
      destruct (IH p1 Hwf1 Hne) as (next & p' & Hloop & Hwf' & Hnext).
      exists next, p'. split; [exact Hloop|]. split; [exact Hwf'|].
      destruct next as [[agent router]|].
      * exact Hnext.
      * destruct Hnext as [Hd Hq]. split; [exact Hd|].
        intros j k Hj Hnth. destruct j as [|j].
        -- rewrite Nat.add_0_r, Nat.mod_small in Hnth by exact Hpos.
           assert (k = k0) by congruence. subst k.
           unfold queue_of. rewrite He0. exact Hpop.
        -- apply (Hq j k); [lia|]. simpl. fold ks D.
           rewrite Nat.Div0.add_mod_idemp_l.
           replace (S (dest_cycle_pos p) + j)%nat with (dest_cycle_pos p + S j)%nat by lia.
           exact Hnth.
Qed.

Lemma flat_map_update_pop (d : PyDict.dict DestEntry) (k : string) (e : DestEntry)
    (rest : list Router) (router : Router) :
  PyDict.get k d = Some e -> de_routers e = (rest ++ [router])%list ->
  Permutation
    (flat_map (fun ke => de_routers (snd ke)) d)
    (router :: flat_map (fun ke => de_routers (snd ke))
                        (PyDict.update k (set_routers rest) d)).
Proof.
  intros Hget Hq. induction d as [|[k0 e0] d IH]; simpl in *; [discriminate|].
  destruct (String.eqb k k0).
  - injection Hget as ->. simpl. rewrite Hq.
    rewrite <- app_assoc. simpl.
    apply Permutation_sym.
    apply (Permutation_middle rest _ router).
  - simpl. specialize (IH Hget).
    eapply Permutation_trans.
    + apply Permutation_app_head, IH.
    + apply Permutation_sym, Permutation_middle.
Qed.

(** When [get_next] hands out a router, the queue of its agent loses its
    last element and nothing else changes; [get_next] hands out nothing
    exactly when [has_next] is false. *)
Lemma get_next_spec (p : Picker) :
  picker_wf p ->
  exists next p',
    get_next p = Ret (next, p')
    /\ picker_wf p'
    /\ (next = None <-> has_next p = false)
    /\ match next with
       | None => dest p' = dest p
       | Some (agent, router) =>
           exists e rest,
             PyDict.get (agent_id agent) (dest p) = Some e
             /\ agent = de_agent e
             /\ de_routers e = (rest ++ [router])%list
             /\ dest p' = PyDict.update (agent_id agent) (set_routers rest) (dest p)
       end.
Proof.
  intros Hwf. unfold get_next.
  destruct (dest p) as [|ke d] eqn:Hd.
  - simpl. exists None, p. split; [reflexivity|]. split; [exact Hwf|].
    split; [|exact Hd]. split; [|reflexivity].
    intros _. unfold has_next. rewrite Hd. reflexivity.
  - rewrite <- Hd.
    assert (Hne : dest p <> []) by (rewrite Hd; discriminate).
    destruct (get_next_loop_spec (List.length (dest p)) p Hwf Hne)
      as (next & p' & Hloop & Hwf' & Hnext).
    exists next, p'. split; [exact Hloop|]. split; [exact Hwf'|].
    destruct Hwf as (Hcyc & Hnd & [Hpos|Hpos] & Hid); [congruence|].
    destruct next as [[agent router]|].
    + split; [|exact Hnext].
      split; [discriminate|]. intros Hfalse. exfalso.
      destruct Hnext as (e & rest & Hget & _ & Hq & _).
      assert (Htrue : has_next p = true).
      { apply has_next_queue. exists (agent_id agent), e.
        split; [apply get_some_in; exact Hget|].
        rewrite Hq. destruct rest; discriminate. }
      congruence.
    + destruct Hnext as [Hdest Hq]. split; [|exact Hdest].
      split; [|reflexivity]. intros _.
      destruct (has_next p) eqn:Hh; [|reflexivity]. exfalso.
      apply has_next_queue in Hh. destruct Hh as (k & e & Hin & Hqne).
      apply Hqne.
      assert (Hk : In k (PyDict.keys (dest p))) by (apply (in_map fst) in Hin; exact Hin).
      apply In_nth_error in Hk. destruct Hk as [i Hi].
      set (D := List.length (PyDict.keys (dest p))) in *.
      assert (Hlt : (i < D)%nat) by (apply nth_error_Some; congruence).
      assert (Hlen : List.length (dest p) = D)
        by (unfold D, PyDict.keys; rewrite length_map; reflexivity).
      specialize (Hq (Nat.modulo (i + D - dest_cycle_pos p) D) k).
      unfold queue_of in Hq. rewrite (in_get_nodup _ _ _ Hnd Hin) in Hq.
      apply Hq.
      * rewrite Hlen. apply Nat.mod_upper_bound. lia.
      * rewrite Nat.Div0.add_mod_idemp_r.
        replace (dest_cycle_pos p + (i + D - dest_cycle_pos p))%nat with (i + 1 * D)%nat by lia.
        rewrite Nat.Div0.mod_add, Nat.mod_small by exact Hlt. exact Hi.
Qed.

(* ------------------------------------------------------------------------- *)
(** ** The target selectors: draining the queues *)


Lemma same_agents_update (d : PyDict.dict DestEntry) (k : string)
    (f : DestEntry -> DestEntry) :
  (forall e, de_agent (f e) = de_agent e) -> same_agents d (PyDict.update k f d).
Proof.
  intros Hf k0. rewrite get_update. destruct (String.eqb k0 k); [|reflexivity].
  destruct (PyDict.get k0 d); simpl; [rewrite Hf|]; reflexivity.
Qed.

Lemma same_agents_trans (d1 d2 d3 : PyDict.dict DestEntry) :
  same_agents d1 d2 -> same_agents d2 d3 -> same_agents d1 d3.
Proof. intros H12 H23 k. rewrite H23, H12. reflexivity. Qed.


Section EvacuationFacts.
Context {W : Type} {neutron : NeutronClient W} {runner : RemoteExec W}.
Variable cfg : Config.
Variable self_src_agent : Agent.


End EvacuationFacts.

(* ------------------------------------------------------------------------- *)
(** ** The target selectors: what the [init] loops keep *)

Lemma flat_map_update_append (d : PyDict.dict DestEntry) (k : string) (e : DestEntry)
    (router : Router) :
  PyDict.get k d = Some e ->
  Permutation
    (flat_map (fun ke => de_routers (snd ke)) (PyDict.update k (append_router router) d))
    (flat_map (fun ke => de_routers (snd ke)) d ++ [router]).
Proof.
  intros Hget. induction d as [|[k0 e0] d IH]; simpl in *; [discriminate|].
  destruct (String.eqb k k0).
  - simpl. rewrite <- !app_assoc.
    apply Permutation_app_head.
    apply Permutation_app_comm.
  - simpl. rewrite <- app_assoc. apply Permutation_app_head, IH, Hget.
Qed.



Lemma cycle_loop_keeps (routers : list Router) :
  forall p p' : Picker,
    cycle_loop routers p = Ret p' -> picker_wf p ->
    picker_wf p'
    /\ Permutation (all_queued p') (all_queued p ++ routers)
    /\ same_agents (dest p) (dest p')
    /\ src_router_count p' = src_router_count p.
Proof.
  induction routers as [|router routers IH]; intros p p' Hloop Hwf.
  - simpl in Hloop. injection Hloop as <-.
    split; [exact Hwf|]. split; [rewrite app_nil_r; apply Permutation_refl|].
    split; [intros k; reflexivity | reflexivity].
  - simpl in Hloop. unfold dest_cycle_next in Hloop.
    destruct (nth_error (dest_cycle_keys p) (dest_cycle_pos p)) as [k0|] eqn:Hk0;
      [|discriminate].
    simpl in Hloop. unfold getitem in Hloop.
    destruct (PyDict.get k0 (dest p)) as [e0|] eqn:He0; [|discriminate].
    simpl in Hloop.
    pose proof Hwf as (Hcyc & Hnd & Hpos & Hid).
    assert (HD : (dest_cycle_pos p < List.length (PyDict.keys (dest p)))%nat).
    { rewrite <- Hcyc. apply nth_error_Some. congruence. }
    destruct (IH _ _ Hloop) as (Hwf' & Hperm & Hsame & Hcount).
    { rewrite Hcyc. apply picker_wf_update; [exact Hwf | reflexivity|].
      right. apply Nat.mod_upper_bound. lia. }
    split; [exact Hwf'|]. split; [|split].
    + eapply Permutation_trans; [exact Hperm|].
      unfold all_queued at 1. simpl.
      eapply Permutation_trans.
      * apply Permutation_app_tail. apply (flat_map_update_append _ _ e0). exact He0.
      * fold (all_queued p). rewrite <- app_assoc. apply Permutation_refl.
    + eapply same_agents_trans; [|exact Hsame].
      simpl. apply same_agents_update. reflexivity.
    + rewrite Hcount. reflexivity.
Qed.



(* ------------------------------------------------------------------------- *)
(** ** The target selectors: results *)

Section PickerOperations.
Context {W : Type} {neutron : NeutronClient W} {runner : RemoteExec W}
        {order : DictOrder}.
Variable cfg : Config.

Lemma Picker_init_dest (src_agent : Agent) (s0 s1 : St W) (p : Picker) :
  Picker_init src_agent s0 = (Ret p, s1) ->
  exists agents,
    fst (list_agents (world s0)) = Ret agents
    /\ dest p = arrange (picker_dest_loop src_agent agents).
Proof.
  unfold Picker_init, bind, neutron_list_agents, call.
  destruct (list_agents (world s0)) as [[agents|e] w']; simpl; [|discriminate].
  intros H. injection H as <- _. exists agents. auto.
Qed.

Lemma Picker_init_wf (src_agent : Agent) (s0 s1 : St W) (p : Picker) :
  Picker_init src_agent s0 = (Ret p, s1) ->
  picker_wf p /\ dest_eligible src_agent (dest p) /\ all_queued p = []
  /\ picker_src_agent p = src_agent.
Proof.
  intros Hinit.
  destruct (Picker_init_fresh _ _ _ _ Hinit) as (Hsrc & Hcyc & Hpos & Hnd & Hfresh).
  destruct (Picker_init_dest _ _ _ _ Hinit) as (agents & _ & Hd).
  destruct (picker_dest_loop_entries src_agent agents) as [Hent _].
  assert (Hget : forall k, PyDict.get k (dest p)
                           = PyDict.get k (picker_dest_loop src_agent agents))
    by (intros k; rewrite Hd; apply get_arrange).
  setoid_rewrite <- Hget in Hent.
  split; [|split; [|split]].
  - split; [exact Hcyc|]. split; [exact Hnd|]. split.
    + destruct (dest p) as [|ke d]; [left; reflexivity|].
      right. rewrite Hpos. simpl. lia.
    + intros k e He. apply (Hent k e He).
  - intros k e He. destruct (Hent k e He) as (_ & _ & Hel).
    unfold eligible in Hel.
    apply andb_true_iff in Hel. destruct Hel as [Hel Hne].
    apply andb_true_iff in Hel. destruct Hel as [Ha Hu].
    split; [exact Ha|]. split; [exact Hu|].
    apply negb_true_iff in Hne. apply String.eqb_neq in Hne. exact Hne.
  - unfold all_queued. clear -Hfresh.
    induction Hfresh as [|[k e] d He _ IH]; simpl; [reflexivity|].
    simpl in He. rewrite He. exact IH.
  - exact Hsrc.
Qed.

(** X1. The destinations of a new picker are the listed agents that are alive,
    enabled and not the source agent, each under its own id and with an
    empty queue; the source agent is never one of them. *)
Theorem picker_init_destinations (src_agent : Agent) (s0 : St W)
    (agents : list Agent) (w' : W) :
  list_agents (world s0) = (Ret agents, w') ->
  exists p s1,
    Picker_init src_agent s0 = (Ret p, s1)
    /\ (forall k, PyDict.get k (dest p) <> None <->
                  exists a, In a agents /\ agent_id a = k /\ eligible src_agent a = true)
    /\ (forall k e, PyDict.get k (dest p) = Some e ->
          In (de_agent e) agents /\ agent_id (de_agent e) = k /\ de_routers e = [])
    /\ PyDict.get (agent_id src_agent) (dest p) = None
    /\ dest_cycle_keys p = PyDict.keys (dest p) /\ dest_cycle_pos p = 0%nat.
Proof.
  intros Hlist.
  assert (Hinit : exists p s1, Picker_init src_agent s0 = (Ret p, s1)
                               /\ dest p = arrange (picker_dest_loop src_agent agents)).
  { unfold Picker_init, bind, neutron_list_agents, call. rewrite Hlist.
    eexists. eexists. split; reflexivity. }
  destruct Hinit as (p & s1 & Hinit & Hd).
  destruct (Picker_init_fresh _ _ _ _ Hinit) as (_ & Hcyc & Hpos & _ & Hfresh).
  destruct (picker_dest_loop_entries src_agent agents) as [Hent Hall].
  assert (Hget : forall k, PyDict.get k (dest p)
                           = PyDict.get k (picker_dest_loop src_agent agents))
    by (intros k; rewrite Hd; apply get_arrange).
  setoid_rewrite <- Hget in Hent. setoid_rewrite <- Hget in Hall.
  exists p, s1. split; [exact Hinit|]. split; [|split; [|split]].
  - intros k. split.
    + intros Hk. destruct (PyDict.get k (dest p)) as [e|] eqn:He; [|congruence].
      destruct (Hent k e He) as (Hin & Hid & Hel). exists (de_agent e). auto.
    + intros (a & Hin & <- & Hel). apply Hall; assumption.
  - intros k e He. destruct (Hent k e He) as (Hin & Hid & _).
    split; [exact Hin|]. split; [exact Hid|].
    apply get_some_in in He. rewrite Forall_forall in Hfresh. exact (Hfresh _ He).
  - destruct (PyDict.get (agent_id src_agent) (dest p)) as [e|] eqn:He; [|reflexivity].
    destruct (Hent _ e He) as (_ & Hid & Hel). unfold eligible in Hel.
    rewrite Hid, String.eqb_refl, andb_false_r in Hel. discriminate.
  - split; assumption.
Qed.

(** X2. [get_next] on a picker in working order never raises.  It hands out
    nothing exactly when [has_next] is false; otherwise it hands out the
    agent of a destination with the router queued last for it, and takes
    that router, and only that one, out of the queues. *)
Theorem get_next_hands_out (p : Picker) :
  picker_wf p ->
  exists next p',
    get_next p = Ret (next, p')
    /\ picker_wf p'
    /\ (next = None <-> has_next p = false)
    /\ match next with
       | None => dest p' = dest p
       | Some (agent, router) =>
           (exists rest, queue_of p (agent_id agent) = (rest ++ [router])%list
                         /\ queue_of p' (agent_id agent) = rest)
           /\ (forall k, k <> agent_id agent -> queue_of p' k = queue_of p k)
           /\ (exists e, PyDict.get (agent_id agent) (dest p) = Some e /\ agent = de_agent e)
           /\ Permutation (all_queued p) (router :: all_queued p')
       end.
Proof.
  intros Hwf.
  destruct (get_next_spec p Hwf) as (next & p' & Hget & Hwf' & Hnone & Hnext).
  exists next, p'. split; [exact Hget|]. split; [exact Hwf'|]. split; [exact Hnone|].
  destruct next as [[agent router]|]; [|exact Hnext].
  destruct Hnext as (e & rest & Hge & Hag & Hq & Hd).
  split; [|split; [|split]].
  - exists rest. unfold queue_of. rewrite Hd, get_update, String.eqb_refl, Hge.
    simpl. auto.
  - intros k Hk. unfold queue_of. rewrite Hd, get_update.
    apply String.eqb_neq in Hk. rewrite Hk. reflexivity.
  - exists e. auto.
  - unfold all_queued. rewrite Hd. apply (flat_map_update_pop _ _ e); assumption.
Qed.

(** X3. [get_next_for_agent] raises [KeyError] for an agent that is not a
    destination, hands out nothing when the queue of the agent is empty, and
    otherwise hands out the router queued last and removes it. *)
Theorem get_next_for_agent_cases (p : Picker) (agent : Agent) :
  (PyDict.get (agent_id agent) (dest p) = None ->
   get_next_for_agent p agent = Raise (KeyError (agent_id agent)))
  /\ (forall e, PyDict.get (agent_id agent) (dest p) = Some e ->
        (de_routers e = [] -> get_next_for_agent p agent = Ret (None, p))
        /\ (forall rest router, de_routers e = (rest ++ [router])%list ->
              exists p',
                get_next_for_agent p agent = Ret (Some (de_agent e, router), p')
                /\ queue_of p' (agent_id agent) = rest
                /\ forall k, k <> agent_id agent -> queue_of p' k = queue_of p k)).
Proof.
  unfold get_next_for_agent, has_next_for_agent, getitem. split.
  - intros ->. reflexivity.
  - intros e He. rewrite He. simpl. split.
    + intros ->. reflexivity.
    + intros rest router Hq. rewrite Hq.
      rewrite length_app. simpl.
      replace (Nat.ltb 0 (List.length rest + 1)) with true
        by (symmetry; apply Nat.ltb_lt; lia).
      simpl. try rewrite Hq.
      rewrite (proj2 (pop_last_some (rest ++ [router]) rest router) eq_refl).
      eexists. split; [reflexivity|]. split.
      * unfold queue_of. simpl. rewrite get_update, String.eqb_refl, He. reflexivity.
      * intros k Hk. unfold queue_of. simpl. rewrite get_update.
        apply String.eqb_neq in Hk. rewrite Hk. reflexivity.
Qed.


End PickerOperations.

Section InitThenEvacuate.
Context {W : Type} {neutron : NeutronClient W} {runner : RemoteExec W}
        {order : DictOrder}.
Variable cfg : Config.





End InitThenEvacuate.

(* ------------------------------------------------------------------------- *)
(** ** Polling *)

Section Polling.
Context {W : Type}.
Variable func : M W bool.
Variables (timeout : Z) (interval : positive) (least : Z).

Lemma wait_loop_within (fuel : nat) :
  forall (wt : Z) (s : St W),
    (Z.to_nat (Z.max least (timeout + 1) - wt) < fuel)%nat ->
    ((exists w, fst (wait_loop fuel func timeout interval least wt s) = Ret (Some w)
                /\ w <= timeout)
     <-> exists n, wt + Z.of_nat n * Z.pos interval <= timeout /\ first_success func n s).
Proof.
  induction fuel as [|fuel IH]; intros wt s Hfuel; [lia|].
  simpl. destruct ((wt <? least) || (wt <=? timeout)) eqn:Hc.
  - apply orb_true_iff in Hc. rewrite Z.ltb_lt, Z.leb_le in Hc.
    unfold bind. destruct (func s) as [[[]|e] s1] eqn:Hf; simpl.
    + split.
      * intros (w & Hw & Hle). injection Hw as <-.
        exists 0%nat. simpl. rewrite Hf. split; [lia | reflexivity].
      * intros (n & Hn & Hfirst). exists wt. split; [reflexivity|].
        destruct n; [lia|]. simpl in Hfirst. rewrite Hf in Hfirst.
        destruct Hfirst as [Hfalse _]. discriminate.
    + rewrite IH by lia. split.
      * intros (n & Hn & Hfirst). exists (S n). split; [lia|].
        simpl. rewrite Hf. simpl. split; [reflexivity | exact Hfirst].
      * intros (n & Hn & Hfirst). destruct n as [|n].
        -- simpl in Hfirst. rewrite Hf in Hfirst. discriminate.
        -- simpl in Hfirst. rewrite Hf in Hfirst. simpl in Hfirst.
           exists n. split; [lia | apply Hfirst].
    + split.
      * intros (w & Hw & _). discriminate.
      * intros (n & Hn & Hfirst).
        destruct n; simpl in Hfirst; rewrite Hf in Hfirst;
          [discriminate | destruct Hfirst; discriminate].
  - apply orb_false_iff in Hc. rewrite Z.ltb_ge, Z.leb_gt in Hc. simpl. split.
    + intros (w & Hw & Hle). inversion Hw; subst. lia.
    + intros (n & Hn & _). lia.
Qed.

Lemma wait_loop_polls (fuel : nat) :
  forall (wt : Z) (s : St W),
    exists n, (n <= Z.to_nat (Z.max least (timeout + 1) - wt))%nat
              /\ (fuel <> 0%nat -> wt < Z.max least (timeout + 1) -> (1 <= n)%nat)
              /\ snd (wait_loop fuel func timeout interval least wt s)
                 = after_polls func n s.
Proof.
  induction fuel as [|fuel IH]; intros wt s.
  - exists 0%nat. split; [lia|]. split; [congruence | reflexivity].
  - simpl. destruct ((wt <? least) || (wt <=? timeout)) eqn:Hc.
    + apply orb_true_iff in Hc. rewrite Z.ltb_lt, Z.leb_le in Hc.
      unfold bind. destruct (func s) as [[[]|e] s1] eqn:Hf; simpl.
      * exists 1%nat. split; [lia|]. split; [lia|]. simpl. rewrite Hf. reflexivity.
      * destruct (IH (wt + Z.pos interval) s1) as (n & Hn & _ & Hs).
        exists (S n). split; [lia|]. split; [lia|]. simpl. rewrite Hf. exact Hs.
      * exists 1%nat. split; [lia|]. split; [lia|]. simpl. rewrite Hf. reflexivity.
    + apply orb_false_iff in Hc. rewrite Z.ltb_ge, Z.leb_gt in Hc.
      exists 0%nat. split; [lia|]. split; [lia | reflexivity].
Qed.

(** X6. [_wait_until] returns true exactly when the first poll that succeeds is
    made at a waiting time, a multiple of the interval, that does not exceed
    the timeout.  A success found later, while the minimum waiting time
    keeps the loop going, is returned as false. *)
Theorem wait_until_true_iff (s : St W) :
  fst (_wait_until func timeout interval least s) = Ret true
  <-> exists n, Z.of_nat n * Z.pos interval <= timeout /\ first_success func n s.
Proof.
  assert (Hiff : (exists w, fst (wait_loop (wait_fuel timeout least) func timeout
                                           interval least 0 s) = Ret (Some w)
                            /\ w <= timeout)
                 <-> exists n, Z.of_nat n * Z.pos interval <= timeout
                               /\ first_success func n s).
  { rewrite wait_loop_within by (unfold wait_fuel; lia).
    split; intros (n & Hn & Hfirst); exists n; split; auto; lia. }
  rewrite <- Hiff. clear Hiff.
  unfold _wait_until, bind.
  pose proof (wait_until_fuel func timeout interval least s) as Hfuel.
  destruct (wait_loop (wait_fuel timeout least) func timeout interval least 0 s)
    as [[[w|]|e] s1].
  - cbn [fst]. destruct (w >? timeout) eqn:Hw; cbn [fst ret].
    + split; [discriminate|]. intros (w' & Hw' & Hle).
      assert (w' = w) by congruence. lia.
    + split; [|reflexivity]. intros _. exists w. split; [reflexivity | lia].
  - exfalso. apply Hfuel. reflexivity.
  - cbn [fst]. split; [discriminate|]. intros (w' & Hw' & _). discriminate.
Qed.

Lemma wait_until_polls (s : St W) :
  exists n, (n <= Z.to_nat (Z.max least (timeout + 1)))%nat
            /\ (0 < Z.max least (timeout + 1) -> (1 <= n)%nat)
            /\ snd (_wait_until func timeout interval least s) = after_polls func n s.
Proof.
  destruct (wait_loop_polls (wait_fuel timeout least) 0 s) as (n & Hn & Hpos & Hs).
  exists n. split; [rewrite Z.sub_0_r in Hn; exact Hn|]. split.
  - intros H. apply Hpos; [unfold wait_fuel; lia | exact H].
  - rewrite <- Hs. unfold _wait_until, bind.
    destruct (wait_loop (wait_fuel timeout least) func timeout interval least 0 s)
      as [[[w|]|e] s1]; simpl; [destruct (w >? timeout)| |]; reflexivity.
Qed.

Lemma wait_until_raises (s : St W) (e : exn) :
  fst (_wait_until func timeout interval least s) = Raise e ->
  exists n s', func (after_polls func n s) = (Raise e, s').
Proof.
  unfold _wait_until, bind.
  assert (Hraise : forall fuel wt s0,
             fst (wait_loop fuel func timeout interval least wt s0) = Raise e ->
             exists n s', func (after_polls func n s0) = (Raise e, s')).
  { induction fuel as [|fuel IH]; intros wt s0; simpl; [discriminate|].
    destruct ((wt <? least) || (wt <=? timeout)); [|discriminate].
    unfold bind. destruct (func s0) as [[[]|e0] s1] eqn:Hf; simpl.
    - discriminate.
    - intros H. destruct (IH _ _ H) as (n & s' & Hn).
      exists (S n), s'. simpl. rewrite Hf. exact Hn.
    - intros H. injection H as ->. exists 0%nat, s1. exact Hf. }
  destruct (wait_loop (wait_fuel timeout least) func timeout interval least 0 s)
    as [[[w|]|e0] s1] eqn:Hl; simpl.
  - destruct (w >? timeout); discriminate.
  - discriminate.
  - intros H. injection H as ->.
    apply (Hraise (wait_fuel timeout least) 0 s). rewrite Hl. reflexivity.
Qed.

(** X7. [_wait_until] polls at most [max(least_wait_time, wait_timeout + 1)]
    times, not at all when that number is not positive and at least once
    otherwise; it raises only what a poll raises. *)
Theorem wait_until_poll_bound (s : St W) :
  (exists n, (n <= Z.to_nat (Z.max least (timeout + 1)))%nat
             /\ (0 < Z.max least (timeout + 1) -> (1 <= n)%nat)
             /\ snd (_wait_until func timeout interval least s) = after_polls func n s)
  /\ (forall e, fst (_wait_until func timeout interval least s) = Raise e ->
        exists n s', func (after_polls func n s) = (Raise e, s')).
Proof.
  split; [apply wait_until_polls | intros e; apply wait_until_raises].
Qed.

End Polling.

(* ------------------------------------------------------------------------- *)
(** ** The host verifier: presence and forced cleanup *)

Lemma verify_ports_loop_forallb (result : list string) (ports : list Port) (state : bool) :
  verify_ports_loop result ports state = state && forallb (port_present result) ports.
Proof.
  revert state. induction ports as [|one_port ports IH]; intros state; simpl.
  - rewrite andb_true_r. reflexivity.
  - unfold port_present at 1, expected_nic.
    destruct (String.eqb (port_device_owner one_port) "network:router_interface");
      [|destruct (String.eqb (port_device_owner one_port) "network:router_gateway")];
      rewrite IH; simpl; rewrite ?andb_assoc; reflexivity.
Qed.

Section HostVerifierOperations.
Context {W : Type} {neutron : NeutronClient W} {runner : RemoteExec W}.

Lemma emitted_from {A} (m : M W A) (s : St W) (evs : list event) :
  trace (snd (m s)) = (trace s ++ evs)%list -> emitted m s = evs.
Proof.
  intros H. unfold emitted. rewrite H, skipn_app, skipn_all, Nat.sub_diag. reflexivity.
Qed.

Lemma verify_ipforward_eq (agent : Agent) (router : Router) (s : St W) :
  let cmd := _cmd_show_ipforward_in_netns (namespace_of router) in
  _verify_ipforward_on_host agent router s =
    (let '(rc, stdout, _) := fst (remote_exec (agent_host agent) cmd (world s)) in
     Ret ((rc =? 0) && String.eqb stdout "1"),
     after_run (agent_host agent) cmd s).
Proof.
  intros cmd. unfold _verify_ipforward_on_host, bind. fold cmd. rewrite run_eq.
  destruct (fst (remote_exec (agent_host agent) cmd (world s))) as [[rc out] err].
  destruct (rc =? 0); reflexivity.
Qed.

(** X8. [_verify_router_on_host].  With no enabled port it reads [ip_forward]
    and nothing else on the host.  With enabled ports it lists the
    interfaces; when the interface of a router-interface or router-gateway
    port is missing it returns false without reading [ip_forward]; ports of
    other owners do not count.  It returns true only when the read succeeds
    with the output "1". *)
Theorem verify_router_on_host_cases (agent : Agent) (router : Router)
    (s s1 : St W) (ports : list Port) :
  neutron_list_ports (router_id router) (Some true) s = (Ret ports, s1) ->
  let host := agent_host agent in
  let netns := namespace_of router in
  let read := _cmd_show_ipforward_in_netns netns in
  let forwarding (s0 : St W) : outcome bool :=
    let '(rc, stdout, _) := fst (remote_exec host read (world s0)) in
    Ret ((rc =? 0) && String.eqb stdout "1") in
  (ports = [] ->
   _verify_router_on_host agent router s = (forwarding s1, after_run host read s1))
  /\ (ports <> [] ->
      forall nics s2,
        _list_nics_in_netns_on_remote host netns s1 = (Ret nics, s2) ->
        (forallb (port_present nics) ports = false ->
         _verify_router_on_host agent router s = (Ret false, s2))
        /\ (forallb (port_present nics) ports = true ->
            _verify_router_on_host agent router s
            = (forwarding s2, after_run host read s2))).
Proof.
  intros Hports host netns read forwarding.
  unfold _verify_router_on_host, _verify_ports_on_host.
  split.
  - intros ->. unfold bind at 1. unfold bind at 1. rewrite Hports. simpl.
    apply verify_ipforward_eq.
  - intros Hne nics s2 Hlist.
    assert (Hlen : Nat.eqb (List.length ports) 0 = false)
      by (destruct ports; [congruence | reflexivity]).
    split; intros Hall.
    + unfold bind at 1. unfold bind at 1. rewrite Hports, Hlen.
      unfold bind at 1. fold host netns. rewrite Hlist. simpl.
      rewrite verify_ports_loop_forallb, Hall. reflexivity.
    + unfold bind at 1. unfold bind at 1. rewrite Hports, Hlen.
      unfold bind at 1. fold host netns. rewrite Hlist. simpl.
      rewrite verify_ports_loop_forallb, Hall. simpl.
      apply verify_ipforward_eq.
Qed.

Lemma clean_nics_trace (host : string) (nics : list string) (s : St W) :
  exists s', _clean_nics_on_host host nics s = (Ret tt, s')
             /\ trace s' = (trace s ++ delete_commands host nics)%list.
Proof.
  revert s. induction nics as [|nic nics IH]; intros s; simpl.
  - exists s. rewrite app_nil_r. auto.
  - unfold bind, bridge_of.
    destruct (PyStr.contains "qg-" nic); [|destruct (PyStr.contains "qr-" nic)];
      match goal with |- context [run host ?c s] =>
        destruct (run_returns host c s) as [v ->];
        destruct (IH (after_run host c s)) as (s' & Hrun & Htrace);
        exists s'; split; [exact Hrun|];
        rewrite Htrace; simpl; rewrite <- app_assoc; reflexivity
      end.
Qed.

(** X9. Forced cleanup.  When the listing of the namespace returns interfaces,
    [_ensure_clean_router_on_host] issues, after the listing, one delete-port
    command per interface, in the order of the listing and through the
    bridge of the interface, then the deletion of the namespace, and returns
    true whatever these commands answer. *)
Theorem ensure_clean_forced_cleanup (agent : Agent) (router : Router)
    (s s1 : St W) (nics : list string) :
  let host := agent_host agent in
  let netns := namespace_of router in
  _list_nics_in_netns_on_remote host netns s = (Ret nics, s1) ->
  nics <> [] ->
  fst (_ensure_clean_router_on_host agent router s) = Ret true
  /\ emitted (_ensure_clean_router_on_host agent router) s
     = (EvRun host (_cmd_list_nic_in_netns netns)
        :: delete_commands host nics ++ [EvRun host (_cmd_delete_netns netns)])%list.
Proof.
  intros host netns Hlist Hne.
  assert (Hs1 : trace s1 = (trace s ++ [EvRun host (_cmd_list_nic_in_netns netns)])%list).
  { rewrite list_nics_eq in Hlist. injection Hlist as _ <-. reflexivity. }
  destruct (clean_nics_trace host nics s1) as (s2 & Hclean & Hs2).
  destruct (run_returns host (_cmd_delete_netns netns) s2) as [v Hrun].
  assert (Hrun' : _ensure_clean_router_on_host agent router s
                  = (Ret true, after_run host (_cmd_delete_netns netns) s2)).
  { unfold _ensure_clean_router_on_host, bind. fold host netns. rewrite Hlist.
    replace (Nat.eqb (List.length nics) 0) with false
      by (destruct nics; [congruence | reflexivity]).
    rewrite Hclean. unfold _clean_netns_on_host, bind. rewrite Hrun. reflexivity. }
  split; [rewrite Hrun'; reflexivity|].
  apply emitted_from. rewrite Hrun'. simpl. rewrite Hs2, Hs1.
  rewrite <- !app_assoc. reflexivity.
Qed.

(** X10. [_ensure_router_cleaned] never raises.  It returns false exactly when
    the listing of the namespace raises, and then the listing is the only
    command it has issued. *)
Theorem ensure_router_cleaned_cases (agent : Agent) (router : Router) (s : St W) :
  let host := agent_host agent in
  let netns := namespace_of router in
  (exists b, fst (_ensure_router_cleaned agent router s) = Ret b)
  /\ (fst (_ensure_router_cleaned agent router s) = Ret false
      <-> exists e, fst (_list_nics_in_netns_on_remote host netns s) = Raise e)
  /\ (fst (_ensure_router_cleaned agent router s) = Ret false ->
      emitted (_ensure_router_cleaned agent router) s
      = [EvRun host (_cmd_list_nic_in_netns netns)]).
Proof.
  intros host netns.
  assert (Hcases :
    (exists nics s1, _list_nics_in_netns_on_remote host netns s = (Ret nics, s1)
                     /\ fst (_ensure_router_cleaned agent router s) = Ret true)
    \/ (exists e, _list_nics_in_netns_on_remote host netns s
                  = (Raise e, after_run host (_cmd_list_nic_in_netns netns) s)
                  /\ _ensure_router_cleaned agent router s
                     = (Ret false, after_run host (_cmd_list_nic_in_netns netns) s))).
  { destruct (_list_nics_in_netns_on_remote host netns s) as [[nics|e] s1] eqn:Hlist.
    - left. exists nics, s1. split; [reflexivity|].
      unfold _ensure_router_cleaned, try_except, bind, _ensure_clean_router_on_host, bind.
      fold host netns. rewrite Hlist.
      destruct (Nat.eqb (List.length nics) 0); [reflexivity|].
      destruct (clean_nics_returns host nics s1) as [s2 ->].
      unfold _clean_netns_on_host, bind.
      destruct (run_returns host (_cmd_delete_netns netns) s2) as [v ->].
      reflexivity.
    - right. exists e.
      assert (Hs1 : s1 = after_run host (_cmd_list_nic_in_netns netns) s).
      { rewrite list_nics_eq in Hlist. injection Hlist as _ <-. reflexivity. }
      subst s1. split; [reflexivity|].
      unfold _ensure_router_cleaned, try_except, bind, _ensure_clean_router_on_host, bind.
      fold host netns. rewrite Hlist. reflexivity. }
  split; [|split].
  - destruct Hcases as [(nics & s1 & _ & H)|(e & _ & H)].
    + exists true. exact H.
    + exists false. rewrite H. reflexivity.
  - split.
    + intros Hfalse.
      destruct Hcases as [(nics & s1 & _ & H)|(e & Hl & _)]; [congruence|].
      exists e. rewrite Hl. reflexivity.
    + intros (e & He).
      destruct Hcases as [(nics & s1 & Hl & _)|(e' & _ & H)];
        [rewrite Hl in He; discriminate | rewrite H; reflexivity].
  - intros Hfalse.
    destruct Hcases as [(nics & s1 & _ & H)|(e & _ & H)]; [congruence|].
    apply emitted_from. rewrite H. reflexivity.
Qed.

End HostVerifierOperations.

(* ------------------------------------------------------------------------- *)
(** ** The migration engine: requests to the control plane *)

Section CountingEvents.
Context {W : Type}.
Variable kind : event -> bool.

Lemma count_events_app (evs1 evs2 : list event) :
  count_events kind (evs1 ++ evs2)
  = (count_events kind evs1 + count_events kind evs2)%nat.
Proof. unfold count_events. rewrite filter_app, length_app. reflexivity. Qed.

Lemma count_events_none {A} (m : M W A) (s : St W) :
  spec m (fun _ => True) (fun e => kind e = false) ->
  count_events kind (emitted m s) = 0%nat.
Proof.
  intros Hm. destruct (emitted_spec m _ _ s Hm) as [_ Hall].
  unfold count_events. induction Hall as [|e evs He _ IH]; simpl; [reflexivity|].
  rewrite He. exact IH.
Qed.

Lemma count_events_bind {A B} (m : M W A) (f : A -> M W B) (s : St W) (n1 n2 : nat) :
  extends m -> (forall a, extends (f a)) ->
  (count_events kind (emitted m s) <= n1)%nat ->
  (forall a s1, count_events kind (emitted (f a) s1) <= n2)%nat ->
  (count_events kind (emitted (bind m f) s) <= n1 + n2)%nat.
Proof.
  intros Em Ef H1 H2. rewrite emitted_bind by assumption.
  rewrite count_events_app.
  destruct (m s) as [[a|e] s1].
  - specialize (H2 a s1). lia.
  - change (count_events kind []) with 0%nat. lia.
Qed.

Lemma count_events_in (e : event) (evs : list event) :
  In e evs -> kind e = true -> (1 <= count_events kind evs)%nat.
Proof.
  intros Hin Hk. unfold count_events.
  assert (Hf : In e (filter kind evs)) by (apply filter_In; auto).
  destruct (filter kind evs); [contradiction | simpl; lia].
Qed.

End CountingEvents.

Section EngineRequests.
Context {W : Type} {neutron : NeutronClient W} {runner : RemoteExec W}.
Variable cfg : Config.

Lemma add_attempt_fails_iff (agent : Agent) (router : Router) (s : St W) :
  add_attempt_fails cfg 0 agent router s = true <->
  (exists msg, fst (add_request cfg agent router s) = Raise (NeutronClientException msg))
  \/ fst (add_request cfg agent router s) = Ret false.
Proof.
  unfold add_attempt_fails, add_request, _add_router_try, try_except, bind.
  simpl add_attempt_state.
  destruct (neutron_add_router_to_l3_agent _ _ s) as [[[]|e] s1]; simpl.
  - destruct (_wait_until_default cfg _ s1) as [[[]|e] s2]; simpl.
    + split; [discriminate | intros [[m H]|H]; discriminate].
    + split; auto.
    + destruct e; simpl; split; intros H; try discriminate; eauto;
        destruct H as [[m H]|H]; discriminate.
  - destruct e; simpl; split; intros H; try discriminate; eauto;
      destruct H as [[m H]|H]; discriminate.
Qed.

Lemma add_router_n_iff (n : nat) (agent : Agent) (router : Router) (s : St W) :
  (fst (_add_router_n cfg n agent router s) = Ret true <->
   exists k, (k <= n)%nat /\ add_attempt_fails cfg k agent router s = false)
  /\ (fst (_add_router_n cfg n agent router s) = Ret true
      \/ fst (_add_router_n cfg n agent router s) = Ret false).
Proof.
  revert s. induction n as [|n IH]; intros s.
  - simpl. unfold bind, add_attempt_fails.
    destruct (add_router_try_returns cfg agent router s) as [b Hb].
    split.
    + split.
      * intros H. exists 0%nat. split; [lia|]. simpl. rewrite Hb.
        destruct (_add_router_try cfg agent router s) as [r s1]; simpl in *; subst r.
        destruct b; [discriminate | reflexivity].
      * intros (k & Hk & Hf). assert (k = 0%nat) by lia; subst k.
        simpl in Hf. rewrite Hb in Hf. subst b.
        destruct (_add_router_try cfg agent router s) as [r s1]; simpl in *; subst r.
        reflexivity.
    + destruct (_add_router_try cfg agent router s) as [r s1]; simpl in *; subst r.
      destruct b; simpl; auto.
  - simpl. unfold bind.
    destruct (add_router_try_returns cfg agent router s) as [b Hb].
    pose proof (IH (snd (_add_router_try cfg agent router s))) as [IH1 IH2].
    destruct (_add_router_try cfg agent router s) as [r s1] eqn:Htry;
      simpl in *; subst r.
    destruct b; simpl.
    + split; [|exact IH2]. rewrite IH1. split.
      * intros (k & Hk & Hf). exists (S k). split; [lia|].
        unfold add_attempt_fails in *. simpl. rewrite Htry. exact Hf.
      * intros (k & Hk & Hf). destruct k as [|k].
        -- unfold add_attempt_fails in Hf. simpl in Hf. rewrite Htry in Hf.
           discriminate.
        -- exists k. split; [lia|].
           unfold add_attempt_fails in *. simpl in Hf. rewrite Htry in Hf. exact Hf.
    + split; [|auto]. split; [|reflexivity].
      intros _. exists 0%nat. split; [lia|].
      unfold add_attempt_fails. simpl. rewrite Htry. reflexivity.
Qed.

Lemma remove_router_try_first (agent : Agent) (router : Router) (s : St W) :
  exists evs, emitted (_remove_router_try cfg agent router) s
              = EvRemoveRouter (agent_id agent) (router_id router) :: evs.
Proof.
  unfold _remove_router_try. rewrite emitted_try_except.
  - match goal with |- context [emitted (bind ?m ?f) s] =>
      rewrite (emitted_bind m f) end.
    + unfold neutron_remove_router_from_l3_agent at 1. rewrite emitted_call.
      simpl. eauto.
    + apply spec_call; exact I.
    + intros _. spec_seq.
      * apply spec_wait_until, spec_check_api_removed; exact I.
      * destruct (negb a); spec_done.
  - spec_seq; [apply spec_call; exact I|].
    spec_seq; [apply spec_wait_until, spec_check_api_removed; exact I|].
    destruct (negb a0); spec_done.
  - intros []; spec_done.
Qed.

Lemma remove_router_n_extends (n : nat) (agent : Agent) (router : Router) :
  extends (_remove_router_n cfg n agent router).
Proof.
  pose proof (extends_remove_router cfg agent router (Z.of_nat n)) as Hn.
  unfold _remove_router in Hn. rewrite Nat2Z.id in Hn. exact Hn.
Qed.

Lemma remove_router_try_detach_requests (agent : Agent) (router : Router) (s : St W) :
  (count_events is_detach (emitted (_remove_router_try cfg agent router) s) <= 1)%nat.
Proof.
  assert (Hrest : spec (ok <- _wait_until_default cfg (_check_api_removed agent router) ;;
                        if negb ok then ret true else ret false)
                       (fun _ => True) (fun e => is_detach e = false)).
  { spec_seq; [apply spec_wait_until, spec_check_api_removed; reflexivity|].
    destruct (negb a); spec_done. }
  assert (Hbody : forall s0,
    (count_events is_detach
       (emitted (neutron_remove_router_from_l3_agent (agent_id agent) (router_id router) ;;;
                 ok <- _wait_until_default cfg (_check_api_removed agent router) ;;
                 if negb ok then ret true else ret false) s0) <= 1 + 0)%nat).
  { intros s0. apply count_events_bind.
    - apply spec_call; exact I.
    - intros _. exact (extends_any _ _ _ Hrest).
    - unfold neutron_remove_router_from_l3_agent. rewrite emitted_call.
      unfold count_events. simpl. lia.
    - intros _ s1. rewrite (count_events_none is_detach _ s1 Hrest). lia. }
  unfold _remove_router_try. rewrite emitted_try_except.
  - rewrite count_events_app.
    match goal with |- context [match ?m s with _ => _ end] =>
      destruct (m s) as [[b|e] s1] end.
    + specialize (Hbody s). change (count_events is_detach []) with 0%nat. lia.
    + specialize (Hbody s).
      assert (He : count_events is_detach
                     (emitted (match e with
                               | NeutronClientException _ => ret true
                               | _ => ret false
                               end) s1) = 0%nat).
      { apply count_events_none. destruct e; spec_done. }
      rewrite He. lia.
  - spec_seq; [apply spec_call; exact I | exact (extends_any _ _ _ Hrest)].
  - intros []; spec_done.
Qed.

Lemma remove_router_detach_requests (agent : Agent) (router : Router) (retry : Z)
    (s : St W) :
  (count_events is_detach (emitted (_remove_router cfg agent router retry) s)
   <= Z.to_nat retry + 1)%nat.
Proof.
  unfold _remove_router. revert s.
  induction (Z.to_nat retry) as [|n IH]; intros s; simpl.
  - eapply Nat.le_trans; [apply (count_events_bind _ _ _ s 1%nat 0%nat) | lia].
    + apply spec_remove_router_try; exact I.
    + intros b. destruct (negb b); spec_done.
    + apply remove_router_try_detach_requests.
    + intros b s1. rewrite count_events_none; [lia|]. destruct (negb b); spec_done.
  - eapply Nat.le_trans; [apply (count_events_bind _ _ _ s 1%nat (n + 1)%nat) | lia].
    + apply spec_remove_router_try; exact I.
    + intros b. destruct (negb b); [spec_done | apply remove_router_n_extends].
    + apply remove_router_try_detach_requests.
    + intros b s1. destruct (negb b); [|apply IH].
      rewrite count_events_none; [lia | spec_done].
Qed.

Lemma remove_router_first (agent : Agent) (router : Router) (retry : Z) (s : St W) :
  exists evs, emitted (_remove_router cfg agent router retry) s
              = EvRemoveRouter (agent_id agent) (router_id router) :: evs.
Proof.
  destruct (remove_router_try_first agent router s) as [evs Hevs].
  unfold _remove_router.
  destruct (Z.to_nat retry) as [|n]; simpl; rewrite emitted_bind, Hevs.
  - simpl. eauto.
  - apply spec_remove_router_try; exact I.
  - intros b. destruct (negb b); spec_done.
  - simpl. eauto.
  - apply spec_remove_router_try; exact I.
  - intros b. destruct (negb b); [spec_done | apply remove_router_n_extends].
Qed.

(** X11. The requests of [_remove_router].  The first thing it sends is the
    detach request; it sends at most [retry + 1] of them (for a budget that
    is not negative), and apart from them only queries for the agents that
    host the router: no attach request and no remote command.  It never
    raises. *)
Theorem remove_router_requests (agent : Agent) (router : Router) (retry : Z) (s : St W) :
  let detach := EvRemoveRouter (agent_id agent) (router_id router) in
  (exists evs, emitted (_remove_router cfg agent router retry) s = detach :: evs)
  /\ (count_events is_detach (emitted (_remove_router cfg agent router retry) s)
      <= Z.to_nat retry + 1)%nat
  /\ Forall (fun e => e = detach \/ e = EvListHosting (router_id router))
            (emitted (_remove_router cfg agent router retry) s)
  /\ exists b, fst (_remove_router cfg agent router retry s) = Ret b.
Proof.
  intros detach. split; [|split; [|split]].
  - apply remove_router_first.
  - apply remove_router_detach_requests.
  - apply (emitted_spec _ (fun _ => True)).
    apply spec_remove_router; auto.
  - apply remove_router_returns.
Qed.

(** X12. [_add_router] returns true exactly when one of the first [retry + 1]
    attach attempts does not fail, and false otherwise; an attempt fails
    exactly when the request or the poll raises a [NeutronClientException] or
    the poll times out.  It sends at least one and at most [retry + 1]
    attach requests, and apart from them only queries for the agents that
    host the router. *)
Theorem add_router_retry_budget (agent : Agent) (router : Router) (s : St W) :
  let attach := EvAddRouter (agent_id agent) (router_id router) in
  (forall k,
     let sk := add_attempt_state cfg k agent router s in
     add_attempt_fails cfg k agent router s = true <->
     (exists msg, fst (add_request cfg agent router sk) = Raise (NeutronClientException msg))
     \/ fst (add_request cfg agent router sk) = Ret false)
  /\ (forall retry, 0 <= retry ->
       (fst (_add_router cfg agent router retry s) = Ret true <->
        exists k, Z.of_nat k <= retry /\ add_attempt_fails cfg k agent router s = false)
       /\ (fst (_add_router cfg agent router retry s) = Ret true
           \/ fst (_add_router cfg agent router retry s) = Ret false)
       /\ (1 <= attach_requests (emitted (_add_router cfg agent router retry) s)
           <= Z.to_nat retry + 1)%nat
       /\ Forall (fun e => e = attach \/ e = EvListHosting (router_id router))
                 (emitted (_add_router cfg agent router retry) s)).
Proof.
  intros attach. split.
  - intros k sk. exact (add_attempt_fails_iff agent router sk).
  - intros retry Hretry.
    destruct (add_router_n_iff (Z.to_nat retry) agent router s) as [Hiff Hor].
    split; [|split; [exact Hor|split; [split|]]].
    + unfold _add_router. rewrite Hiff.
      split; intros (k & Hk & Hf); exists k; split; auto; lia.
    + apply (count_events_in is_attach attach); [|reflexivity].
      apply add_router_requests_attach.
    + apply add_router_attach_requests.
    + apply (emitted_spec _ (fun _ => True)).
      apply spec_add_router; auto.
Qed.

End EngineRequests.

(* ------------------------------------------------------------------------- *)
(** ** The migration engine: verification, reconciliation and migration *)

Section EngineOperations.
Context {W : Type} {neutron : NeutronClient W} {runner : RemoteExec W}.
Variable cfg : Config.

Lemma ensure_router_added_returns (agent : Agent) (router : Router) (s : St W) :
  exists b, fst (_ensure_router_added agent router s) = Ret b.
Proof.
  unfold _ensure_router_added, try_except.
  destruct (_ensure_router_added_try agent router s) as [[b|e] s1]; simpl; eauto.
Qed.

Lemma ensure_router_cleaned_returns (agent : Agent) (router : Router) (s : St W) :
  exists b, fst (_ensure_router_cleaned agent router s) = Ret b.
Proof.
  unfold _ensure_router_cleaned, try_except.
  match goal with |- context [match ?m s with _ => _ end] =>
    destruct (m s) as [[b|e] s1] end; simpl; eauto.
Qed.

Lemma snat_poll_eq (agent : Agent) (router : Router) (s : St W) :
  let cmd := _cmd_grep_snat_rule_in_netns (namespace_of router) "neutron-l3-agent-snat" in
  exists b, _verify_router_snat_rule agent router s
            = (Ret b, after_run (agent_host agent) cmd s).
Proof.
  intros cmd. unfold _verify_router_snat_rule, bind. fold cmd. rewrite run_eq.
  destruct (fst (remote_exec (agent_host agent) cmd (world s))) as [[rc out] err].
  destruct (rc =? 0); simpl; eexists; reflexivity.
Qed.

(** X13. The first step of [_ensure_router_added]: the marker of the finished
    attachment is looked for with one and the same command, at least once and
    at most 16 times. *)
Theorem snat_marker_polls (agent : Agent) (router : Router) (s : St W) :
  let cmd := _cmd_grep_snat_rule_in_netns (namespace_of router) "neutron-l3-agent-snat" in
  let wait := _wait_until (_verify_router_snat_rule agent router) 15 1%positive 1 in
  (exists b, fst (wait s) = Ret b)
  /\ exists n, (1 <= n <= 16)%nat
               /\ emitted wait s = repeat (EvRun (agent_host agent) cmd) n.
Proof.
  intros cmd wait.
  assert (Hpolls : forall n s0,
             trace (after_polls (_verify_router_snat_rule agent router) n s0)
             = (trace s0 ++ repeat (EvRun (agent_host agent) cmd) n)%list).
  { induction n as [|n IH]; intros s0; simpl.
    - rewrite app_nil_r. reflexivity.
    - destruct (snat_poll_eq agent router s0) as [b Hb]. fold cmd in Hb.
      rewrite Hb. simpl. rewrite IH. simpl. rewrite <- app_assoc. reflexivity. }
  split.
  - unfold wait.
    destruct (fst (_wait_until (_verify_router_snat_rule agent router) 15 1 1 s))
      as [b|e] eqn:Hr; [eauto|].
    exfalso.
    destruct (wait_until_raises (_verify_router_snat_rule agent router) 15 1 1 s e Hr)
      as (n & s' & Hn).
    destruct (snat_poll_eq agent router
                (after_polls (_verify_router_snat_rule agent router) n s)) as [b Hb].
    rewrite Hb in Hn. discriminate.
  - destruct (wait_until_polls (_verify_router_snat_rule agent router) 15 1 1 s)
      as (n & Hn & Hpos & Hs).
    exists n. split; [split; [apply Hpos; lia | simpl in Hn; lia]|].
    apply emitted_from. unfold wait. rewrite Hs. apply Hpolls.
Qed.

(** X14. Reconciliation of a router that some agent hosts.  Only the first agent
    of the listing is verified; neither an attach nor a detach request is
    sent; the result is true exactly when [_ensure_router_added] returns
    true, and nothing otherwise; and when the hosting agent is the source
    agent itself, nothing follows the verification. *)
Theorem retry_failed_router_hosted (router : Router) (src_agent : Agent) (retry : Z)
    (s s1 : St W) (agent : Agent) (others : list Agent) :
  0 <= retry ->
  neutron_list_l3_agent_hosting_routers (router_id router) s
  = (Ret (agent :: others), s1) ->
  let reconcile := _retry_failed_router cfg router src_agent retry in
  Forall (fun e => passive e = true) (emitted reconcile s)
  /\ (fst (reconcile s) = Ret (Some true)
      <-> fst (_ensure_router_added agent router s1) = Ret true)
  /\ (fst (reconcile s) = Ret None
      <-> fst (_ensure_router_added agent router s1) = Ret false)
  /\ (agent_id agent = agent_id src_agent ->
      snd (reconcile s) = snd (_ensure_router_added agent router s1)).
Proof.
  intros Hretry Hlist reconcile.
  set (branch := ensured <- _ensure_router_added agent router ;;
                 if ensured then
                   (if negb (String.eqb (agent_id agent) (agent_id src_agent)) then
                      _ensure_router_cleaned src_agent router ;;; ret tt
                    else ret tt) ;;;
                   ret (Some true)
                 else ret None).
  assert (Heq : reconcile s = branch s1).
  { unfold reconcile. rewrite retry_failed_router_unfold.
    replace (retry <? 0) with false by lia.
    unfold bind at 1. rewrite Hlist. reflexivity. }
  assert (Hs1 : trace s1 = (trace s ++ [EvListHosting (router_id router)])%list).
  { unfold neutron_list_l3_agent_hosting_routers, call in Hlist.
    destruct (list_l3_agent_hosting_routers (router_id router) (world s)) as [r w'].
    injection Hlist as _ <-. reflexivity. }
  assert (Hbranch : spec branch (fun _ => True) (fun e => passive e = true)).
  { unfold branch.
    spec_seq; [apply spec_ensure_router_added; auto|].
    destruct a; [|spec_done].
    spec_seq; [|spec_done].
    destruct (negb _); [|spec_done].
    spec_seq; [apply spec_ensure_router_cleaned; auto | spec_done]. }
  destruct (ensure_router_added_returns agent router s1) as [b Hb].
  split; [|split; [|split]].
  - destruct (emitted_spec branch _ _ s1 Hbranch) as [Htrace Hall].
    rewrite (emitted_from reconcile s
               (EvListHosting (router_id router) :: emitted branch s1)).
    + constructor; [reflexivity | exact Hall].
    + rewrite Heq, Htrace, Hs1, <- app_assoc. reflexivity.
  - rewrite Heq, Hb. unfold branch, bind.
    destruct (_ensure_router_added agent router s1) as [r s2]. simpl in Hb. subst r.
    destruct b.
    + split; [reflexivity|]. intros _.
      destruct (negb (String.eqb (agent_id agent) (agent_id src_agent))); [|reflexivity].
      destruct (ensure_router_cleaned_returns src_agent router s2) as [c Hc].
      destruct (_ensure_router_cleaned src_agent router s2) as [r s3].
      simpl in Hc. subst r. reflexivity.
    + split; discriminate.
  - rewrite Heq, Hb. unfold branch, bind.
    destruct (_ensure_router_added agent router s1) as [r s2]. simpl in Hb. subst r.
    destruct b.
    + split; [|discriminate].
      destruct (negb (String.eqb (agent_id agent) (agent_id src_agent))).
      * destruct (ensure_router_cleaned_returns src_agent router s2) as [c Hc].
        destruct (_ensure_router_cleaned src_agent router s2) as [r s3].
        simpl in Hc. subst r. discriminate.
      * discriminate.
    + split; reflexivity.
  - intros Hsame. rewrite Heq. unfold branch, bind.
    destruct (_ensure_router_added agent router s1) as [r s2]. simpl in Hb. subst r.
    apply String.eqb_eq in Hsame. rewrite Hsame. destruct b; reflexivity.
Qed.

(** X15. The requests of [migrate_router].  The first thing it sends is the
    detach of the router from the source agent; the router is never detached
    from another agent, and never attached to an agent other than the target
    and the source; and when the detach fails nothing else happens: no attach
    request and no remote command. *)
Theorem migrate_router_requests (self_src target : Agent) (router : Router)
    (src_agent : option Agent) (s : St W) :
  let src := match src_agent with Some a => a | None => self_src end in
  let migrate := migrate_router cfg self_src target router src_agent in
  (exists evs, emitted migrate s
               = EvRemoveRouter (agent_id src) (router_id router) :: evs)
  /\ Forall (migration_request src target router) (emitted migrate s)
  /\ (fst (_remove_router cfg src router (cfg_retry cfg) s) = Ret false ->
      migrate s = (Ret tt, snd (_remove_router cfg src router (cfg_retry cfg) s))
      /\ Forall (fun e => is_attach e = false /\ is_remote e = false) (emitted migrate s)).
Proof.
  intros src migrate.
  assert (Hpassive : forall e, passive e = true -> migration_request src target router e).
  { intros [] He; simpl; auto; discriminate. }
  assert (Hrest : forall removed : bool, spec
            (if removed then
               added <- _add_router cfg target router (cfg_retry cfg) ;;
               ports <- neutron_list_ports (router_id router) (Some true) ;;
               if added && Nat.ltb 0 (List.length ports) then
                 ensure_added <- _ensure_router_added target router ;;
                 if ensure_added then
                   _ensure_router_cleaned src router ;;; ret tt
                 else
                   _retry_failed_router cfg router src (cfg_retry cfg) ;;; ret tt
               else if Nat.eqb (List.length ports) 0 then ret tt
               else _retry_failed_router cfg router src (cfg_retry cfg) ;;; ret tt
             else ret tt)
            (fun _ => True) (migration_request src target router)).
  { intros removed. destruct removed; [|spec_done].
    spec_seq; [apply spec_add_router; simpl; auto|].
    spec_seq; [apply spec_call; exact I|].
    destruct (a && Nat.ltb 0 (List.length a0)).
    - spec_seq; [apply spec_ensure_router_added; exact Hpassive|].
      destruct a1.
      + spec_seq; [apply spec_ensure_router_cleaned; exact Hpassive | spec_done].
      + spec_seq; [|spec_done].
        apply spec_retry_failed_router; [exact Hpassive | simpl; auto].
    - destruct (Nat.eqb (List.length a0) 0); [spec_done|].
      spec_seq; [|spec_done].
      apply spec_retry_failed_router; [exact Hpassive | simpl; auto]. }
  split; [|split].
  - destruct (remove_router_first cfg src router (cfg_retry cfg) s) as [evs Hevs].
    unfold migrate, migrate_router. fold src.
    rewrite emitted_bind, Hevs.
    + simpl. eauto.
    + apply extends_remove_router.
    + intros removed. exact (extends_any _ _ _ (Hrest removed)).
  - apply (emitted_spec _ (fun _ => True)).
    unfold migrate, migrate_router. fold src.
    spec_seq; [apply spec_remove_router; simpl; auto|].
    apply Hrest.
  - intros Hfail.
    assert (Hmig : migrate s
                   = (Ret tt, snd (_remove_router cfg src router (cfg_retry cfg) s))).
    { unfold migrate, migrate_router, bind. fold src.
      destruct (_remove_router cfg src router (cfg_retry cfg) s) as [r s1].
      simpl in Hfail. subst r. reflexivity. }
    split; [exact Hmig|].
    rewrite (emitted_eq migrate (_remove_router cfg src router (cfg_retry cfg)) s)
      by (rewrite Hmig; reflexivity).
    apply (emitted_spec _ (fun _ => True)).
    apply spec_remove_router; auto.
Qed.

End EngineOperations.

(* ------------------------------------------------------------------------- *)
(** ** Setting up the evacuator: the source agent *)

Lemma names_agent_dec (key : string) (a : Agent) :
  String.eqb (agent_id a) key || String.eqb (agent_host a) key = true
  <-> names_agent key a.
Proof.
  unfold names_agent. rewrite orb_true_iff, !String.eqb_eq. reflexivity.
Qed.

Lemma find_agent_id_first (agents : list Agent) (key id : string) :
  find_agent_id agents key = Some id <->
  exists pre a post,
    agents = (pre ++ a :: post)%list /\ agent_id a = id /\ names_agent key a
    /\ forall b, In b pre -> ~ names_agent key b.
Proof.
  induction agents as [|a agents IH]; simpl.
  - split; [discriminate|]. intros (pre & b & post & H & _). destruct pre; discriminate.
  - destruct (String.eqb (agent_id a) key || String.eqb (agent_host a) key) eqn:Hm.
    + apply names_agent_dec in Hm. split.
      * intros H. injection H as <-. exists [], a, agents.
        split; [reflexivity|]. split; [reflexivity|]. split; [exact Hm|]. intros b [].
      * intros (pre & b & post & Heq & Hid & Hb & Hpre).
        destruct pre as [|c pre]; simpl in Heq; injection Heq as -> ->.
        -- rewrite Hid. reflexivity.
        -- exfalso. apply (Hpre c); [left; reflexivity | exact Hm].
    + assert (Hn : ~ names_agent key a).
      { intros H. apply names_agent_dec in H. congruence. }
      rewrite IH. split.
      * intros (pre & b & post & -> & Hid & Hb & Hpre).
        exists (a :: pre), b, post. split; [reflexivity|]. split; [exact Hid|].
        split; [exact Hb|]. intros c [<-|Hc]; auto.
      * intros (pre & b & post & Heq & Hid & Hb & Hpre).
        destruct pre as [|c pre]; simpl in Heq; injection Heq as -> ->.
        -- contradiction.
        -- exists pre, b, post. split; [reflexivity|]. split; [exact Hid|].
           split; [exact Hb|]. intros d Hd. apply Hpre. right; exact Hd.
Qed.

Lemma find_agent_id_none (agents : list Agent) (key : string) :
  find_agent_id agents key = None <-> forall a, In a agents -> ~ names_agent key a.
Proof.
  induction agents as [|a agents IH]; simpl.
  - split; [intros _ b [] | reflexivity].
  - destruct (String.eqb (agent_id a) key || String.eqb (agent_host a) key) eqn:Hm.
    + apply names_agent_dec in Hm. split; [discriminate|].
      intros H. exfalso. apply (H a); [left; reflexivity | exact Hm].
    + assert (Hn : ~ names_agent key a).
      { intros H. apply names_agent_dec in H. congruence. }
      rewrite IH. split.
      * intros H b [<-|Hb]; auto.
      * intros H b Hb. apply H. right; exact Hb.
Qed.

Section SourceAgentResults.
Context {W : Type} {directory : AgentDirectory W}.

Lemma get_agent_id_eq (key : string) (s : St W) (agents : list Agent) (w' : W) :
  list_l3_agents (world s) = (Ret agents, w') ->
  _get_agent_id key s
  = (Ret (find_agent_id agents key),
     {| world := w'; trace := trace s ++ [EvListAgents] |}).
Proof.
  intros H. unfold _get_agent_id, bind, neutron_list_l3_agents, call.
  rewrite H. reflexivity.
Qed.

(** X16. [_get_agent_id] returns the id of the first listed agent whose id or
    whose host is the given name, and nothing when no listed agent has that
    id or host. *)
Theorem get_agent_id_first_match (key : string) (s : St W)
    (agents : list Agent) (w' : W) :
  list_l3_agents (world s) = (Ret agents, w') ->
  (forall id,
     fst (_get_agent_id key s) = Ret (Some id) <->
     exists pre a post,
       agents = (pre ++ a :: post)%list /\ agent_id a = id /\ names_agent key a
       /\ forall b, In b pre -> ~ names_agent key b)
  /\ (fst (_get_agent_id key s) = Ret None
      <-> forall a, In a agents -> ~ names_agent key a).
Proof.
  intros Hlist. rewrite (get_agent_id_eq key s agents w' Hlist). simpl. split.
  - intros id. rewrite <- find_agent_id_first. split; [|intros ->; reflexivity].
    intros H. injection H as H. exact H.
  - rewrite <- find_agent_id_none. split; [|intros ->; reflexivity].
    intros H. injection H as H. exact H.
Qed.

(** X17. The source agent of an evacuator.  Without [agent] and [target] the
    constructor raises before any call.  When both are given, with [id1] and
    [id2] what [_get_agent_id] finds for them: two different ids raise; an
    id that is returned is not empty and is [id1] or [id2]; and a name that
    is found for no agent is passed over without an error when the other
    name is found. *)
Theorem resolve_agent_id_cases (agent target : string) (s : St W)
    (agents1 agents2 : list Agent) (w1 w2 : W) :
  truthy (Some agent) = true -> truthy (Some target) = true ->
  list_l3_agents (world s) = (Ret agents1, w1) ->
  list_l3_agents w1 = (Ret agents2, w2) ->
  let id1 := find_agent_id agents1 agent in
  let id2 := find_agent_id agents2 target in
  let r := fst (resolve_agent_id (Some (Some agent)) (Some (Some target)) s) in
  resolve_agent_id None None s
  = (Raise (Exception "Missing target hostname or agent id"), s)
  /\ (forall id, r = Ret id -> truthy (Some id) = true /\ (id1 = Some id \/ id2 = Some id))
  /\ (truthy id1 = true -> truthy id2 = true -> id1 <> id2 ->
      r = Raise (Exception "target hostname not match agent id"))
  /\ (id1 = None -> truthy id2 = true -> exists id, id2 = Some id /\ r = Ret id)
  /\ (id2 = None -> truthy id1 = true -> exists id, id1 = Some id /\ r = Ret id)
  /\ (truthy id1 = false -> truthy id2 = false ->
      r = Raise (Exception "Invalid target hostname or agent id")).
Proof.
  intros Ha Ht Hl1 Hl2 id1 id2 r.
  assert (Hr : r = if truthy id1 && truthy id2 then
                     match id1, id2 with
                     | Some i1, Some i2 =>
                         if String.eqb i1 i2 then Ret i1
                         else Raise (Exception "target hostname not match agent id")
                     | _, _ => Raise (Exception "Invalid target hostname or agent id")
                     end
                   else if truthy id1 then
                     match id1 with
                     | Some i1 => Ret i1
                     | None => Raise (Exception "Invalid target hostname or agent id")
                     end
                   else if truthy id2 then
                     match id2 with
                     | Some i2 => Ret i2
                     | None => Raise (Exception "Invalid target hostname or agent id")
                     end
                   else Raise (Exception "Invalid target hostname or agent id")).
  { unfold r, resolve_agent_id. rewrite Ha, Ht.
    unfold bind at 1. rewrite (get_agent_id_eq agent s agents1 w1 Hl1).
    unfold bind at 1.
    rewrite (get_agent_id_eq target
               {| world := w1; trace := (trace s ++ [EvListAgents])%list |}
               agents2 w2 Hl2).
    fold id1 id2.
    destruct (truthy id1 && truthy id2).
    - destruct id1 as [i1|]; [|reflexivity]. destruct id2 as [i2|]; [|reflexivity].
      destruct (String.eqb i1 i2); reflexivity.
    - destruct (truthy id1); [destruct id1; reflexivity|].
      destruct (truthy id2); [destruct id2; reflexivity | reflexivity]. }
  split; [reflexivity|]. rewrite Hr. clear Hr r.
  split; [|split; [|split; [|split]]].
  - intros id. destruct id1 as [i1|], id2 as [i2|]; simpl.
    + destruct (negb (String.eqb i1 "")) eqn:H1, (negb (String.eqb i2 "")) eqn:H2; simpl;
        try discriminate.
      * destruct (String.eqb i1 i2); [|discriminate].
        intros H. injection H as <-. auto.
      * intros H. injection H as <-. auto.
      * intros H. injection H as <-. auto.
    + destruct (negb (String.eqb i1 "")) eqn:H1; simpl; [|discriminate].
      intros H. injection H as <-. auto.
    + destruct (negb (String.eqb i2 "")) eqn:H2; simpl; [|discriminate].
      intros H. injection H as <-. auto.
    + discriminate.
  - intros H1 H2 Hne. rewrite H1, H2. simpl.
    destruct id1 as [i1|]; [|discriminate]. destruct id2 as [i2|]; [|discriminate].
    destruct (String.eqb_spec i1 i2) as [->|_]; [congruence | reflexivity].
  - intros -> H2. simpl. rewrite H2.
    destruct id2 as [i2|]; [|discriminate]. exists i2. auto.
  - intros -> H1. rewrite H1. simpl.
    destruct id1 as [i1|]; [|discriminate]. exists i1. auto.
  - intros -> ->. reflexivity.
Qed.

End SourceAgentResults.

(* ------------------------------------------------------------------------- *)
(** ** Stopping the agent and the run as a whole *)

Lemma get_next_loop_count (candidate : nat) :
  forall (p p' : Picker) (next : option (Agent * Router)),
    get_next_loop candidate p = Ret (next, p') ->
    src_router_count p' = src_router_count p.
Proof.
  induction candidate as [|c IH]; intros p p' next H; simpl in H.
  - injection H as _ <-. reflexivity.
  - unfold dest_cycle_next in H.
    destruct (nth_error (dest_cycle_keys p) (dest_cycle_pos p)) as [k|]; [|discriminate].
    simpl in H. unfold getitem in H.
    destruct (PyDict.get k (dest p)) as [e|]; [|discriminate]. simpl in H.
    destruct (pop_last (de_routers e)) as [[router rest]|].
    + injection H as _ <-. reflexivity.
    + rewrite (IH _ _ _ H). reflexivity.
Qed.

Section StopAndRunResults.
Context {W : Type} {neutron : NeutronClient W} {runner : RemoteExec W}
        {ansible : AnsibleService W}.

Lemma evacuate_loop_count (cfg : Config) (src : Agent) (fuel : nat) :
  forall (p p' : Picker) (s s' : St W),
    evacuate_loop cfg src fuel p s = (Ret p', s') ->
    src_router_count p' = src_router_count p.
Proof.
  induction fuel as [|fuel IH]; intros p p' s s' H; simpl in H.
  - injection H as <- _. reflexivity.
  - destruct (has_next p); [|injection H as <- _; reflexivity].
    unfold bind at 1 in H. unfold lift in H.
    destruct (get_next p) as [[next p1]|ex] eqn:Hget; [|discriminate].
    destruct next as [[agent router]|]; [|discriminate].
    unfold bind in H.
    destruct (migrate_router cfg src agent router None s) as [[[]|ex] s1]; [|discriminate].
    rewrite (IH _ _ _ _ H).
    apply (get_next_loop_count _ _ _ _ Hget).
Qed.

(** X18. [_stop_agent].  Through [AnsibleRemoteRunner.service_exec] it returns
    when Ansible contacted the host and the answer holds a state and a
    change flag, whatever the state is; for a host that Ansible could not
    reach, [service_exec] returns a triple and the unpacking into a pair
    raises [ValueError]; for a host that Ansible does not report at all it
    raises [KeyError].  With a runner that has no [service_exec] it issues
    the one command [service neutron-l3-agent stop] and returns whatever the
    command answers. *)
Theorem stop_agent_cases (host : string) (s : St W) (results : ServiceResults) (w' : W) :
  ansible_service host "neutron-l3-agent" "stopped" (world s) = (Ret results, w') ->
  let stop := _stop_agent (Some AnsibleRemoteRunner_service_exec) host in
  let s' := {| world := w'; trace := trace s |} in
  (forall r state changed,
     PyDict.get host (contacted results) = Some r ->
     sv_state r = Some state -> sv_changed r = Some changed ->
     stop s = (Ret tt, s'))
  /\ (forall r, PyDict.get host (contacted results) = Some r ->
        sv_state r = None -> stop s = (Raise (KeyError "state"), s'))
  /\ (forall failure,
        PyDict.get host (contacted results) = None ->
        PyDict.get host (dark results) = Some failure ->
        stop s = (Raise (ValueError "too many values to unpack"), s'))
  /\ (PyDict.get host (contacted results) = None ->
      PyDict.get host (dark results) = None ->
      stop s = (Raise (KeyError host), s'))
  /\ _stop_agent None host s
     = (Ret tt, after_run host ["service"; "neutron-l3-agent"; "stop"] s).
Proof.
  intros Hans stop s'.
  unfold stop, _stop_agent, AnsibleRemoteRunner_service_exec, bind, untraced.
  rewrite Hans. fold s'.
  split; [|split; [|split; [|split]]].
  - intros r state changed -> -> ->. reflexivity.
  - intros r -> ->. reflexivity.
  - intros failure -> ->. reflexivity.
  - intros -> ->. reflexivity.
  - destruct (run_returns host ["service"; "neutron-l3-agent"; "stop"] s) as [v ->].
    reflexivity.
Qed.

(** X19. The count that [run] reports.  Without the option to stop the agent,
    one pass is all [run] does, and the number it reports as evacuated is
    the number that [init] recorded in [src_router_count], whatever the
    migrations did and whatever is still listed on the source agent
    afterwards. *)
Theorem run_reports_init_count (cfg : Config) (src : Agent)
    (service_exec : option (string -> string -> string -> M W service_reply))
    (picker_init : Picker -> M W (nat * Picker))
    (p p1 p2 : Picker) (s s1 s2 : St W) (count n : nat)
    (left_routers : list Router) (w3 : W) (fuel : nat) :
  picker_init p s = (Ret (count, p1), s1) ->
  src_router_count p1 = Some n ->
  evacuate cfg src p1 s1 = (Ret p2, s2) ->
  list_routers_on_l3_agent (agent_id src) (world s2) = (Ret left_routers, w3) ->
  run_passes service_exec cfg src false picker_init (S fuel) p s
  = (Ret (Some ({| sum_evacuated := n; sum_agent_id := agent_id src;
                   sum_host := agent_host src |}, p2)),
     {| world := w3; trace := trace s2 ++ [EvListRouters (agent_id src)] |}).
Proof.
  intros Hinit Hcount Hev Hlist.
  assert (Hcount2 : src_router_count p2 = Some n).
  { unfold evacuate in Hev. rewrite (evacuate_loop_count _ _ _ _ _ _ _ Hev). exact Hcount. }
  simpl. unfold bind at 1. rewrite Hinit.
  unfold bind at 1. rewrite Hev.
  unfold bind at 1. unfold bind at 1.
  rewrite (list_routers_call _ _ _ _ Hlist). simpl.
  rewrite Hcount2. reflexivity.
Qed.

End StopAndRunResults.

(* ------------------------------------------------------------------------- *)
(** ** The Balance selector on equal loads *)

Lemma min_from_keeps {A} (key : A -> Z) (best : A) (xs : list A) :
  (forall x, In x xs -> key best <= key x) -> min_from key best xs = best.
Proof.
  induction xs as [|x xs IH]; intros H; simpl; [reflexivity|].
  replace (key x <? key best) with false
    by (symmetry; apply Z.ltb_ge; apply H; left; reflexivity).
  apply IH. intros y Hy. apply H. right; exact Hy.
Qed.

Lemma min_from_first {A} (key : A -> Z) (pre post : list A) (m : A) :
  forall best,
    key m < key best ->
    (forall x, In x pre -> key m < key x) ->
    (forall x, In x post -> key m <= key x) ->
    min_from key best (pre ++ m :: post) = m.
Proof.
  induction pre as [|a pre IH]; intros best Hbest Hpre Hpost; simpl.
  - replace (key m <? key best) with true by (symmetry; apply Z.ltb_lt; exact Hbest).
    apply min_from_keeps, Hpost.
  - destruct (key a <? key best).
    + apply IH; [apply Hpre; left; reflexivity | | exact Hpost].
      intros x Hx. apply Hpre. right; exact Hx.
    + apply IH; [exact Hbest | | exact Hpost].
      intros x Hx. apply Hpre. right; exact Hx.
Qed.

Lemma py_min_first {A} (key : A -> Z) (pre post : list A) (m : A) :
  (forall x, In x pre -> key m < key x) ->
  (forall x, In x post -> key m <= key x) ->
  py_min key (pre ++ m :: post) = Ret m.
Proof.
  intros Hpre Hpost. destruct pre as [|a pre]; simpl.
  - f_equal. apply min_from_keeps, Hpost.
  - f_equal. apply min_from_first; [apply Hpre; left; reflexivity | | exact Hpost].
    intros x Hx. apply Hpre. right; exact Hx.
Qed.

Lemma balance_totals_keys (d : PyDict.dict DestEntry) (ks : list string) :
  forall (acc totals : PyDict.dict Z),
    NoDup (PyDict.keys acc ++ ks) ->
    balance_totals d ks acc = Ret totals ->
    PyDict.keys totals = (PyDict.keys acc ++ ks)%list.
Proof.
  induction ks as [|k ks IH]; intros acc totals Hnd H; simpl in H.
  - injection H as <-. rewrite app_nil_r. reflexivity.
  - unfold getitem in H. destruct (PyDict.get k d) as [e|]; [|discriminate].
    simpl in H.
    assert (Hk : existsb (String.eqb k) (PyDict.keys acc) = false).
    { destruct (existsb (String.eqb k) (PyDict.keys acc)) eqn:He; [|reflexivity].
      apply existsb_exists in He. destruct He as (x & Hx & Heq).
      apply String.eqb_eq in Heq. subst x.
      apply NoDup_remove_2 in Hnd. exfalso. apply Hnd.
      apply in_or_app. left; exact Hx. }
    assert (Hkeys : PyDict.keys (PyDict.set k (agent_routers (de_agent e)) acc)
                    = (PyDict.keys acc ++ [k])%list)
      by (rewrite keys_set, Hk; reflexivity).
    rewrite (IH _ _ (ltac:(rewrite Hkeys, <- app_assoc; exact Hnd)) H).
    rewrite Hkeys, <- app_assoc. reflexivity.
Qed.


Lemma even_total_step (c : Z) (D n j : nat) :
  (j < D)%nat ->
  even_total c D (S n) j
  = even_total c D n j + (if Nat.eqb j (Nat.modulo n D) then 1 else 0).
Proof.
  intros Hj. assert (HD : D <> 0%nat) by lia. unfold even_total.
  pose proof (Nat.div_mod_eq n D) as Hn.
  pose proof (Nat.mod_upper_bound n D HD) as Hi.
  set (q := Nat.div n D) in *. set (i := Nat.modulo n D) in *.
  destruct (Nat.eq_dec (S i) D) as [Hwrap|Hin].
  - assert (Hq : Nat.div (S n) D = S q)
      by (symmetry; apply (Nat.div_unique (S n) D (S q) 0); lia).
    assert (Hm : Nat.modulo (S n) D = 0%nat)
      by (symmetry; apply (Nat.mod_unique (S n) D (S q) 0); lia).
    rewrite Hq, Hm.
    destruct (Nat.ltb_spec j 0); destruct (Nat.ltb_spec j i);
      destruct (Nat.eqb_spec j i); lia.
  - assert (Hq : Nat.div (S n) D = q)
      by (symmetry; apply (Nat.div_unique (S n) D q (S i)); lia).
    assert (Hm : Nat.modulo (S n) D = S i)
      by (symmetry; apply (Nat.mod_unique (S n) D q (S i)); lia).
    rewrite Hq, Hm.
    destruct (Nat.ltb_spec j (S i)); destruct (Nat.ltb_spec j i);
      destruct (Nat.eqb_spec j i); lia.
Qed.

Lemma balance_loop_even (c : Z) (routers : list Router) :
  forall (totals : PyDict.dict Z) (d : PyDict.dict DestEntry) (n : nat),
    let ks := PyDict.keys totals in
    let D := List.length ks in
    D <> 0%nat -> NoDup ks ->
    (forall k, In k ks -> PyDict.get k d <> None) ->
    (forall j k, nth_error ks j = Some k ->
       PyDict.get k totals = Some (even_total c D n j)) ->
    exists totals' d',
      balance_loop routers totals d = Ret (totals', d')
      /\ PyDict.keys d' = PyDict.keys d
      /\ forall j k, nth_error ks j = Some k ->
           option_map de_routers (PyDict.get k d')
           = option_map (fun e => de_routers e ++ picks D n j routers)%list
                        (PyDict.get k d).
Proof.
  induction routers as [|router routers IH]; intros totals d n ks D HD Hnd Hdom Hval.
  - simpl. exists totals, d. split; [reflexivity|]. split; [reflexivity|].
    intros j k _. destruct (PyDict.get k d); simpl; [rewrite app_nil_r|]; reflexivity.
  - set (i := Nat.modulo n D).
    assert (Hi : (i < D)%nat) by (apply Nat.mod_upper_bound; exact HD).
    destruct (nth_error ks i) as [m|] eqn:Hm;
      [|apply nth_error_None in Hm; fold D in Hm; lia].
    destruct (nth_error_split ks i Hm) as (pre & post & Hks & Hpre).
    assert (Hmin : py_min (total_of totals) ks = Ret m).
    { rewrite Hks. apply py_min_first.
      - intros x Hx. apply In_nth_error in Hx. destruct Hx as [j Hj].
        assert (Hjlt : (j < i)%nat) by (rewrite <- Hpre; apply nth_error_Some; congruence).
        assert (Hjks : nth_error ks j = Some x)
          by (rewrite Hks, nth_error_app1 by lia; exact Hj).
        unfold total_of. rewrite (Hval _ _ Hjks), (Hval _ _ Hm).
        unfold even_total. fold i.
        replace (Nat.ltb j i) with true by (symmetry; apply Nat.ltb_lt; exact Hjlt).
        rewrite Nat.ltb_irrefl. lia.
      - intros x Hx. apply In_nth_error in Hx. destruct Hx as [j Hj].
        assert (Hjks : nth_error ks (S i + j) = Some x).
        { rewrite Hks, nth_error_app2 by lia.
          replace (S i + j - List.length pre)%nat with (S j) by lia. exact Hj. }
        unfold total_of. rewrite (Hval _ _ Hjks), (Hval _ _ Hm).
        unfold even_total. fold i.
        replace (Nat.ltb (S i + j) i) with false by (symmetry; apply Nat.ltb_ge; lia).
        rewrite Nat.ltb_irrefl. lia. }
    simpl. fold ks. rewrite Hmin. simpl. unfold getitem.
    assert (Hmd : PyDict.get m d <> None) by (apply Hdom; eapply nth_error_In; eauto).
    destruct (PyDict.get m d) as [e0|] eqn:He0; [clear Hmd | congruence].
    rewrite (Hval _ _ Hm). simpl.
    set (totals1 := PyDict.set m (even_total c D n i + 1) totals).
    assert (Hkeys1 : PyDict.keys totals1 = ks).
    { unfold totals1. rewrite keys_set. fold ks.
      replace (existsb (String.eqb m) ks) with true; [reflexivity|].
      symmetry. apply existsb_exists. exists m.
      split; [eapply nth_error_In; eauto | apply String.eqb_refl]. }
    destruct (IH totals1 (PyDict.update m (append_router router) d) (S n))
      as (totals' & d' & Hloop & Hkeys & Hq).
    + rewrite Hkeys1. exact HD.
    + rewrite Hkeys1. exact Hnd.
    + rewrite Hkeys1. intros k Hk. rewrite get_update.
      specialize (Hdom k Hk). destruct (String.eqb k m); [|exact Hdom].
      destruct (PyDict.get k d); [discriminate | congruence].
    + rewrite Hkeys1. fold D. intros j k Hj. unfold totals1. rewrite get_set.
      assert (Hjlt : (j < D)%nat) by (apply nth_error_Some; congruence).
      rewrite (even_total_step c D n j Hjlt). fold i.
      destruct (String.eqb_spec k m) as [->|Hkm].
      * assert (j = i).
        { eapply (proj1 (NoDup_nth_error ks) Hnd); [exact Hjlt | congruence]. }
        subst j. rewrite Nat.eqb_refl. reflexivity.
      * assert (Hji : j <> i) by (intros ->; congruence).
        rewrite (Hval _ _ Hj).
        destruct (Nat.eqb_spec j i); [congruence|].
        f_equal. lia.
    + rewrite Hkeys1 in Hq. fold D in Hq.
      exists totals', d'. split; [exact Hloop|]. split.
      * rewrite Hkeys. apply keys_update.
      * intros j k Hj. rewrite (Hq j k Hj), get_update. simpl picks. fold i.
        destruct (String.eqb_spec k m) as [->|Hkm].
        -- assert (j = i).
           { eapply (proj1 (NoDup_nth_error ks) Hnd); [|congruence].
             apply nth_error_Some. congruence. }
           subst j. rewrite Nat.eqb_refl, He0. simpl.
           rewrite <- app_assoc. reflexivity.
        -- destruct (Nat.eqb_spec i j) as [<-|_]; [congruence|]. reflexivity.
Qed.

(* ------------------------------------------------------------------------- *)
(** ** The selectors: what [init] assigns to which destination *)


Lemma picks_from (D j : nat) (routers : list Router) :
  forall c i,
    picks D (c + i) j routers
    = map snd (filter (fun kr => Nat.eqb (Nat.modulo (c + fst kr) D) j)
                      (combine (seq i (List.length routers)) routers)).
Proof.
  induction routers as [|r rs IH]; intros c i; simpl; [reflexivity|].
  replace (S (c + i)) with (c + S i)%nat by lia. rewrite IH.
  destruct (Nat.eqb (Nat.modulo (c + i) D) j); reflexivity.
Qed.

Lemma picks_assigned_from (D c j : nat) (routers : list Router) :
  picks D c j routers = assigned_from D c j routers.
Proof.
  unfold assigned_from. rewrite <- (picks_from D j routers c 0).
  rewrite Nat.add_0_r. reflexivity.
Qed.

Lemma cycle_loop_pos (routers : list Router) :
  forall p p' : Picker,
    cycle_loop routers p = Ret p' ->
    (dest_cycle_pos p < List.length (dest_cycle_keys p))%nat ->
    dest_cycle_keys p' = dest_cycle_keys p
    /\ dest_cycle_pos p'
       = Nat.modulo (dest_cycle_pos p + List.length routers)
                    (List.length (dest_cycle_keys p)).
Proof.
  induction routers as [|router routers IH]; intros p p' Hloop Hpos.
  - simpl in Hloop. injection Hloop as <-. split; [reflexivity|].
    rewrite Nat.add_0_r. symmetry. apply Nat.mod_small, Hpos.
  - simpl in Hloop. unfold dest_cycle_next in Hloop.
    destruct (nth_error (dest_cycle_keys p) (dest_cycle_pos p)) as [k0|]; [|discriminate].
    simpl in Hloop. unfold getitem in Hloop.
    destruct (PyDict.get k0 (dest p)) as [e0|]; [|discriminate].
    simpl in Hloop.
    apply IH in Hloop; simpl in Hloop.
    + destruct Hloop as [Hkeys Hp']. split; [exact Hkeys|].
      rewrite Hp', Nat.Div0.add_mod_idemp_l. f_equal. simpl. lia.
    + simpl. apply Nat.mod_upper_bound. lia.
Qed.

Lemma all_queued_nil (p : Picker) :
  all_queued p = [] -> forall k, queue_of p k = [].
Proof.
  unfold all_queued, queue_of. intros Hall k.
  induction (dest p) as [|[k0 e0] d IH]; simpl in *; [reflexivity|].
  apply app_eq_nil in Hall. destruct Hall as [He Hd].
  destruct (String.eqb k k0); [exact He | exact (IH Hd)].
Qed.

Section SelectorResults.
Context {W : Type} {neutron : NeutronClient W} {order : DictOrder}.


(** C7 (amended). A picker as [Picker.__init__] leaves it is in working
    order, its cycle stands at position 0 and its queues are empty.  On a
    picker in working order with [D >= 1] destinations whose cycle stands at
    position [c], [CyclePicker.init] appends the router at position [k] of
    the listing to the queue of the destination at position [(c + k) mod D]
    of the destination ordering, and leaves the picker in working order
    with the cycle at position [(c + n) mod D].  So on a picker fresh from the constructor the router
    at position [k] is queued for the destination at position [k mod D]; on
    a picker that has been used, as when [run] calls itself, it need not
    be. *)
Theorem cycle_assigns_round_robin (p : Picker) (s : St W)
    (routers : list Router) (w' : W) :
  (forall src_agent s0 s1,
     Picker_init src_agent s0 = (Ret p, s1) ->
     picker_wf p /\ dest_cycle_pos p = 0%nat /\ all_queued p = []
     /\ picker_src_agent p = src_agent)
  /\ (picker_wf p ->
      dest p <> [] ->
      list_routers_on_l3_agent (agent_id (picker_src_agent p)) (world s)
      = (Ret routers, w') ->
      let ks := PyDict.keys (dest p) in
      let D := List.length ks in
      let c := dest_cycle_pos p in
      exists p' s',
        CyclePicker_init p s = (Ret (List.length routers, p'), s')
        /\ picker_wf p'
        /\ PyDict.keys (dest p') = ks
        /\ dest_cycle_pos p' = Nat.modulo (c + List.length routers) D
        /\ (forall j agent_id, nth_error ks j = Some agent_id ->
              queue_of p' agent_id
              = (queue_of p agent_id ++ assigned_from D c j routers)%list)
        /\ (forall k router, nth_error routers k = Some router ->
              exists agent_id, nth_error ks (Nat.modulo (c + k) D) = Some agent_id
                               /\ In router (queue_of p' agent_id))
        /\ (c = 0%nat -> all_queued p = [] ->
            forall j agent_id, nth_error ks j = Some agent_id ->
              queue_of p' agent_id = assigned_to D j routers)).
Proof.
  split.
  - intros src_agent s0 s1 Hinit.
    destruct (Picker_init_wf _ _ _ _ Hinit) as (Hwf & _ & Hempty & Hsrc).
    destruct (Picker_init_fresh _ _ _ _ Hinit) as (_ & _ & Hpos & _).
    auto.
  - intros Hwf Hdest Hlist ks D c.
    pose proof Hwf as (Hcyc & Hnd & Hpos & _).
    assert (HD : D <> 0%nat).
    { unfold D, ks, PyDict.keys. rewrite length_map.
      destruct (dest p); [congruence | discriminate]. }
    assert (Hc : (c < D)%nat).
    { destruct Hpos as [E|Hlt]; [congruence | exact Hlt]. }
    set (q := set_src_router_count (List.length routers) p).
    destruct (cycle_loop_spec routers q c) as (p' & Hloop & Hkeys & Hq).
    + simpl. rewrite Hcyc. exact HD.
    + simpl. rewrite Hcyc. exact Hnd.
    + simpl. rewrite Hcyc. intros k Hk. apply get_in_keys, Hk.
    + simpl. rewrite Hcyc. fold ks D. symmetry. apply Nat.mod_small, Hc.
    + simpl in Hq. rewrite Hcyc in Hq. fold ks D in Hq.
      destruct (cycle_loop_pos routers q p' Hloop) as [_ Hpos'].
      { simpl. rewrite Hcyc. exact Hc. }
      simpl in Hpos'. rewrite Hcyc in Hpos'. fold ks D c in Hpos'.
      assert (Hqueue : forall j agent_id, nth_error ks j = Some agent_id ->
                queue_of p' agent_id
                = (queue_of p agent_id ++ assigned_from D c j routers)%list).
      { intros j k Hj. rewrite (Hq j k Hj), picks_assigned_from. reflexivity. }
      exists p'. eexists. split; [|split; [|split; [|split; [|split; [|split]]]]].
      * unfold CyclePicker_init, bind.
        rewrite (list_routers_call _ _ _ _ Hlist). simpl.
        fold q. rewrite Hloop. reflexivity.
      * exact (proj1 (cycle_loop_keeps routers q p' Hloop Hwf)).
      * exact Hkeys.
      * exact Hpos'.
      * exact Hqueue.
      * intros k router Hk.
        assert (Hlt : (Nat.modulo (c + k) D < List.length ks)%nat)
          by (apply Nat.mod_upper_bound; exact HD).
        destruct (nth_error ks (Nat.modulo (c + k) D)) as [a|] eqn:Ha;
          [|apply nth_error_None in Ha; lia].
        exists a. split; [reflexivity|].
        rewrite (Hqueue _ _ Ha). apply in_or_app; right. unfold assigned_from.
        apply in_map_iff. exists (k, router). split; [reflexivity|].
        apply filter_In. split.
        -- apply (nth_error_combine_seq routers 0 k router Hk).
        -- simpl. apply Nat.eqb_refl.
      * intros Hc0 Hempty j k Hj.
        rewrite (Hqueue j k Hj), (all_queued_nil p Hempty k), Hc0. reflexivity.
Qed.

(** X20. With destinations that all report the same number of routers, the
    Balance selector on a new picker assigns in turn, in the order in which
    [totals] lists its keys: with [D] destinations, the queue of the
    destination at position [j] of [totals.keys()] holds the routers at the
    listing positions [k] with [k mod D = j], in listing order.  [totals] is
    filled in the order of [dest.keys()] and lists its keys in an order of
    its own, which need not be that of [dest.keys()]. *)
Theorem balance_equal_loads_round_robin (src_agent : Agent) (s0 s1 s : St W)
    (p : Picker) (routers : list Router) (w' : W) (c : Z) :
  Picker_init src_agent s0 = (Ret p, s1) ->
  dest p <> [] ->
  (forall k e, PyDict.get k (dest p) = Some e -> agent_routers (de_agent e) = c) ->
  list_routers_on_l3_agent (agent_id src_agent) (world s) = (Ret routers, w') ->
  let totals_keys := keys_order (PyDict.keys (dest p)) in
  let D := List.length totals_keys in
  exists p' s',
    BalancePicker_init p s = (Ret (List.length routers, p'), s')
    /\ PyDict.keys (dest p') = PyDict.keys (dest p)
    /\ forall j agent_id, nth_error totals_keys j = Some agent_id ->
         queue_of p' agent_id = assigned_to D j routers.
Proof.
  intros Hinit Hne Hloads Hlist tk D.
  destruct (Picker_init_fresh _ _ _ _ Hinit) as (Hsrc & Hcyc & Hpos & Hnd & Hfresh).
  destruct (balance_totals_spec (dest p) (PyDict.keys (dest p)) [])
    as (totals0 & Htot & Hget0).
  { intros k Hk. apply get_in_keys, Hk. }
  assert (Hkeys0 : PyDict.keys totals0 = PyDict.keys (dest p)).
  { apply (balance_totals_keys (dest p) (PyDict.keys (dest p)) [] totals0);
      [exact Hnd | exact Htot]. }
  set (totals := arrange totals0).
  assert (Hkeys : PyDict.keys totals = tk).
  { unfold totals, tk. rewrite keys_arrange, Hkeys0. reflexivity. }
  assert (Hin : forall k, In k tk <-> In k (PyDict.keys (dest p)))
    by (intros k; apply keys_order_in).
  assert (Hndt : NoDup tk).
  { apply (Permutation_NoDup (Permutation_sym (keys_order_perm _)) Hnd). }
  assert (HD : D <> 0%nat).
  { unfold D, tk. rewrite (Permutation_length (keys_order_perm _)).
    unfold PyDict.keys. rewrite length_map.
    destruct (dest p); [congruence | discriminate]. }
  destruct (balance_loop_even c routers totals (dest p) 0)
    as (totals' & d' & Hloop & Hk' & Hq).
  - rewrite Hkeys. exact HD.
  - rewrite Hkeys. exact Hndt.
  - rewrite Hkeys. intros k Hk. apply get_in_keys, Hin, Hk.
  - rewrite Hkeys. fold D. intros j k Hj. unfold totals. rewrite get_arrange, Hget0.
    assert (Hink : In k (PyDict.keys (dest p))) by (apply Hin; eapply nth_error_In; eauto).
    replace (existsb (String.eqb k) (PyDict.keys (dest p))) with true
      by (symmetry; apply existsb_exists; exists k; split;
          [exact Hink | apply String.eqb_refl]).
    apply get_in_keys in Hink.
    destruct (PyDict.get k (dest p)) as [e|] eqn:He; [|congruence].
    simpl. rewrite (Hloads k e He). unfold even_total.
    rewrite Nat.Div0.div_0_l, Nat.Div0.mod_0_l. simpl. f_equal. lia.
  - rewrite Hkeys in Hq. fold D in Hq.
    eexists (set_dest d' (set_src_router_count (List.length routers) p)). eexists.
    split; [|split].
    + unfold BalancePicker_init, bind.
      rewrite Hsrc, (list_routers_call _ _ _ _ Hlist). simpl.
      rewrite Htot. simpl. fold totals. rewrite Hloop. reflexivity.
    + exact Hk'.
    + intros j k Hj. unfold queue_of. simpl.
      specialize (Hq j k Hj).
      assert (Hink : PyDict.get k (dest p) <> None)
        by (apply get_in_keys, Hin; eapply nth_error_In; eauto).
      destruct (PyDict.get k (dest p)) as [e|] eqn:He; [|congruence].
      simpl in Hq. destruct (PyDict.get k d') as [e'|]; [|discriminate].
      simpl in Hq. injection Hq as ->.
      apply get_some_in in He. rewrite Forall_forall in Hfresh.
      specialize (Hfresh _ He). simpl in Hfresh. rewrite Hfresh. simpl.
      apply picks_positions.
Qed.

End SelectorResults.

(* ------------------------------------------------------------------------- *)
(** ** What verification and migration run on which host *)

Section CommandsPerHost.
Context {W : Type} {neutron : NeutronClient W} {runner : RemoteExec W}.
Variable cfg : Config.
Variable P : event -> Prop.

Lemma spec_verify_router_on_host_on (agent : Agent) (router : Router) :
  (forall e, verification_event agent router e -> P e) ->
  spec (_verify_router_on_host agent router) (fun _ => True) P.
Proof.
  intros HP. unfold _verify_router_on_host.
  spec_seq.
  - unfold _verify_ports_on_host.
    spec_seq; [apply spec_call, HP; reflexivity|].
    destruct (Nat.eqb (List.length a) 0); [spec_done|].
    spec_seq; [|spec_done].
    eapply spec_weaken; [apply spec_list_nics with (P := P) | auto | auto].
    apply HP. split; [reflexivity | right; left; reflexivity].
  - destruct (negb a); [spec_done|].
    unfold _verify_ipforward_on_host.
    spec_seq.
    + apply spec_run, HP. split; [reflexivity | right; right; reflexivity].
    + destruct a0 as [[] out]; spec_done.
Qed.

Lemma spec_ensure_router_added_on (agent : Agent) (router : Router) :
  (forall e, verification_event agent router e -> P e) ->
  spec (_ensure_router_added agent router) (fun _ => True) P.
Proof.
  intros HP. unfold _ensure_router_added.
  apply spec_try_except; [|intros e; spec_done].
  unfold _ensure_router_added_try.
  spec_seq.
  - apply spec_wait_until. unfold _verify_router_snat_rule.
    spec_seq.
    + apply spec_run, HP. split; [reflexivity | left; reflexivity].
    + destruct a as [[] out]; spec_done.
  - spec_seq; [apply spec_verify_router_on_host_on; exact HP|].
    destruct (negb a0); [|spec_done].
    spec_seq.
    + unfold _extra_timeout_for_router.
      spec_seq; [apply spec_call, HP; reflexivity|].
      spec_seq; [apply spec_call, HP; reflexivity | spec_done].
    + spec_seq; [apply spec_wait_until, spec_verify_router_on_host_on; exact HP|].
      destruct (negb a2); spec_done.
Qed.

Lemma spec_ensure_router_cleaned_on (src : Agent) (router : Router) :
  (forall e, migration_command src router e -> P e) ->
  spec (_ensure_router_cleaned src router) (fun _ => True) P.
Proof.
  intros HP. unfold _ensure_router_cleaned. apply spec_try_except.
  - spec_seq; [|spec_done].
    unfold _ensure_clean_router_on_host.
    spec_seq.
    + eapply spec_weaken; [apply spec_list_nics with (P := P) | auto | auto].
      apply HP. left. right; left; reflexivity.
    + destruct (Nat.eqb (List.length a) 0); [spec_done|].
      spec_seq.
      * apply spec_clean_nics. intros nic br _. apply HP. right.
        split; [reflexivity|]. right. exists nic, br. reflexivity.
      * spec_seq; [|spec_done].
        unfold _clean_netns_on_host.
        spec_seq; [|spec_done].
        apply spec_run, HP. right. split; [reflexivity | left; reflexivity].
  - intros e; spec_done.
Qed.

Lemma verification_is_migration (src agent : Agent) (router : Router) (e : event) :
  verification_event agent router e -> migration_command src router e.
Proof.
  destruct e; simpl; try exact (fun _ => I).
  intros [_ Hread]. left; exact Hread.
Qed.

Lemma spec_retry_failed_router_on (router : Router) (src : Agent) (retry : Z) :
  (forall e, migration_command src router e -> P e) ->
  spec (_retry_failed_router cfg router src retry) (fun _ => True) P.
Proof.
  intros HP. unfold _retry_failed_router.
  induction (Z.to_nat (retry + 1)) as [|n IH]; simpl; [spec_done|].
  spec_seq; [apply spec_call, HP; exact I|].
  destruct a as [|agent agents].
  - spec_seq; [apply spec_add_router; apply HP; exact I|].
    spec_seq; [exact IH | spec_done].
  - spec_seq.
    + apply spec_ensure_router_added_on. intros e He.
      apply HP, (verification_is_migration src agent router e He).
    + destruct a; [|spec_done].
      spec_seq; [|spec_done].
      destruct (negb _); [|spec_done].
      spec_seq; [apply spec_ensure_router_cleaned_on; exact HP | spec_done].
Qed.

Lemma spec_migrate_router_on (self_src target : Agent) (router : Router)
    (src_agent : option Agent) :
  (forall e, migration_command
               (match src_agent with Some a => a | None => self_src end) router e -> P e) ->
  spec (migrate_router cfg self_src target router src_agent) (fun _ => True) P.
Proof.
  intros HP. unfold migrate_router.
  set (src := match src_agent with Some a => a | None => self_src end) in *.
  spec_seq; [apply spec_remove_router; apply HP; exact I|].
  destruct a; [|spec_done].
  spec_seq; [apply spec_add_router; apply HP; exact I|].
  spec_seq; [apply spec_call, HP; exact I|].
  destruct (a && Nat.ltb 0 (List.length a0)).
  - spec_seq.
    + apply spec_ensure_router_added_on. intros e He.
      apply HP, (verification_is_migration src target router e He).
    + destruct a1.
      * spec_seq; [apply spec_ensure_router_cleaned_on; exact HP | spec_done].
      * spec_seq; [apply spec_retry_failed_router_on; exact HP | spec_done].
  - destruct (Nat.eqb (List.length a0) 0); [spec_done|].
    spec_seq; [apply spec_retry_failed_router_on; exact HP | spec_done].
Qed.

End CommandsPerHost.

Section CommandsPerHostResults.
Context {W : Type} {neutron : NeutronClient W} {runner : RemoteExec W}.
Variable cfg : Config.

(** X21. [_ensure_router_added] only looks: every remote command it issues is
    one of the three reading commands, on the host of the agent and in the
    namespace of the router, and its only requests are queries for the ports
    and the floating IPs of the router.  It always returns. *)
Theorem ensure_router_added_reads_only (agent : Agent) (router : Router) (s : St W) :
  (exists b, fst (_ensure_router_added agent router s) = Ret b)
  /\ Forall (verification_event agent router)
            (emitted (_ensure_router_added agent router) s).
Proof.
  split; [apply ensure_router_added_returns|].
  apply (emitted_spec _ (fun _ => True)).
  apply spec_ensure_router_added_on. auto.
Qed.

(** X22. The remote commands of [migrate_router].  On a host other than that of
    the source agent it only reads from the namespace of the router; ports
    and the namespace are deleted on the host of the source agent only, and
    no namespace other than that of the router is deleted. *)
Theorem migrate_router_commands (self_src target : Agent) (router : Router)
    (src_agent : option Agent) (s : St W) :
  let src := match src_agent with Some a => a | None => self_src end in
  Forall (migration_command src router)
         (emitted (migrate_router cfg self_src target router src_agent) s).
Proof.
  intros src.
  apply (emitted_spec _ (fun _ => True)).
  apply spec_migrate_router_on. auto.
Qed.

End CommandsPerHostResults.

(* ------------------------------------------------------------------------- *)
(** ** More concrete runs on the test double *)

Section MoreConcreteRuns.
Import Runs MoreRuns.
#[local] Existing Instance insertion_order.

Lemma p_queued_wf : picker_wf p_queued.
Proof.
  split; [reflexivity|]. split; [|split].
  - repeat constructor; simpl; intuition discriminate.
  - right. simpl. lia.
  - intros k e. simpl.
    destruct (String.eqb_spec k "a1") as [->|_]; [intros [= <-]; reflexivity|].
    destruct (String.eqb_spec k "a2") as [->|_]; [intros [= <-]; reflexivity|].
    discriminate.
Defined.

Lemma picker_init_destinations_witness :
  exists p s1,
    Picker_init a_src (mock_start (world_two_dest [r1])) = (Ret p, s1)
    /\ PyDict.get "src" (dest p) = None.
Proof.
  assert (Hlist : list_agents (world (mock_start (world_two_dest [r1])))
                  = (Ret [a_src; a1; a2], world_two_dest [r1])) by reflexivity.
  destruct (picker_init_destinations a_src _ _ _ Hlist)
    as (p & s1 & Hinit & _ & _ & Hsrc & _).
  exists p, s1. split; [exact Hinit | exact Hsrc].
Defined.

Lemma get_next_hands_out_witness :
  picker_wf p_queued
  /\ exists next p',
       get_next p_queued = Ret (next, p')
       /\ (next = None <-> has_next p_queued = false).
Proof.
  split; [exact p_queued_wf|].
  destruct (get_next_hands_out p_queued p_queued_wf) as (next & p' & Hget & _ & Hnone & _).
  exists next, p'. split; [exact Hget | exact Hnone].
Defined.



Lemma verify_router_on_host_cases_witness :
  fst (_verify_router_on_host a1 r1 (mock_start world_router_up)) = Ret true.
Proof.
  set (s := mock_start world_router_up).
  set (s1 := {| world := world_router_up; trace := [EvListPorts "r1" (Some true)] |}).
  assert (Hports : neutron_list_ports (router_id r1) (Some true) s = (Ret [port1], s1))
    by reflexivity.
  destruct (verify_router_on_host_cases a1 r1 s s1 [port1] Hports) as [_ Hsome].
  assert (Hne : [port1] <> []) by discriminate.
  assert (Hnics : _list_nics_in_netns_on_remote (agent_host a1) (namespace_of r1) s1
                  = (Ret ["qr-0123456789a"; "qg-fedcba98765"],
                     after_run (agent_host a1) (_cmd_list_nic_in_netns (namespace_of r1)) s1))
    by (vm_compute; reflexivity).
  destruct (Hsome Hne _ _ Hnics) as [_ Hpresent].
  rewrite Hpresent by (vm_compute; reflexivity).
  reflexivity.
Defined.

Lemma ensure_clean_forced_cleanup_witness :
  let s := mock_start world_two_nics in
  fst (_ensure_clean_router_on_host a1 r1 s) = Ret true
  /\ emitted (_ensure_clean_router_on_host a1 r1) s
     = [EvRun "host-1" (_cmd_list_nic_in_netns "qrouter-r1");
        EvRun "host-1" (_cmd_delete_ovs_port "qr-0123456789a" "br-int" 10);
        EvRun "host-1" (_cmd_delete_ovs_port "qg-fedcba98765" "br-router" 10);
        EvRun "host-1" (_cmd_delete_netns "qrouter-r1")].
Proof.
  intros s.
  assert (Hnics : _list_nics_in_netns_on_remote (agent_host a1) (namespace_of r1) s
                  = (Ret ["qr-0123456789a"; "qg-fedcba98765"],
                     after_run (agent_host a1) (_cmd_list_nic_in_netns (namespace_of r1)) s))
    by (vm_compute; reflexivity).
  assert (Hne : ["qr-0123456789a"; "qg-fedcba98765"] <> []) by discriminate.
  exact (ensure_clean_forced_cleanup a1 r1 s _ _ Hnics Hne).
Defined.

Lemma retry_failed_router_hosted_witness :
  fst (_retry_failed_router cfg1 r1 a_src 1 (mock_start world_router_up))
  = Ret (Some true).
Proof.
  set (s := mock_start world_router_up).
  set (s1 := {| world := world_router_up; trace := [EvListHosting "r1"] |}).
  assert (Hretry : 0 <= 1) by lia.
  assert (Hlist : neutron_list_l3_agent_hosting_routers (router_id r1) s
                  = (Ret [a1], s1)) by reflexivity.
  destruct (retry_failed_router_hosted cfg1 r1 a_src 1 s s1 a1 [] Hretry Hlist)
    as (_ & Htrue & _).
  apply Htrue. vm_compute. reflexivity.
Defined.

Lemma get_agent_id_first_match_witness :
  fst (_get_agent_id "a1" (mock_start world_ambiguous)) = Ret (Some "a1").
Proof.
  assert (Hlist : list_l3_agents (world (mock_start world_ambiguous))
                  = (Ret [a_src; a1; a_twin], world_ambiguous)) by reflexivity.
  destruct (get_agent_id_first_match "a1" _ _ _ Hlist) as [Hsome _].
  apply Hsome. exists [a_src], a1, [a_twin].
  split; [reflexivity|]. split; [reflexivity|]. split; [left; reflexivity|].
  intros b [<-|[]] [H|H]; discriminate.
Defined.

Lemma resolve_agent_id_cases_witness :
  fst (resolve_agent_id (Some (Some "a9")) (Some (Some "a1")) (mock_start world_ambiguous))
  = Raise (Exception "target hostname not match agent id").
Proof.
  assert (Hagent : truthy (Some "a9") = true) by reflexivity.
  assert (Htarget : truthy (Some "a1") = true) by reflexivity.
  assert (Hlist1 : list_l3_agents (world (mock_start world_ambiguous))
                   = (Ret [a_src; a1; a_twin], world_ambiguous)) by reflexivity.
  assert (Hlist2 : list_l3_agents world_ambiguous
                   = (Ret [a_src; a1; a_twin], world_ambiguous)) by reflexivity.
  destruct (resolve_agent_id_cases "a9" "a1" _ _ _ _ _ Hagent Htarget Hlist1 Hlist2)
    as (_ & _ & Hdiffer & _).
  apply Hdiffer; [reflexivity | reflexivity | discriminate].
Defined.

Lemma stop_agent_cases_witness :
  _stop_agent (Some AnsibleRemoteRunner_service_exec) "host-src"
    (mock_start world_unreachable)
  = (Raise (ValueError "too many values to unpack"), mock_start world_unreachable).
Proof.
  assert (Hans : ansible_service "host-src" "neutron-l3-agent" "stopped"
                   (world (mock_start world_unreachable))
                 = (Ret {| contacted := [];
                           dark := [("host-src", "ssh: connect to host failed")] |},
                    world_unreachable)) by reflexivity.
  destruct (stop_agent_cases "host-src" _ _ _ Hans) as (_ & _ & Hdark & _).
  apply (Hdark "ssh: connect to host failed"); reflexivity.
Defined.

Lemma run_reports_init_count_witness :
  exists p2 s',
    run_passes None cfg1 a_src false CyclePicker_init 1 (fresh_picker [a1])
      (mock_start world_stuck)
    = (Ret (Some ({| sum_evacuated := 1; sum_agent_id := "src"; sum_host := "host-src" |},
                  p2)), s')
    /\ fst (neutron_list_routers_on_l3_agent "src" s') = Ret [r1].
Proof.
  eexists. eexists. split.
  - eapply (run_reports_init_count (W := MockWorld) cfg1 a_src None CyclePicker_init
              (fresh_picker [a1]) _ _ (mock_start world_stuck) _ _ _ 1%nat _ _ 0%nat).
    + vm_compute. reflexivity.
    + reflexivity.
    + vm_compute. reflexivity.
    + vm_compute. reflexivity.
  - vm_compute. reflexivity.
Defined.



(** C7 as stated fails on a picker that has been used.  After [init] with
    one router over two destinations and the hand-out of the assignment, as
    [evacuate] does it, a second [init], as when [run] calls itself, queues
    the router at position 0 of the listing for the destination at
    position 1. *)
Lemma cycle_assigns_round_robin_counterexample :
  let w := world_two_dest [r1] in
  let s1 := {| world := w; trace := [EvListAgents] |} in
  exists p1 s2 l p2 p3 s3,
    Picker_init a_src (mock_start w) = (Ret (fresh_picker [a1; a2]), s1)
    /\ CyclePicker_init (fresh_picker [a1; a2]) s1 = (Ret (1%nat, p1), s2)
    /\ drain p1 = Ret (l, p2)
    /\ has_next p2 = false
    /\ CyclePicker_init p2 s2 = (Ret (1%nat, p3), s3)
    /\ PyDict.keys (dest p3) = ["a1"; "a2"]
    /\ queue_of p3 "a1" = [] /\ queue_of p3 "a2" = [r1]
    /\ queue_of p3 "a1" <> assigned_to 2 0 [r1].
Proof.
  intros w s1. do 6 eexists.
  split; [reflexivity|]. split; [reflexivity|]. split; [reflexivity|].
  split; [reflexivity|]. split; [reflexivity|]. split; [reflexivity|].
  split; [reflexivity|]. split; [reflexivity|].
  vm_compute. discriminate.
Qed.

(** Three routers over two destinations.  On the picker fresh from the
    constructor the first and the third go to the first destination, the
    second to the second; on the picker of the run above, whose cycle stands
    at position 1, it is the other way round. *)
Lemma cycle_assigns_round_robin_witness :
  let w := world_two_dest [r1; r2; r3] in
  let used :=
    {| picker_src_agent := a_src;
       dest := [("a1", {| de_agent := a1; de_routers := [] |});
                ("a2", {| de_agent := a2; de_routers := [] |})];
       dest_cycle_keys := ["a1"; "a2"];
       dest_cycle_pos := 1%nat;
       src_router_count := Some 1%nat |} in
  (exists p' s2,
     Picker_init a_src (mock_start w)
     = (Ret (fresh_picker [a1; a2]), {| world := w; trace := [EvListAgents] |})
     /\ CyclePicker_init (fresh_picker [a1; a2]) (mock_start w) = (Ret (3%nat, p'), s2)
     /\ queue_of p' "a1" = [r1; r3] /\ queue_of p' "a2" = [r2]
     /\ dest_cycle_pos p' = 1%nat)
  /\ (exists p' s2,
        CyclePicker_init used (mock_start w) = (Ret (3%nat, p'), s2)
        /\ queue_of p' "a1" = [r2] /\ queue_of p' "a2" = [r1; r3]
        /\ dest_cycle_pos p' = 0%nat).
Proof.
  intros w used.
  assert (Hinit : Picker_init a_src (mock_start w)
                  = (Ret (fresh_picker [a1; a2]),
                     {| world := w; trace := [EvListAgents] |})) by reflexivity.
  assert (Hlist : list_routers_on_l3_agent (agent_id a_src) (world (mock_start w))
                  = (Ret [r1; r2; r3], w)) by reflexivity.
  split.
  - destruct (cycle_assigns_round_robin (fresh_picker [a1; a2]) (mock_start w)
                [r1; r2; r3] w) as [Hfresh Hgeneral].
    destruct (Hfresh _ _ _ Hinit) as (Hwf & Hpos & Hempty & _).
    assert (Hdest : dest (fresh_picker [a1; a2]) <> []) by discriminate.
    destruct (Hgeneral Hwf Hdest Hlist)
      as (p' & s2 & Hrun & _ & _ & Hpos' & _ & _ & Hqueue).
    exists p', s2. split; [exact Hinit|]. split; [exact Hrun|].
    split; [exact (Hqueue Hpos Hempty 0%nat "a1" eq_refl)|].
    split; [exact (Hqueue Hpos Hempty 1%nat "a2" eq_refl) | exact Hpos'].
  - destruct (cycle_assigns_round_robin used (mock_start w) [r1; r2; r3] w)
      as [_ Hgeneral].
    assert (Hwf : picker_wf used).
    { split; [reflexivity|]. split; [|split].
      - repeat constructor; simpl; intuition discriminate.
      - right. simpl. lia.
      - intros k e. simpl.
        destruct (String.eqb_spec k "a1") as [->|_]; [intros [= <-]; reflexivity|].
        destruct (String.eqb_spec k "a2") as [->|_]; [intros [= <-]; reflexivity|].
        discriminate. }
    assert (Hdest : dest used <> []) by discriminate.
    destruct (Hgeneral Hwf Hdest Hlist) as (p' & s2 & Hrun & _ & _ & Hpos' & Hqueue & _).
    exists p', s2. split; [exact Hrun|].
    split; [exact (Hqueue 0%nat "a1" eq_refl)|].
    split; [exact (Hqueue 1%nat "a2" eq_refl) | exact Hpos'].
Defined.

(** [get_next_for_agent] on the queue of [a1]. *)
Lemma get_next_for_agent_cases_witness :
  exists p',
    get_next_for_agent p_queued a1 = Ret (Some (a1, r3), p')
    /\ queue_of p' "a1" = [r1].
Proof.
  destruct (get_next_for_agent_cases p_queued a1) as [_ Hsome].
  destruct (Hsome {| de_agent := a1; de_routers := [r1; r3] |} eq_refl) as [_ Hpop].
  destruct (Hpop [r1] r3 eq_refl) as (p' & Hget & Hq & _).
  exists p'. split; [exact Hget | exact Hq].
Defined.

(** A detach that is refused throughout ends the migration: no attach
    request and no remote command. *)
Lemma migrate_router_requests_witness :
  let s := mock_start world_stuck in
  fst (_remove_router cfg1 a_src r1 (cfg_retry cfg1) s) = Ret false
  /\ Forall (fun e => is_attach e = false /\ is_remote e = false)
            (emitted (migrate_router cfg1 a_src a1 r1 None) s).
Proof.
  intros s.
  assert (Hfail : fst (_remove_router cfg1 a_src r1 (cfg_retry cfg1) s) = Ret false)
    by (vm_compute; reflexivity).
  split; [exact Hfail|].
  destruct (migrate_router_requests cfg1 a_src a1 r1 None s) as (_ & _ & Hstop).
  exact (proj2 (Hstop Hfail)).
Defined.

(** With a budget of one retry on a control plane that accepts the attach,
    the first attempt succeeds. *)
Lemma add_router_retry_budget_witness :
  fst (_add_router cfg1 a1 r1 1 (mock_start world_unowned)) = Ret true.
Proof.
  destruct (add_router_retry_budget cfg1 a1 r1 (mock_start world_unowned)) as [_ Hbudget].
  assert (Hretry : 0 <= 1) by lia.
  destruct (Hbudget 1 Hretry) as (Htrue & _).
  apply Htrue. exists 0%nat. split; [lia | vm_compute; reflexivity].
Defined.

End MoreConcreteRuns.

Section ReverseOrderRuns.
Import Runs MoreRuns.
#[local] Existing Instance reverse_order.

(** Dictionaries that list their keys in the reverse of the insertion:
    [dest] lists [a3] before [a1], [totals], filled in that order, lists
    [a1] before [a3], and with equal loads the Balance selector starts with
    [a1], where the Cycle selector starts with [a3]. *)
Lemma balance_equal_loads_round_robin_witness :
  let w := world_even [r1; r2; r3] in
  let p := fresh_picker [a3; a1] in
  exists p' s' pc sc,
    Picker_init a_src (mock_start w)
    = (Ret p, {| world := w; trace := [EvListAgents] |})
    /\ PyDict.keys (dest p) = ["a3"; "a1"]
    /\ BalancePicker_init p (mock_start w) = (Ret (3%nat, p'), s')
    /\ queue_of p' "a1" = [r1; r3] /\ queue_of p' "a3" = [r2]
    /\ CyclePicker_init p (mock_start w) = (Ret (3%nat, pc), sc)
    /\ queue_of pc "a3" = [r1; r3] /\ queue_of pc "a1" = [r2].
Proof.
  intros w p.
  assert (Hinit : Picker_init a_src (mock_start w)
                  = (Ret p, {| world := w; trace := [EvListAgents] |})) by reflexivity.
  assert (Hloads : forall k e, PyDict.get k (dest p) = Some e ->
                               agent_routers (de_agent e) = 0).
  { intros k e. simpl.
    destruct (String.eqb k "a3"); [intros [= <-]; reflexivity|].
    destruct (String.eqb k "a1"); [intros [= <-]; reflexivity | discriminate]. }
  assert (Hdest : dest p <> []) by discriminate.
  assert (Hlist : list_routers_on_l3_agent (agent_id a_src) (world (mock_start w))
                  = (Ret [r1; r2; r3], w)) by reflexivity.
  destruct (balance_equal_loads_round_robin a_src _ _ (mock_start w) _ _ _ 0
              Hinit Hdest Hloads Hlist) as (p' & s' & Hrun & _ & Hqueues).
  exists p', s'. do 2 eexists.
  split; [exact Hinit|]. split; [reflexivity|]. split; [exact Hrun|].
  split; [exact (Hqueues 0%nat "a1" eq_refl)|].
  split; [exact (Hqueues 1%nat "a3" eq_refl)|].
  split; [reflexivity|]. split; reflexivity.
Defined.

End ReverseOrderRuns.
